(** * The pr-check utilities of amphtml's build system

    A shallow embedding of [build-system/pr-check/utils.js] and of the
    [checks.js] entry point that drives it, together with the properties of
    the artifact pipeline: the order of the steps of an upload and of a
    download, the credential provisioning, the archive names, the timer
    report and the early-failure paths of the checks job.

    The code is glue around external processes.  A run is modelled as a
    computation over the state of the machine it runs on, which returns a
    value, leaves the process through [process.exit], or throws; every
    observable action (a console line, a child process, a call of an
    external collaborator) is appended to the trace of the run. *)

From Stdlib Require Import Ascii.
From stdpp Require Import base numbers list strings pretty gmap fin_maps.

Local Open Scope Z_scope.

(** ** JavaScript values used by the code *)

Module Js.

(** Truthiness of a string: only the empty string is falsy. *)
Definition truthy (s : string) : bool :=
  match s with
  | EmptyString => false
  | String _ _ => true
  end.

(** A template literal renders [undefined] as the word itself. *)
Definition template (v : option string) : string :=
  match v with
  | Some s => s
  | None => "undefined"
  end.

(** [s.split(sep)] for a separator of one character. *)
Fixpoint split (sep : ascii) (s : string) : list string :=
  match s with
  | EmptyString => [EmptyString]
  | String c s' =>
      if decide (c = sep) then EmptyString :: split sep s'
      else match split sep s' with
           | w :: ws => String c w :: ws
           | [] => [String c EmptyString]
           end
  end.

(** [l.join(sep)]. *)
Definition join (sep : string) (l : list string) : string :=
  String.concat sep l.

(** [s.startsWith(p)]. *)
Definition startsWith (s p : string) : bool := String.prefix p s.

(** [s.includes(t)]. *)
Fixpoint includes (s t : string) : bool :=
  if String.prefix t s then true
  else match s with
       | EmptyString => false
       | String _ s' => includes s' t
       end.

(** [s.replace(pat, by)] with a string pattern: the first occurrence of
    [pat] is replaced, and [s] is returned as it is when there is none. *)
Fixpoint replace (s pat by_ : string) : string :=
  if String.prefix pat s
  then by_ +:+ String.substring (String.length pat)
                                 (String.length s - String.length pat)%nat s
  else match s with
       | EmptyString => EmptyString
       | String c s' => String c (replace s' pat by_)
       end.

(** [s.replaceAll(pat, by)] for a non-empty string pattern. *)
Fixpoint replaceAll_go (fuel : nat) (s pat by_ : string) : string :=
  match fuel with
  | O => s
  | S fuel' =>
      if String.prefix pat s
      then by_ +:+ replaceAll_go fuel'
                     (String.substring (String.length pat)
                        (String.length s - String.length pat)%nat s) pat by_
      else match s with
           | EmptyString => EmptyString
           | String c s' => String c (replaceAll_go fuel' s' pat by_)
           end
  end.

Definition replaceAll (s pat by_ : string) : string :=
  replaceAll_go (S (String.length s)) s pat by_.

(** [/^\d*$/.test(s)]: only decimal digits. *)
Definition isDigit (c : ascii) : bool :=
  (48 <=? nat_of_ascii c)%nat && (nat_of_ascii c <=? 57)%nat.

Fixpoint isDigits (s : string) : bool :=
  match s with
  | EmptyString => true
  | String c s' => isDigit c && isDigits s'
  end.

(** [Math.floor(a / b)] on integers, for a positive [b]. *)
Definition floor_div (a b : Z) : Z := a `div` b.

(** [a % b]: the remainder has the sign of the dividend. *)
Definition remainder (a b : Z) : Z := a `rem` b.

(** [n + ''] for an integer. *)
Definition of_number (n : Z) : string := pretty n.

(** [s.trim()], for a string of code units below 256: white space and line
    terminators are then the code units 9 to 13, 32 and 160. *)
Definition isWhiteSpace (c : ascii) : bool :=
  ((9 <=? nat_of_ascii c) && (nat_of_ascii c <=? 13)
   || (nat_of_ascii c =? 32) || (nat_of_ascii c =? 160))%nat.

Fixpoint trimStart (s : string) : string :=
  match s with
  | EmptyString => EmptyString
  | String c s' => if isWhiteSpace c then trimStart s' else s
  end.

Fixpoint trimEnd (s : string) : string :=
  match s with
  | EmptyString => EmptyString
  | String c s' =>
      match trimEnd s' with
      | EmptyString => if isWhiteSpace c then EmptyString else String c EmptyString
      | String d t => String c (String d t)
      end
  end.

Definition trim (s : string) : string := trimEnd (trimStart s).

End Js.

(** ** Runs of the process *)

(** How a computation ends: it returns, the process exits with a status
    ([process.exit]), or an exception (a rejected promise) propagates. *)
Inductive Outcome (A : Type) : Type :=
| Ret (a : A)
| Exit (status : Z)
| Throw (err : string).
Arguments Ret {A} a.
Arguments Exit {A} status.
Arguments Throw {A} err.

(** What a run does, oldest first. *)
Inductive Event : Type :=
| Log (args : list string)             (* console.log(...args) *)
| LogError (args : list string)        (* console.error(...args) *)
| DateNow (t : Z)                      (* Date.now() gave t *)
| Spawn (cmd : string) (status : Z)    (* a child process and its exit status *)
| YarnChecks (fileName : string) (ok : bool)
| ReplaceUrls (dir : string)
| SignalDistUploadComplete
| DetermineBuildTargets (fileName : string) (targets : gset string)
| ReportAllExpectedTests (targets : gset string).

(** The process: the machine it runs on and [process.exitCode]. *)
Record Proc (Sys : Type) : Type := mkProc {
  sys : Sys;
  exitCode : option Z
}.
Arguments mkProc {Sys} sys exitCode.
Arguments sys {Sys} p.
Arguments exitCode {Sys} p.

Record Run (Sys A : Type) : Type := mkRun {
  outcome : Outcome A;
  final : Proc Sys;
  emitted : list Event
}.
Arguments mkRun {Sys A} outcome final emitted.
Arguments outcome {Sys A} r.
Arguments final {Sys A} r.
Arguments emitted {Sys A} r.

Definition M (Sys A : Type) : Type := Proc Sys -> Run Sys A.

Definition ret {Sys A} (a : A) : M Sys A :=
  fun p => mkRun (Ret a) p [].

Definition bind {Sys A B} (m : M Sys A) (k : A -> M Sys B) : M Sys B :=
  fun p =>
    let r := m p in
    match outcome r with
    | Ret a =>
        let r' := k a (final r) in
        mkRun (outcome r') (final r') (emitted r ++ emitted r')
    | Exit st => mkRun (Exit st) (final r) (emitted r)
    | Throw e => mkRun (Throw e) (final r) (emitted r)
    end.

Declare Scope proc_scope.
Delimit Scope proc_scope with proc.
Notation "x <- m ;; k" := (bind m (fun x => k))
  (at level 100, m at next level, k at level 200, right associativity)
  : proc_scope.
Notation "m ;; k" := (bind m (fun _ => k))
  (at level 100, k at level 200, right associativity) : proc_scope.
Local Open Scope proc_scope.

(** ** The environment of the scripts

    What the modules required by [utils.js] and [checks.js] provide and the
    sources do not define: the colour functions, the queries of the CI
    platform and of the git repository (read-only, so plain values), the
    secret of the environment, and the collaborators that act on the
    machine. *)
Record Env (Sys : Type) : Type := mkEnv {
  (* ansi-colors *)
  bold : string -> string;
  yellow : string -> string;
  red : string -> string;
  cyan : string -> string;
  green : string -> string;
  (* ../travis *)
  isTravisBuild : bool;
  travisBuildNumber : string;
  travisPullRequestSha : string;
  isTravisPullRequestBuild : bool;
  (* ../git *)
  gitBranchCreationPoint : string;
  gitBranchName : string;
  gitCommitHash : string;
  gitDiffCommitLog : string;
  gitDiffStatMaster : string;
  gitTravisMasterBaseline : string;
  shortSha : string -> string;
  (* process.env.GCP_TOKEN *)
  GCP_TOKEN : option string;
  (* the child processes of ../exec: exit status and effect of a command *)
  shell : string -> Sys -> Z * Sys;
  (* the clock behind Date.now() *)
  clock : Sys -> Z * Sys;
  (* ./yarn-checks, ../tasks/pr-deploy-bot-utils, ./build-targets,
     ../tasks/report-test-status *)
  yarnChecks : string -> Sys -> bool * Sys;
  urlRewrite : string -> Sys -> Outcome unit * Sys;
  distUploadSignal : Sys -> Outcome unit * Sys;
  buildTargetsOf : string -> Sys -> gset string * Sys;
  expectedTestsReport : gset string -> Sys -> Sys
}.
Arguments bold {Sys} e _.
Arguments yellow {Sys} e _.
Arguments red {Sys} e _.
Arguments cyan {Sys} e _.
Arguments green {Sys} e _.
Arguments isTravisBuild {Sys} e.
Arguments travisBuildNumber {Sys} e.
Arguments travisPullRequestSha {Sys} e.
Arguments isTravisPullRequestBuild {Sys} e.
Arguments gitBranchCreationPoint {Sys} e.
Arguments gitBranchName {Sys} e.
Arguments gitCommitHash {Sys} e.
Arguments gitDiffCommitLog {Sys} e.
Arguments gitDiffStatMaster {Sys} e.
Arguments gitTravisMasterBaseline {Sys} e.
Arguments shortSha {Sys} e _.
Arguments GCP_TOKEN {Sys} e.
Arguments shell {Sys} e _ _.
Arguments clock {Sys} e _.
Arguments yarnChecks {Sys} e _ _.
Arguments urlRewrite {Sys} e _ _.
Arguments distUploadSignal {Sys} e _.
Arguments buildTargetsOf {Sys} e _ _.
Arguments expectedTestsReport {Sys} e _ _.

Section Primitives.
Context {Sys : Type} (env : Env Sys).

Definition emit (e : Event) : M Sys unit :=
  fun p => mkRun (Ret tt) p [e].

Definition console_log (args : list string) : M Sys unit := emit (Log args).
Definition console_error (args : list string) : M Sys unit :=
  emit (LogError args).

Definition Date_now : M Sys Z :=
  fun p =>
    let '(t, s) := clock env (sys p) in
    mkRun (Ret t) (mkProc s (exitCode p)) [DateNow t].

(** [process.exitCode = c]. *)
Definition set_exitCode (c : Z) : M Sys unit :=
  fun p => mkRun (Ret tt) (mkProc (sys p) (Some c)) [].

(** [process.exit(status)]. *)
Definition process_exit {A} (status : Z) : M Sys A :=
  fun p => mkRun (Exit status) p [].

(** Modelled from the spec: [exec] of [build-system/exec.js], which is not
    among the sources.  "executes an external command synchronously,
    captures exit status": the command runs to its end and its status is
    returned; a failure is not fatal. *)
Definition exec (cmd : string) : M Sys Z :=
  fun p =>
    let '(st, s) := shell env cmd (sys p) in
    mkRun (Ret st) (mkProc s (exitCode p)) [Spawn cmd st].

(** Modelled from the spec: [execOrDie] of [build-system/exec.js], which is
    not among the sources.  "fatal: terminates the whole program with
    non-zero status on failure": a status other than 0 ends the process
    with that status. *)
Definition execOrDie (cmd : string) : M Sys unit :=
  st <- exec cmd ;;
  if st =? 0 then ret tt else process_exit st.

(** The collaborators, each call recorded in the trace. *)
Definition runYarnChecks (fileName : string) : M Sys bool :=
  fun p =>
    let '(ok, s) := yarnChecks env fileName (sys p) in
    mkRun (Ret ok) (mkProc s (exitCode p)) [YarnChecks fileName ok].

(** An awaited promise: the call is made, then it resolves or rejects. *)
Definition replaceUrls (dir : string) : M Sys unit :=
  fun p =>
    let '(o, s) := urlRewrite env dir (sys p) in
    mkRun o (mkProc s (exitCode p)) [ReplaceUrls dir].

Definition signalDistUploadComplete : M Sys unit :=
  fun p =>
    let '(o, s) := distUploadSignal env (sys p) in
    mkRun o (mkProc s (exitCode p)) [SignalDistUploadComplete].

Definition determineBuildTargets (fileName : string) : M Sys (gset string) :=
  fun p =>
    let '(t, s) := buildTargetsOf env fileName (sys p) in
    mkRun (Ret t) (mkProc s (exitCode p)) [DetermineBuildTargets fileName t].

Definition reportAllExpectedTests (targets : gset string) : M Sys unit :=
  fun p =>
    mkRun (Ret tt) (mkProc (expectedTestsReport env targets (sys p)) (exitCode p))
          [ReportAllExpectedTests targets].

(** [buildTargets.has(t)]. *)
Definition has (targets : gset string) (t : string) : bool :=
  bool_decide (t ∈ targets).

End Primitives.

(** ** build-system/pr-check/utils.js *)

Module Utils.
Section Utils.
Context {Sys : Type} (env : Env Sys).

(** The line feed of ['\n']. *)
Definition nl : string := String (ascii_of_nat 10) EmptyString.

Definition BUILD_OUTPUT_FILE : string :=
  if isTravisBuild env
  then "amp_build_" +:+ travisBuildNumber env +:+ ".zip"
  else "".
Definition DIST_OUTPUT_FILE : string :=
  if isTravisBuild env
  then "amp_dist_" +:+ travisBuildNumber env +:+ ".zip"
  else "".

Definition BUILD_OUTPUT_DIRS : string :=
  "build/ dist/ dist.3p/ EXTENSIONS_CSS_MAP".
Definition DIST_OUTPUT_DIRS : string :=
  "build/ dist/ dist.3p/ dist.tools/ EXTENSIONS_CSS_MAP examples/ test/manual/".

Definition OUTPUT_STORAGE_LOCATION : string := "gs://amp-travis-builds".
Definition OUTPUT_STORAGE_KEY_FILE : string := "sa-travis-key.json".
Definition OUTPUT_STORAGE_PROJECT_ID : string := "amp-travis-build-storage".
Definition OUTPUT_STORAGE_SERVICE_ACCOUNT : string :=
  "sa-travis@amp-travis-build-storage.iam.gserviceaccount.com".

Definition GIT_BRANCH_URL : string :=
  "https://github.com/ampproject/amphtml/blob/master/contributing/getting-started-e2e.md#create-a-git-branch".

(** Checks if the PR branch was forked from [master]. *)
Definition verifyBranchCreationPoint (fileName : string) : M Sys bool :=
  let fileLogPrefix := bold env (yellow env (fileName +:+ ":")) in
  let branchCreationPoint := gitBranchCreationPoint env in
  if negb (Js.truthy branchCreationPoint) then
    console_error
      [fileLogPrefix;
       red env "ERROR:";
       "Could not find a common ancestor for";
       cyan env (gitBranchName env);
       "and";
       cyan env "master" +:+ ". Was this PR branch properly forked?"] ;;
    console_error
      [fileLogPrefix;
       yellow env "NOTE:";
       "To fix this, rebase your branch on";
       cyan env "master" +:+
         ", or recreate it by following the instructions at";
       cyan env GIT_BRANCH_URL +:+ "."] ;;
    ret false
  else ret true.

(** Prints a summary of files changed by, and commits included in the PR. *)
Definition printChangeSummary (fileName : string) : M Sys unit :=
  let fileLogPrefix := bold env (yellow env (fileName +:+ ":")) in
  commitSha <-
    (if isTravisBuild env then
       console_log
         [fileLogPrefix +:+ " " +:+ cyan env "origin/master" +:+
            " is currently at " +:+
            "commit " +:+ cyan env (shortSha env (gitTravisMasterBaseline env))] ;;
       ret (travisPullRequestSha env)
     else ret (gitCommitHash env)) ;;
  console_log
    [fileLogPrefix +:+ " Testing the following changes at commit " +:+
       cyan env (shortSha env commitSha)] ;;
  let filesChanged := gitDiffStatMaster env in
  console_log [filesChanged] ;;
  let branchCreationPoint := gitBranchCreationPoint env in
  console_log
    [fileLogPrefix +:+ " Commit log since branch";
     cyan env (gitBranchName env) +:+ " was forked from";
     cyan env "master" +:+ " at";
     cyan env (shortSha env branchCreationPoint) +:+ ":"] ;;
  console_log [gitDiffCommitLog env +:+ nl].

(** Starts a timer to measure the execution time of the given function. *)
Definition startTimer (functionName fileName : string) : M Sys Z :=
  startTime <- Date_now env ;;
  let fileLogPrefix := bold env (yellow env (fileName +:+ ":")) in
  console_log
    [nl +:+ fileLogPrefix; "Running"; cyan env functionName +:+ "..."] ;;
  ret startTime.

(** The text of the elapsed time, [mins + 'm ' + secs + 's']. *)
Definition elapsed_text (executionTime : Z) : string :=
  let mins := Js.floor_div executionTime 60000 in
  let secs := Js.floor_div (Js.remainder executionTime 60000) 1000 in
  Js.of_number mins +:+ "m " +:+ Js.of_number secs +:+ "s".

(** Stops the timer for the given function and prints the execution time. *)
Definition stopTimer (functionName fileName : string) (startTime : Z)
  : M Sys unit :=
  endTime <- Date_now env ;;
  let executionTime := endTime - startTime in
  let fileLogPrefix := bold env (yellow env (fileName +:+ ":")) in
  console_log
    [fileLogPrefix;
     "Done running";
     cyan env functionName;
     "Total time:";
     green env (elapsed_text executionTime)].

(** Executes the provided command and times it ([fileName] defaults to
    ['utils.js'] at the call). *)
Definition timedExec (cmd fileName : string) : M Sys Z :=
  startTime <- startTimer cmd fileName ;;
  p <- exec env cmd ;;
  stopTimer cmd fileName startTime ;;
  ret p.

(** Executes the provided command and times it.  The program terminates in
    case of failure. *)
Definition timedExecOrDie (cmd fileName : string) : M Sys unit :=
  startTime <- startTimer cmd fileName ;;
  execOrDie env cmd ;;
  stopTimer cmd fileName startTime.

(** Decrypts key used by storage service account. *)
Definition decryptTravisKey_ : M Sys unit :=
  execOrDie env
    ("openssl aes-256-cbc -md sha256 -k " +:+ Js.template (GCP_TOKEN env) +:+
     " -in " +:+
     "build-system/sa-travis-key.json.enc -out " +:+
     OUTPUT_STORAGE_KEY_FILE +:+ " -d").

Definition authenticateWithStorageLocation_ : M Sys unit :=
  decryptTravisKey_ ;;
  execOrDie env
    ("gcloud auth activate-service-account " +:+
     "--key-file " +:+ OUTPUT_STORAGE_KEY_FILE) ;;
  execOrDie env
    ("gcloud config set account " +:+ OUTPUT_STORAGE_SERVICE_ACCOUNT) ;;
  execOrDie env "gcloud config set pass_credentials_to_gsutil true" ;;
  execOrDie env ("gcloud config set project " +:+ OUTPUT_STORAGE_PROJECT_ID) ;;
  execOrDie env "gcloud config list".

(** Download output helper. *)
Definition downloadOutput_ (functionName outputFileName outputDirs : string)
  : M Sys unit :=
  let fileLogPrefix := bold env (yellow env (functionName +:+ ":")) in
  let buildOutputDownloadUrl :=
    OUTPUT_STORAGE_LOCATION +:+ "/" +:+ outputFileName in
  console_log
    [fileLogPrefix +:+ " Downloading build output from " +:+
       cyan env buildOutputDownloadUrl +:+ "..."] ;;
  exec env "echo travis_fold:start:download_results && echo" ;;
  authenticateWithStorageLocation_ ;;
  execOrDie env
    ("gsutil cp " +:+ buildOutputDownloadUrl +:+ " " +:+ outputFileName) ;;
  exec env "echo travis_fold:end:download_results" ;;
  console_log
    [fileLogPrefix +:+ " Extracting " +:+ cyan env outputFileName +:+ "..."] ;;
  exec env "echo travis_fold:start:unzip_results && echo" ;;
  execOrDie env ("unzip -o " +:+ outputFileName) ;;
  exec env "echo travis_fold:end:unzip_results" ;;
  console_log [fileLogPrefix; "Verifying extracted files..."] ;;
  exec env "echo travis_fold:start:verify_unzip_results && echo" ;;
  execOrDie env ("ls -laR " +:+ outputDirs) ;;
  exec env "echo travis_fold:end:verify_unzip_results" ;;
  ret tt.

(** Upload output helper. *)
Definition uploadOutput_ (functionName outputFileName outputDirs : string)
  : M Sys unit :=
  let fileLogPrefix := bold env (yellow env (functionName +:+ ":")) in
  console_log
    [nl +:+ fileLogPrefix +:+ " Compressing " +:+
       cyan env (Js.join ", " (Js.split " " outputDirs)) +:+
       " into " +:+ cyan env outputFileName +:+ "..."] ;;
  exec env "echo travis_fold:start:zip_results && echo" ;;
  execOrDie env ("zip -r " +:+ outputFileName +:+ " " +:+ outputDirs) ;;
  exec env "echo travis_fold:end:zip_results" ;;
  console_log
    [fileLogPrefix +:+ " Uploading " +:+ cyan env outputFileName +:+
       " to " +:+ cyan env OUTPUT_STORAGE_LOCATION +:+ "..."] ;;
  exec env "echo travis_fold:start:upload_results && echo" ;;
  authenticateWithStorageLocation_ ;;
  execOrDie env
    ("gsutil -m cp -r " +:+ outputFileName +:+ " " +:+ OUTPUT_STORAGE_LOCATION) ;;
  exec env "echo travis_fold:end:upload_results" ;;
  ret tt.

(** Downloads and unzips build output from storage. *)
Definition downloadBuildOutput (functionName : string) : M Sys unit :=
  downloadOutput_ functionName BUILD_OUTPUT_FILE BUILD_OUTPUT_DIRS.

(** Downloads and unzips dist output from storage. *)
Definition downloadDistOutput (functionName : string) : M Sys unit :=
  downloadOutput_ functionName DIST_OUTPUT_FILE DIST_OUTPUT_DIRS.

(** Zips and uploads the build output to a remote storage location. *)
Definition uploadBuildOutput (functionName : string) : M Sys unit :=
  uploadOutput_ functionName BUILD_OUTPUT_FILE BUILD_OUTPUT_DIRS.

(** Zips and uploads the dist output to a remote storage location. *)
Definition uploadDistOutput (functionName : string) : M Sys unit :=
  uploadOutput_ functionName DIST_OUTPUT_FILE DIST_OUTPUT_DIRS.

(** Replaces URLS in HTML files, zips and uploads dist output, and signals
    to the AMP PR Deploy bot that the upload is complete. *)
Definition processAndUploadDistOutput (functionName : string) : M Sys unit :=
  replaceUrls env "test/manual" ;;
  replaceUrls env "examples" ;;
  uploadDistOutput functionName ;;
  signalDistUploadComplete env.

End Utils.

(** The Sauce Labs proxy.  [process.env] is part of the machine here: the
    machine is the environment of the process and the rest of the world.
    [tokenRequest] is what [request-promise] does with a URL: the body of
    the response, or a rejection. *)
Section SauceConnect.
Context {W : Type} (env : Env (gmap string string * W)).
Context (tokenRequest : string -> W -> Outcome string * W).

(** [process.env[name] = value]. *)
Definition process_env_set (name value : string)
  : M (gmap string string * W) unit :=
  fun p =>
    mkRun (Ret tt)
          (mkProc (<[name:=value]> (sys p).1, (sys p).2) (exitCode p)) [].

(** [await requestPromise(url)]. *)
Definition requestPromise (url : string) : M (gmap string string * W) string :=
  fun p =>
    let '(o, w) := tokenRequest url (sys p).2 in
    mkRun o (mkProc ((sys p).1, w) (exitCode p)) [].

(** Starts connection to Sauce Labs after getting account credentials. *)
Definition startSauceConnect (functionName : string)
  : M (gmap string string * W) unit :=
  process_env_set "SAUCE_USERNAME" "amphtml" ;;
  response <- requestPromise
                "https://amphtml-sauce-token-dealer.appspot.com/getJwtToken" ;;
  process_env_set "SAUCE_ACCESS_KEY" (Js.trim response) ;;
  let startScCmd := "build-system/sauce_connect/start_sauce_connect.sh" in
  let fileLogPrefix := bold env (yellow env (functionName +:+ ":")) in
  console_log
    [nl +:+ fileLogPrefix; "Starting Sauce Connect Proxy:"; cyan env startScCmd] ;;
  execOrDie env startScCmd.

(** Stops connection to Sauce Labs. *)
Definition stopSauceConnect (functionName : string)
  : M (gmap string string * W) unit :=
  let stopScCmd := "build-system/sauce_connect/stop_sauce_connect.sh" in
  let fileLogPrefix := bold env (yellow env (functionName +:+ ":")) in
  console_log
    [nl +:+ fileLogPrefix; "Stopping Sauce Connect Proxy:"; cyan env stopScCmd] ;;
  execOrDie env stopScCmd.

End SauceConnect.
End Utils.

(** ** build-system/pr-check/checks.js *)

Module Checks.
Section Checks.
Context {Sys : Type} (env : Env Sys).

Definition FILENAME : string := "checks.js".

Definition timedExecOrDie (cmd : string) : M Sys unit :=
  Utils.timedExecOrDie env cmd FILENAME.

Definition main : M Sys unit :=
  startTime <- Utils.startTimer env FILENAME FILENAME ;;
  yarnOk <- runYarnChecks env FILENAME ;;
  if negb yarnOk then
    Utils.stopTimer env FILENAME FILENAME startTime ;;
    set_exitCode 1
  else
    (if negb (isTravisPullRequestBuild env) then
       timedExecOrDie "gulp update-packages" ;;
       timedExecOrDie "gulp check-exact-versions" ;;
       timedExecOrDie "gulp lint" ;;
       timedExecOrDie "gulp presubmit" ;;
       timedExecOrDie "gulp ava" ;;
       timedExecOrDie "gulp babel-plugin-tests" ;;
       timedExecOrDie "gulp caches-json" ;;
       timedExecOrDie "gulp json-syntax" ;;
       timedExecOrDie "gulp dev-dashboard-tests" ;;
       timedExecOrDie "gulp dep-check" ;;
       timedExecOrDie "gulp check-types" ;;
       Utils.stopTimer env FILENAME FILENAME startTime
     else
       branchOk <- Utils.verifyBranchCreationPoint env FILENAME ;;
       if negb branchOk then
         Utils.stopTimer env FILENAME FILENAME startTime ;;
         set_exitCode 1
       else
         Utils.printChangeSummary env FILENAME ;;
         buildTargets <- determineBuildTargets env FILENAME ;;
         reportAllExpectedTests env buildTargets ;;
         timedExecOrDie "gulp update-packages" ;;
         timedExecOrDie "gulp check-exact-versions" ;;
         timedExecOrDie "gulp lint" ;;
         timedExecOrDie "gulp presubmit" ;;
         (if has buildTargets "AVA"
          then timedExecOrDie "gulp ava" else ret tt) ;;
         (if has buildTargets "BABEL_PLUGIN"
          then timedExecOrDie "gulp babel-plugin-tests" else ret tt) ;;
         (if has buildTargets "CACHES_JSON"
          then timedExecOrDie "gulp caches-json" ;;
               timedExecOrDie "gulp json-syntax"
          else ret tt) ;;
         (if has buildTargets "DOCS"
          then timedExecOrDie "gulp check-links" else ret tt) ;;
         (if has buildTargets "DEV_DASHBOARD"
          then timedExecOrDie "gulp dev-dashboard-tests" else ret tt) ;;
         (if has buildTargets "RUNTIME"
          then timedExecOrDie "gulp dep-check" ;;
               timedExecOrDie "gulp check-types"
          else ret tt) ;;
         Utils.stopTimer env FILENAME FILENAME startTime).

End Checks.
End Checks.

(** ** Straight-line scripts and their possible runs

    The pipeline functions are sequences of console lines, child processes
    and awaited collaborators.  [possible l o t] says that a run of the
    steps [l] can end with outcome [o] after the trace [t]: a fatal command
    that fails, or a collaborator that does not return, ends the run there. *)

Inductive Step : Type :=
| SLog (args : list string)
| SExec (cmd : string)          (* exec: the status is ignored *)
| SExecOrDie (cmd : string)     (* execOrDie: a failure ends the process *)
| SReplaceUrls (dir : string)   (* await replaceUrls(dir) *)
| SSignal.                      (* await signalDistUploadComplete() *)

(** The event of a step that succeeds. *)
Definition step_event (s : Step) : Event :=
  match s with
  | SLog args => Log args
  | SExec cmd => Spawn cmd 0
  | SExecOrDie cmd => Spawn cmd 0
  | SReplaceUrls dir => ReplaceUrls dir
  | SSignal => SignalDistUploadComplete
  end.

(** An event with the exit status forgotten. *)
Definition unstatus (e : Event) : Event :=
  match e with
  | Spawn cmd _ => Spawn cmd 0
  | _ => e
  end.

(** The commands of the child processes of a trace, in order. *)
Definition commands (t : list Event) : list string :=
  omap (fun e => match e with Spawn cmd _ => Some cmd | _ => None end) t.

Definition step_commands (l : list Step) : list string :=
  commands (map step_event l).

(** The events of commands that all passed. *)
Definition passed (cmds : list string) : list Event :=
  map (fun cmd => Spawn cmd 0) cmds.

Definition returns {A} (o : Outcome A) : Prop := exists a, o = Ret a.

Inductive possible : list Step -> Outcome unit -> list Event -> Prop :=
| possible_nil : possible [] (Ret tt) []
| possible_log args l o t :
    possible l o t -> possible (SLog args :: l) o (Log args :: t)
| possible_exec cmd st l o t :
    possible l o t -> possible (SExec cmd :: l) o (Spawn cmd st :: t)
| possible_pass cmd l o t :
    possible l o t -> possible (SExecOrDie cmd :: l) o (Spawn cmd 0 :: t)
| possible_die cmd st l :
    st ≠ 0 -> possible (SExecOrDie cmd :: l) (Exit st) [Spawn cmd st]
| possible_rewritten dir l o t :
    possible l o t -> possible (SReplaceUrls dir :: l) o (ReplaceUrls dir :: t)
| possible_unrewritten dir l o :
    ¬ returns o -> possible (SReplaceUrls dir :: l) o [ReplaceUrls dir]
| possible_signalled l o t :
    possible l o t -> possible (SSignal :: l) o (SignalDistUploadComplete :: t)
| possible_unsignalled l o :
    ¬ returns o -> possible (SSignal :: l) o [SignalDistUploadComplete].

(** [m] behaves as the script [l]. *)
Definition runs {Sys} (m : M Sys unit) (l : list Step) : Prop :=
  forall p, possible l (outcome (m p)) (emitted (m p)).

(** ** The scripts of the pipeline

    The pipeline functions of [utils.js] in flat form, one step per call of
    [console.log], [exec], [execOrDie] or of an awaited collaborator.  They
    serve to state and prove the order of the steps; that the functions of
    the embedding run exactly these scripts is proved below ([auth_runs],
    [upload_runs], [download_runs], [process_runs]). *)

Section PipelineScripts.
Context {Sys : Type} (env : Env Sys).

(** The commands of [authenticateWithStorageLocation_], in order. *)
Definition auth_commands : list string :=
  ["openssl aes-256-cbc -md sha256 -k " +:+ Js.template (GCP_TOKEN env) +:+
     " -in build-system/sa-travis-key.json.enc -out sa-travis-key.json -d";
   "gcloud auth activate-service-account --key-file sa-travis-key.json";
   "gcloud config set account sa-travis@amp-travis-build-storage.iam.gserviceaccount.com";
   "gcloud config set pass_credentials_to_gsutil true";
   "gcloud config set project amp-travis-build-storage";
   "gcloud config list"].

Definition auth_steps : list Step := map SExecOrDie auth_commands.

(** The first half of an upload: the archive is packed. *)
Definition pack_steps (functionName outputFileName outputDirs : string)
  : list Step :=
  let fileLogPrefix := bold env (yellow env (functionName +:+ ":")) in
  [SLog [Utils.nl +:+ fileLogPrefix +:+ " Compressing " +:+
           cyan env (Js.join ", " (Js.split " " outputDirs)) +:+
           " into " +:+ cyan env outputFileName +:+ "..."];
   SExec "echo travis_fold:start:zip_results && echo";
   SExecOrDie ("zip -r " +:+ outputFileName +:+ " " +:+ outputDirs);
   SExec "echo travis_fold:end:zip_results";
   SLog [fileLogPrefix +:+ " Uploading " +:+ cyan env outputFileName +:+
           " to " +:+ cyan env "gs://amp-travis-builds" +:+ "..."];
   SExec "echo travis_fold:start:upload_results && echo"].

Definition upload_steps (functionName outputFileName outputDirs : string)
  : list Step :=
  pack_steps functionName outputFileName outputDirs
  ++ auth_steps
  ++ [SExecOrDie ("gsutil -m cp -r " +:+ outputFileName +:+
                  " gs://amp-travis-builds");
      SExec "echo travis_fold:end:upload_results"].

Definition download_steps (functionName outputFileName outputDirs : string)
  : list Step :=
  let fileLogPrefix := bold env (yellow env (functionName +:+ ":")) in
  let buildOutputDownloadUrl := "gs://amp-travis-builds/" +:+ outputFileName in
  SLog [fileLogPrefix +:+ " Downloading build output from " +:+
          cyan env buildOutputDownloadUrl +:+ "..."]
  :: SExec "echo travis_fold:start:download_results && echo"
  :: auth_steps
  ++ [SExecOrDie ("gsutil cp " +:+ buildOutputDownloadUrl +:+ " " +:+
                  outputFileName);
      SExec "echo travis_fold:end:download_results";
      SLog [fileLogPrefix +:+ " Extracting " +:+ cyan env outputFileName +:+
              "..."];
      SExec "echo travis_fold:start:unzip_results && echo";
      SExecOrDie ("unzip -o " +:+ outputFileName);
      SExec "echo travis_fold:end:unzip_results";
      SLog [fileLogPrefix; "Verifying extracted files..."];
      SExec "echo travis_fold:start:verify_unzip_results && echo";
      SExecOrDie ("ls -laR " +:+ outputDirs);
      SExec "echo travis_fold:end:verify_unzip_results"].

Definition process_steps (functionName : string) : list Step :=
  SReplaceUrls "test/manual"
  :: SReplaceUrls "examples"
  :: upload_steps functionName (Utils.DIST_OUTPUT_FILE env)
       Utils.DIST_OUTPUT_DIRS
  ++ [SSignal].

(** The commands of an upload and of a download that run to the end. *)
Definition upload_commands (outputFileName outputDirs : string) : list string :=
  ["echo travis_fold:start:zip_results && echo";
   "zip -r " +:+ outputFileName +:+ " " +:+ outputDirs;
   "echo travis_fold:end:zip_results";
   "echo travis_fold:start:upload_results && echo"]
  ++ auth_commands
  ++ ["gsutil -m cp -r " +:+ outputFileName +:+ " gs://amp-travis-builds";
      "echo travis_fold:end:upload_results"].

Definition download_commands (outputFileName outputDirs : string) : list string :=
  ["echo travis_fold:start:download_results && echo"]
  ++ auth_commands
  ++ ["gsutil cp gs://amp-travis-builds/" +:+ outputFileName +:+ " " +:+
        outputFileName;
      "echo travis_fold:end:download_results";
      "echo travis_fold:start:unzip_results && echo";
      "unzip -o " +:+ outputFileName;
      "echo travis_fold:end:unzip_results";
      "echo travis_fold:start:verify_unzip_results && echo";
      "ls -laR " +:+ outputDirs;
      "echo travis_fold:end:verify_unzip_results"].

End PipelineScripts.

(** ** The tools behind the credential provisioner

    The state that [authenticateWithStorageLocation_] acts on belongs to the
    tools it calls: the files on disk, and the credential store and the
    persistent properties of the cloud CLI.  The tools are not part of the
    repository; their effect on that state is modelled here after their
    command lines.  The cipher is left abstract: a decryption gives the
    plain text, or fails and leaves a residue, the bytes that were written
    before the failure was found (none for a short ciphertext).  The reading
    of a key file is abstract too. *)

Record Machine : Type := mkMachine {
  files : gmap string string;       (* the local disk: path to content *)
  credentials : gset string;        (* accounts with stored credentials *)
  properties : gmap string string   (* [gcloud config] properties *)
}.

Record Tools : Type := mkTools {
  decrypt : string -> string -> option string;  (* key, then ciphertext *)
  residue : string -> string -> string;         (* output of a failed decryption *)
  client_email : string -> option string        (* the account of a key file *)
}.

Definition write_file (path content : string) (m : Machine) : Machine :=
  mkMachine (<[path:=content]> (files m)) (credentials m) (properties m).

Definition activate (account : string) (m : Machine) : Machine :=
  mkMachine (files m) ({[account]} ∪ credentials m)
            (<["account":=account]> (properties m)).

Definition set_property (prop value : string) (m : Machine) : Machine :=
  mkMachine (files m) (credentials m) (<[prop:=value]> (properties m)).

(** The machine after the six commands of an authentication that passed,
    for the decrypted key [plain] of the account [account]. *)
Definition provisioned (account plain : string) (m : Machine) : Machine :=
  set_property "project" "amp-travis-build-storage"
    (set_property "pass_credentials_to_gsutil" "true"
       (set_property "account"
          "sa-travis@amp-travis-build-storage.iam.gserviceaccount.com"
          (activate account (write_file "sa-travis-key.json" plain m)))).

(** [openssl aes-256-cbc -md sha256 -k KEY -in SRC -out DST -d].  A command
    line that does not parse, or an input file that cannot be opened, fails
    before the output file is opened: the disk is as it was.  Otherwise the
    output file is created or truncated first, so that a decryption that
    fails (a wrong key, a file that is not a ciphertext) exits with status 1
    and leaves its residue in the place of what the file held. *)
Definition openssl (T : Tools) (args : list string) (m : Machine)
  : Z * Machine :=
  match args with
  | [cipher; md; digest; k; key; i; src; o; dst; d] =>
      if String.eqb cipher "aes-256-cbc" && String.eqb md "-md" &&
         String.eqb digest "sha256" && String.eqb k "-k" &&
         String.eqb i "-in" && String.eqb o "-out" && String.eqb d "-d"
      then match files m !! src with
           | Some enc =>
               match decrypt T key enc with
               | Some plain => (0, write_file dst plain m)
               | None => (1, write_file dst (residue T key enc) m)
               end
           | None => (1, m)
           end
      else (1, m)
  | _ => (1, m)
  end.

(** [gcloud auth activate-service-account --key-file PATH],
    [gcloud config set PROP VALUE] and [gcloud config list].  The
    activation reads the key file, stores the credentials of the account it
    names and makes this account the active one; it fails, and changes
    nothing, when the file is missing or is not a key.  [config set]
    overwrites one property, [config list] only prints. *)
Definition gcloud (T : Tools) (args : list string) (m : Machine)
  : Z * Machine :=
  match args with
  | [a; b] =>
      if String.eqb a "config" && String.eqb b "list" then (0, m) else (1, m)
  | [a; b; c; d] =>
      if String.eqb a "auth" && String.eqb b "activate-service-account" &&
         String.eqb c "--key-file"
      then match files m !! d with
           | Some key =>
               match client_email T key with
               | Some account => (0, activate account m)
               | None => (1, m)
               end
           | None => (1, m)
           end
      else if String.eqb a "config" && String.eqb b "set"
           then (0, set_property c d m)
           else (1, m)
  | _ => (1, m)
  end.

(** A command line is split into words at white space; a tool that is not
    modelled is not found. *)
Definition tools_shell (T : Tools) (cmd : string) (m : Machine) : Z * Machine :=
  match String.words cmd with
  | tool :: args =>
      if String.eqb tool "openssl" then openssl T args m
      else if String.eqb tool "gcloud" then gcloud T args m
      else (127, m)
  | [] => (0, m)
  end.

(** ** Sample environments *)

(** A machine that is only a clock: every [Date.now()] is [tick]
    milliseconds after the one before, and a command exits with
    [status cmd]. *)
Definition sample_env (travis : bool) (run : string) (pr yarn : bool)
  (creation : string) (status : string -> Z) (tick : Z) : Env Z :=
  mkEnv Z
    (fun s => s) (fun s => s) (fun s => s) (fun s => s) (fun s => s)
    travis run "0123456789abcdef" pr
    creation "feature" "fedcba9876543210" "" "" "0011223344556677"
    (fun s => String.substring 0 7 s)
    (Some "secret")
    (fun cmd t => (status cmd, t))
    (fun t => (t, t + tick))
    (fun _ t => (yarn, t))
    (fun _ t => (Ret tt, t))
    (fun t => (Ret tt, t))
    (fun _ t => (∅, t))
    (fun _ t => t).

Definition all_pass : string -> Z := fun _ => 0.

(** The listing of the extracted files fails. *)
Definition listing_fails : string -> Z :=
  fun cmd => if Js.startsWith cmd "ls " then 2 else 0.

(** An environment whose commands are run by the modelled tools. *)
Definition cloud_env (T : Tools) (token : option string) : Env Machine :=
  mkEnv Machine
    (fun s => s) (fun s => s) (fun s => s) (fun s => s) (fun s => s)
    true "1234" "" false
    "" "" "" "" "" ""
    (fun s => s)
    token
    (tools_shell T)
    (fun m => (0, m))
    (fun _ m => (true, m))
    (fun _ m => (Ret tt, m))
    (fun m => (Ret tt, m))
    (fun _ m => (∅, m))
    (fun _ m => m).

(** A cipher that strips the key from the front of the ciphertext, and
    writes nothing when the key is not there. *)
Definition sample_tools : Tools :=
  mkTools
    (fun key enc =>
       if String.prefix key enc
       then Some (String.substring (String.length key)
                    (String.length enc - String.length key) enc)
       else None)
    (fun _ _ => "")
    (fun key => Some key).

Definition sample_machine : Machine :=
  mkMachine {[ "build-system/sa-travis-key.json.enc" := "secretsa-travis" ]}
            ∅ ∅.

(** A Travis push build with run-id 1234 on which every command passes. *)
Definition travis_1234 : Env Z :=
  sample_env true "1234" false true "0a1b2c3" all_pass 0.

(** A process that has just started, at time 0. *)
Definition new_process : Proc Z := mkProc 0 None.

(** The copy commands of a trace, and the last argument of a command. *)
Definition copies (t : list Event) : list string :=
  List.filter (fun cmd => Js.startsWith cmd "gsutil") (commands t).

Definition destination (cmd : string) : option string :=
  last (String.words cmd).


(** The same build, on which the listing of the extracted files fails. *)
Definition travis_unlisted : Env Z :=
  sample_env true "1234" false true "0a1b2c3" listing_fails 0.

(** A local build: not on Travis. *)
Definition local_build : Env Z :=
  sample_env false "" false true "0a1b2c3" all_pass 0.

(** A pull-request build of a branch without creation point, whose clock
    advances by 61 seconds between two readings. *)
Definition orphan_pull_request : Env Z :=
  sample_env true "1234" true true "" all_pass 61000.

(** A build whose yarn checks fail. *)
Definition yarn_broken : Env Z :=
  sample_env true "1234" false false "0a1b2c3" all_pass 0.

(** ** Sequences of fatal commands

    [checks.js] runs its gulp commands one after the other through
    [timedExecOrDie].  [runs_fatally m cmds] says what such a sequence
    does from every state: it leaves [process.exitCode] alone, and either
    it returns, having run exactly [cmds], all passed; or it ends the
    process with the status of the first command that failed, which is the
    last event of its trace. *)

Definition all_passed (t : list Event) : Prop :=
  forall cmd st, Spawn cmd st ∈ t -> st = 0.

Definition runs_fatally {Sys} (m : M Sys unit) (cmds : list string) : Prop :=
  forall p,
    let r := m p in
    exitCode (final r) = exitCode p /\
    ((outcome r = Ret tt /\ commands (emitted r) = cmds /\
      all_passed (emitted r)) \/
     (exists st pre cmd post t,
        st ≠ 0 /\ outcome r = Exit st /\ cmds = pre ++ cmd :: post /\
        emitted r = t ++ [Spawn cmd st] /\ commands t = pre /\ all_passed t)).

(** The line that [stopTimer] prints for [checks.js], for a timer started at
    [startTime] and stopped at [endTime]. *)
Definition stop_line {Sys} (env : Env Sys) (startTime endTime : Z) : Event :=
  Log [bold env (yellow env "checks.js:");
       "Done running"; cyan env "checks.js"; "Total time:";
       green env (Utils.elapsed_text (endTime - startTime))].

(** A trace that ends with the stop of the timer of [checks.js] started at
    [startTime]: a reading of the clock, then the line with the time elapsed
    from [startTime] to that reading. *)
Definition stopped_last {Sys} (env : Env Sys) (startTime : Z)
  (t : list Event) : Prop :=
  exists pre endTime,
    t = pre ++ [DateNow endTime; stop_line env startTime endTime].

(** A computation that, when it returns, has stopped the timer last. *)
Definition ends_stopped {Sys} (env : Env Sys) (startTime : Z) (m : M Sys unit)
  : Prop :=
  forall p, outcome (m p) = Ret tt -> stopped_last env startTime (emitted (m p)).

Section ChecksBlocks.
Context {Sys : Type} (env : Env Sys).

(** The rest of [main] on a build that is not a pull-request build, from the
    first gulp command on. *)
Definition push_block (startTime : Z) : M Sys unit :=
  Checks.timedExecOrDie env "gulp update-packages" ;;
  Checks.timedExecOrDie env "gulp check-exact-versions" ;;
  Checks.timedExecOrDie env "gulp lint" ;;
  Checks.timedExecOrDie env "gulp presubmit" ;;
  Checks.timedExecOrDie env "gulp ava" ;;
  Checks.timedExecOrDie env "gulp babel-plugin-tests" ;;
  Checks.timedExecOrDie env "gulp caches-json" ;;
  Checks.timedExecOrDie env "gulp json-syntax" ;;
  Checks.timedExecOrDie env "gulp dev-dashboard-tests" ;;
  Checks.timedExecOrDie env "gulp dep-check" ;;
  Checks.timedExecOrDie env "gulp check-types" ;;
  Utils.stopTimer env Checks.FILENAME Checks.FILENAME startTime.

(** The rest of [main] on a pull-request build, from the first gulp command
    on, for the build targets [buildTargets]. *)
Definition pr_block (buildTargets : gset string) (startTime : Z) : M Sys unit :=
  Checks.timedExecOrDie env "gulp update-packages" ;;
  Checks.timedExecOrDie env "gulp check-exact-versions" ;;
  Checks.timedExecOrDie env "gulp lint" ;;
  Checks.timedExecOrDie env "gulp presubmit" ;;
  (if has buildTargets "AVA"
   then Checks.timedExecOrDie env "gulp ava" else ret tt) ;;
  (if has buildTargets "BABEL_PLUGIN"
   then Checks.timedExecOrDie env "gulp babel-plugin-tests" else ret tt) ;;
  (if has buildTargets "CACHES_JSON"
   then Checks.timedExecOrDie env "gulp caches-json" ;;
        Checks.timedExecOrDie env "gulp json-syntax"
   else ret tt) ;;
  (if has buildTargets "DOCS"
   then Checks.timedExecOrDie env "gulp check-links" else ret tt) ;;
  (if has buildTargets "DEV_DASHBOARD"
   then Checks.timedExecOrDie env "gulp dev-dashboard-tests" else ret tt) ;;
  (if has buildTargets "RUNTIME"
   then Checks.timedExecOrDie env "gulp dep-check" ;;
        Checks.timedExecOrDie env "gulp check-types"
   else ret tt) ;;
  Utils.stopTimer env Checks.FILENAME Checks.FILENAME startTime.

End ChecksBlocks.

(** The gulp commands of a build that is not a pull-request build. *)
Definition push_commands : list string :=
  ["gulp update-packages"; "gulp check-exact-versions"; "gulp lint";
   "gulp presubmit"; "gulp ava"; "gulp babel-plugin-tests";
   "gulp caches-json"; "gulp json-syntax"; "gulp dev-dashboard-tests";
   "gulp dep-check"; "gulp check-types"].

(** The gulp commands of a pull-request build, by its build targets. *)
Definition pr_commands (buildTargets : gset string) : list string :=
  ["gulp update-packages"; "gulp check-exact-versions"; "gulp lint";
   "gulp presubmit"]
  ++ (if has buildTargets "AVA" then ["gulp ava"] else [])
  ++ (if has buildTargets "BABEL_PLUGIN" then ["gulp babel-plugin-tests"] else [])
  ++ (if has buildTargets "CACHES_JSON"
      then ["gulp caches-json"; "gulp json-syntax"] else [])
  ++ (if has buildTargets "DOCS" then ["gulp check-links"] else [])
  ++ (if has buildTargets "DEV_DASHBOARD" then ["gulp dev-dashboard-tests"] else [])
  ++ (if has buildTargets "RUNTIME"
      then ["gulp dep-check"; "gulp check-types"] else []).

(** Every gulp command of [checks.js], in the order of the source. *)
Definition all_commands : list string :=
  ["gulp update-packages"; "gulp check-exact-versions"; "gulp lint";
   "gulp presubmit"; "gulp ava"; "gulp babel-plugin-tests";
   "gulp caches-json"; "gulp json-syntax"; "gulp check-links";
   "gulp dev-dashboard-tests"; "gulp dep-check"; "gulp check-types"].

(** The events of a timed command: the clock, the console and the child
    process. *)
Definition timing_event (e : Event) : bool :=
  match e with
  | DateNow _ | Log _ | Spawn _ _ => true
  | _ => false
  end.

(** The build target that guards a gulp command of a pull-request build. *)
Definition command_target (cmd : string) : option string :=
  if decide (cmd = "gulp ava") then Some "AVA"
  else if decide (cmd = "gulp babel-plugin-tests") then Some "BABEL_PLUGIN"
  else if decide (cmd = "gulp caches-json") then Some "CACHES_JSON"
  else if decide (cmd = "gulp json-syntax") then Some "CACHES_JSON"
  else if decide (cmd = "gulp check-links") then Some "DOCS"
  else if decide (cmd = "gulp dev-dashboard-tests") then Some "DEV_DASHBOARD"
  else if decide (cmd = "gulp dep-check") then Some "RUNTIME"
  else if decide (cmd = "gulp check-types") then Some "RUNTIME"
  else None.

(** A pull-request build of a branch forked from master, with the given
    build targets and exit statuses of the commands. *)
Definition pull_request_of (targets : gset string) (status : string -> Z)
  : Env Z :=
  mkEnv Z
    (fun s => s) (fun s => s) (fun s => s) (fun s => s) (fun s => s)
    true "1234" "0123456789abcdef" true
    "0a1b2c3" "feature" "fedcba9876543210" "" "" "0011223344556677"
    (fun s => String.substring 0 7 s)
    (Some "secret")
    (fun cmd t => (status cmd, t))
    (fun t => (t, t + 1000))
    (fun _ t => (true, t))
    (fun _ t => (Ret tt, t))
    (fun t => (Ret tt, t))
    (fun _ t => (targets, t))
    (fun _ t => t).

(** A pull request that touches the documents only. *)
Definition docs_pull_request : Env Z := pull_request_of {[ "DOCS" ]} all_pass.

(** The linter fails. *)
Definition lint_fails : string -> Z :=
  fun cmd => if String.eqb cmd "gulp lint" then 3 else 0.

(** ** What every function of the scripts keeps

    The status of a child process in a trace is one that the shell gave
    for its command, and the functions of [utils.js] leave
    [process.exitCode] alone. *)
Definition from_shell {Sys} (env : Env Sys) (e : Event) : Prop :=
  match e with
  | Spawn cmd st => exists s, (shell env cmd s).1 = st
  | _ => True
  end.

Definition keeps_exitCode {Sys A} (m : M Sys A) : Prop :=
  forall p, exitCode (final (m p)) = exitCode p.

(** The fold markers fail, every other command passes. *)
Definition echo_fails : string -> Z :=
  fun cmd => if Js.startsWith cmd "echo " then 1 else 0.

Definition travis_mute : Env Z :=
  sample_env true "1234" false true "0a1b2c3" echo_fails 0.

(** A machine for the Sauce Labs proxy: the variables of [process.env],
    which the child processes leave alone, and nothing else. *)
Definition sauce_env (status : string -> Z) : Env (gmap string string * unit) :=
  mkEnv (gmap string string * unit)
    (fun s => s) (fun s => s) (fun s => s) (fun s => s) (fun s => s)
    true "1234" "" false
    "" "" "" "" "" ""
    (fun s => s)
    None
    (fun cmd s => (status cmd, s))
    (fun s => (0, s))
    (fun _ s => (true, s))
    (fun _ s => (Ret tt, s))
    (fun s => (Ret tt, s))
    (fun _ s => (∅, s))
    (fun _ s => s).

(** The token dealer answers with [body], or cannot be reached. *)
Definition token_dealer (body : string) : string -> unit -> Outcome string * unit :=
  fun _ w => (Ret body, w).

Definition token_dealer_down : string -> unit -> Outcome string * unit :=
  fun _ w => (Throw "ECONNREFUSED", w).

(** A process with an old access key in its environment. *)
Definition stale_process : Proc (gmap string string * unit) :=
  mkProc ({[ "SAUCE_ACCESS_KEY" := "old" ]}, tt) None.

(** A Travis build on which the signal of the upload is rejected. *)
Definition signal_rejected : Env Z :=
  mkEnv Z
    (fun s => s) (fun s => s) (fun s => s) (fun s => s) (fun s => s)
    true "1234" "0123456789abcdef" false
    "0a1b2c3" "feature" "fedcba9876543210" "" "" "0011223344556677"
    (fun s => String.substring 0 7 s)
    (Some "secret")
    (fun cmd t => (0, t))
    (fun t => (t, t))
    (fun _ t => (true, t))
    (fun _ t => (Ret tt, t))
    (fun t => (Throw "rejected", t))
    (fun _ t => (∅, t))
    (fun _ t => t).

(** ** Timers left running

    The lines of [startTimer] and of [stopTimer], and the number of timers
    that a trace has started and not stopped. *)
Definition is_start (e : Event) : bool :=
  match e with
  | Log [_; word; _] => String.eqb word "Running"
  | _ => false
  end.

Definition is_stop (e : Event) : bool :=
  match e with
  | Log [_; word; _; total; _] =>
      String.eqb word "Done running" && String.eqb total "Total time:"
  | _ => false
  end.

Definition open_timers (t : list Event) : Z :=
  Z.of_nat (length (List.filter is_start t)) -
  Z.of_nat (length (List.filter is_stop t)).

(** [m] leaves [a] timers running when it returns and [b] when it ends the
    process. *)
Definition timed {Sys A} (m : M Sys A) (a b : Z) : Prop :=
  forall p,
    (returns (outcome (m p)) -> open_timers (emitted (m p)) = a) /\
    (forall st, outcome (m p) = Exit st -> open_timers (emitted (m p)) = b).

(** The copy to the bucket is refused, every other command passes. *)
Definition copy_fails : string -> Z :=
  fun cmd => if Js.startsWith cmd "gsutil " then 1 else 0.

Definition copy_refused : Env Z :=
  sample_env true "1234" false true "0a1b2c3" copy_fails 0.

(** A machine that holds a key decrypted before. *)
Definition keyed_machine : Machine :=
  mkMachine {[ "build-system/sa-travis-key.json.enc" := "secretsa-travis";
               "sa-travis-key.json" := "sa-travis" ]}
            ∅ ∅.

(** * Properties *)

(** ** Composition of runs *)

Section Scripts.
Context {Sys : Type} (env : Env Sys).

Lemma not_returns_exit {A} st : ¬ returns (@Exit A st).
Proof. intros [a Ha]. discriminate. Qed.

Lemma not_returns_throw {A} err : ¬ returns (@Throw A err).
Proof. intros [a Ha]. discriminate. Qed.

Lemma returns_tt : returns (Ret tt).
Proof. by exists tt. Qed.

Lemma possible_app_stop l1 l2 o t :
  possible l1 o t -> ¬ returns o -> possible (l1 ++ l2) o t.
Proof.
  induction 1; intros Hne; simpl; try (constructor; auto; fail).
  destruct Hne. apply returns_tt.
Qed.

Lemma possible_app l1 l2 o t1 t2 :
  possible l1 (Ret tt) t1 -> possible l2 o t2 ->
  possible (l1 ++ l2) o (t1 ++ t2).
Proof.
  intros H1. remember (Ret tt) as o1 eqn:Ho1. revert Ho1.
  induction H1 as [|a l o1 t Hp IH|c s l o1 t Hp IH|c l o1 t Hp IH|c s l Hs
                   |d l o1 t Hp IH|d l o1 Hr|l o1 t Hp IH|l o1 Hr];
    intros Ho1 H2; simpl; subst;
    try (constructor; auto; fail); try done.
  - destruct Hr. apply returns_tt.
  - destruct Hr. apply returns_tt.
Qed.

Lemma runs_ret : runs (Sys:=Sys) (ret tt) [].
Proof. intros p. constructor. Qed.

Lemma runs_seq (m k : M Sys unit) l1 l2 :
  runs m l1 -> runs k l2 -> runs (m ;; k) (l1 ++ l2).
Proof.
  intros Hm Hk p. specialize (Hm p). unfold bind.
  destruct (m p) as [[[]|st|err] q t]; simpl in *.
  - apply possible_app; [done | apply Hk].
  - apply possible_app_stop; [done | apply not_returns_exit].
  - apply possible_app_stop; [done | apply not_returns_throw].
Qed.

Lemma runs_execOrDie cmd : runs (execOrDie env cmd) [SExecOrDie cmd].
Proof.
  intros p. unfold execOrDie, exec, bind. simpl.
  destruct (shell env cmd (sys p)) as [st s]. simpl.
  destruct (Z.eqb_spec st 0) as [->|Hst]; simpl.
  - repeat constructor.
  - by constructor.
Qed.

Lemma runs_log args (k : M Sys unit) l :
  runs k l -> runs (console_log args ;; k) (SLog args :: l).
Proof. intros Hk p. unfold bind. simpl. constructor. apply Hk. Qed.

Lemma runs_exec cmd (k : M Sys unit) l :
  runs k l -> runs (exec env cmd ;; k) (SExec cmd :: l).
Proof.
  intros Hk p. unfold bind, exec. simpl.
  destruct (shell env cmd (sys p)) as [st s]. simpl.
  constructor. apply Hk.
Qed.

Lemma runs_die cmd (k : M Sys unit) l :
  runs k l -> runs (execOrDie env cmd ;; k) (SExecOrDie cmd :: l).
Proof. intros Hk. apply (runs_seq _ _ [_]); [apply runs_execOrDie | done]. Qed.

Lemma runs_replaceUrls dir (k : M Sys unit) l :
  runs k l -> runs (replaceUrls env dir ;; k) (SReplaceUrls dir :: l).
Proof.
  intros Hk p. unfold bind, replaceUrls. simpl.
  destruct (urlRewrite env dir (sys p)) as [[[]|st|err] s]; simpl.
  - constructor. apply Hk.
  - apply possible_unrewritten, not_returns_exit.
  - apply possible_unrewritten, not_returns_throw.
Qed.

Lemma runs_signal : runs (signalDistUploadComplete env) [SSignal].
Proof.
  intros p. unfold signalDistUploadComplete.
  destruct (distUploadSignal env (sys p)) as [[[]|st|err] s]; simpl.
  - repeat constructor.
  - apply possible_unsignalled, not_returns_exit.
  - apply possible_unsignalled, not_returns_throw.
Qed.

(** The pipeline functions run their scripts. *)

Lemma auth_runs :
  runs (Utils.authenticateWithStorageLocation_ env) (auth_steps env).
Proof.
  unfold Utils.authenticateWithStorageLocation_, Utils.decryptTravisKey_.
  do 5 apply runs_die. apply runs_execOrDie.
Qed.

Lemma upload_runs functionName outputFileName outputDirs :
  runs (Utils.uploadOutput_ env functionName outputFileName outputDirs)
       (upload_steps env functionName outputFileName outputDirs).
Proof.
  unfold Utils.uploadOutput_, upload_steps, pack_steps.
  apply runs_log, runs_exec, runs_die, runs_exec, runs_log, runs_exec.
  apply runs_seq; [apply auth_runs |].
  apply runs_die, runs_exec, runs_ret.
Qed.

Lemma download_runs functionName outputFileName outputDirs :
  runs (Utils.downloadOutput_ env functionName outputFileName outputDirs)
       (download_steps env functionName outputFileName outputDirs).
Proof.
  unfold Utils.downloadOutput_, download_steps.
  apply runs_log, runs_exec.
  apply runs_seq; [apply auth_runs |].
  apply runs_die, runs_exec, runs_log, runs_exec, runs_die, runs_exec,
    runs_log, runs_exec, runs_die, runs_exec, runs_ret.
Qed.

Lemma process_runs functionName :
  runs (Utils.processAndUploadDistOutput env functionName)
       (process_steps env functionName).
Proof.
  unfold Utils.processAndUploadDistOutput, process_steps.
  apply runs_replaceUrls, runs_replaceUrls.
  apply runs_seq; [apply upload_runs | apply runs_signal].
Qed.

End Scripts.

(** ** What every possible run of a script satisfies *)

Lemma commands_unstatus t : commands (map unstatus t) = commands t.
Proof.
  induction t as [|e t IH]; [done |].
  destruct e; simpl; unfold commands in *; simpl; by rewrite ?IH.
Qed.

Lemma commands_app t1 t2 : commands (t1 ++ t2) = commands t1 ++ commands t2.
Proof. apply omap_app. Qed.

Lemma commands_prefix t1 t2 :
  t1 `prefix_of` t2 -> commands t1 `prefix_of` commands t2.
Proof. intros [k ->]. rewrite commands_app. by eexists. Qed.

Lemma possible_prefix l o t :
  possible l o t -> map unstatus t `prefix_of` map step_event l.
Proof.
  induction 1; simpl;
    try (apply prefix_cons; first [done | apply prefix_nil]).
  apply prefix_nil.
Qed.

Lemma possible_complete l o t :
  possible l o t -> returns o -> map unstatus t = map step_event l.
Proof.
  induction 1; intros Hr; simpl; try (f_equal; auto; fail); try done.
  destruct (not_returns_exit _ Hr).
Qed.

Lemma possible_commands l o t :
  possible l o t -> commands t `prefix_of` step_commands l.
Proof.
  intros H. rewrite <- commands_unstatus.
  apply commands_prefix. by eapply possible_prefix.
Qed.

Lemma possible_commands_complete l o t :
  possible l o t -> returns o -> commands t = step_commands l.
Proof.
  intros H Hr. rewrite <- commands_unstatus.
  unfold step_commands. f_equal. by eapply possible_complete.
Qed.

(** A fatal command that fails is the last event of the run, and the process
    ends with its status. *)
Lemma possible_failure_last l o t :
  possible l o t ->
  forall pre cmd st post,
    t = pre ++ Spawn cmd st :: post -> st ≠ 0 -> SExec cmd ∉ l ->
    post = [] /\ o = Exit st.
Proof.
  induction 1 as [|a l o t Hp IH|c s l o t Hp IH|c l o t Hp IH|c s l Hs
                  |d l o t Hp IH|d l o Hr|l o t Hp IH|l o Hr];
    intros pre cmd st post Ht Hst Hnot;
    destruct pre as [|e pre]; simpl in Ht; inversion Ht; subst;
    try (apply (IH pre cmd st post);
         [done | done | by apply not_elem_of_cons in Hnot as [_ ?]]).
  - destruct Hnot. apply list_elem_of_here.
  - done.
  - done.
  - by destruct pre.
  - by destruct pre.
  - by destruct pre.
Qed.

Lemma possible_failure l o t cmd st :
  possible l o t -> Spawn cmd st ∈ t -> st ≠ 0 -> SExec cmd ∉ l ->
  o = Exit st /\ last t = Some (Spawn cmd st).
Proof.
  intros H Hin Hst Hnot.
  apply list_elem_of_split in Hin as (pre & post & ->).
  destruct (possible_failure_last _ _ _ H pre cmd st post) as [-> ->]; try done.
  split; [done | by rewrite last_snoc].
Qed.

(** In a run that goes on after a fatal command, the command succeeded. *)
Lemma possible_passed l o t pre cmd st post :
  possible l o t -> t = pre ++ Spawn cmd st :: post -> SExec cmd ∉ l ->
  post ≠ [] -> st = 0.
Proof.
  intros H Ht Hnot Hpost. destruct (decide (st = 0)) as [|Hst]; [done |].
  by destruct (possible_failure_last _ _ _ H pre cmd st post) as [? _].
Qed.


(** In a run that reaches the event [e], what was run before [e] passed. *)
Lemma possible_before_passed l o t pre e post :
  possible l o t -> t = pre ++ e :: post ->
  forall cmd st, Spawn cmd st ∈ pre -> SExec cmd ∉ l -> st = 0.
Proof.
  intros H -> cmd st Hin Hnot.
  apply list_elem_of_split in Hin as (a & b & ->).
  apply (possible_passed l o _ a cmd st (b ++ e :: post) H); [| done |].
  - by rewrite <- app_assoc.
  - by destruct b.
Qed.


(** A script of logs and commands ends by returning or by the exit of a
    failed fatal command. *)
Lemma possible_outcome l o t :
  possible l o t ->
  Forall (fun s => s ≠ SSignal /\ forall d, s ≠ SReplaceUrls d) l ->
  o = Ret tt \/ exists cmd st, st ≠ 0 /\ o = Exit st /\ SExecOrDie cmd ∈ l /\
                            last t = Some (Spawn cmd st).
Proof.
  assert (Hlast : forall (e x : Event) u, last u = Some x -> last (e :: u) = Some x).
  { intros e x [|y u]; [done | by simpl]. }
  induction 1 as [|a l o t Hp IH|c s l o t Hp IH|c l o t Hp IH|c s l Hs
                  |d l o t Hp IH|d l o Hr|l o t Hp IH|l o Hr];
    intros Hl; [by left | | | | | | | |];
    apply Forall_cons in Hl as [[Hsig Hrep] Hl].
  - destruct (IH Hl) as [->|(c & s & ? & ? & ? & ?)]; [by left |].
    right. exists c, s. repeat split;
      [done | done | by apply list_elem_of_further | by apply Hlast].
  - destruct (IH Hl) as [->|(c' & s' & ? & ? & ? & ?)]; [by left |].
    right. exists c', s'. repeat split;
      [done | done | by apply list_elem_of_further | by apply Hlast].
  - destruct (IH Hl) as [->|(c' & s' & ? & ? & ? & ?)]; [by left |].
    right. exists c', s'. repeat split;
      [done | done | by apply list_elem_of_further | by apply Hlast].
  - right. exists c, s. repeat split; [done | apply list_elem_of_here].
  - by destruct (Hrep d).
  - by destruct (Hrep d).
  - done.
  - done.
Qed.

(** ** Order of events in a trace *)

Lemma split_unique {A} (e : A) l1 l2 k1 k2 :
  e ∉ l1 -> e ∉ l2 -> l1 ++ e :: l2 = k1 ++ e :: k2 -> l1 = k1 /\ l2 = k2.
Proof.
  revert k1. induction l1 as [|a l1 IH]; intros [|b k1] H1 H2 Heq;
    simpl in Heq; inversion Heq; subst.
  - done.
  - destruct H2. apply elem_of_app. right. apply list_elem_of_here.
  - destruct H1. apply list_elem_of_here.
  - apply not_elem_of_cons in H1 as [_ H1].
    destruct (IH k1 H1 H2) as [-> ->]; done.
Qed.

(** A trace without failed commands is its own shape. *)
Lemma unstatus_passed t :
  (forall cmd st, Spawn cmd st ∈ t -> st = 0) -> map unstatus t = t.
Proof.
  induction t as [|e t IH]; intros H; [done |]. simpl. f_equal.
  - destruct e; try done. simpl. f_equal. symmetry.
    apply (H cmd). apply list_elem_of_here.
  - apply IH. intros c s Hin. apply (H c). by apply list_elem_of_further.
Qed.

Ltac not_in_list :=
  repeat (apply not_elem_of_cons; split; [simpl; discriminate |]);
  apply not_elem_of_nil.

Lemma step_event_fatal cmds : map step_event (map SExecOrDie cmds) = passed cmds.
Proof. induction cmds as [|c cmds IH]; [done |]. simpl. by rewrite IH. Qed.

Lemma unstatus_spawn x cmd : unstatus x = Spawn cmd 0 -> exists st, x = Spawn cmd st.
Proof. destruct x; simpl; intros H; inversion H; subst. by eexists. Qed.

(** Where [e] occurs once in the shape of the script, what a run did before
    [e] has the shape of the script before that point. *)
Lemma possible_split l o t pre e post L1 L2 :
  possible l o t -> t = pre ++ e :: post ->
  map step_event l = L1 ++ unstatus e :: L2 ->
  unstatus e ∉ L1 -> unstatus e ∉ L2 ->
  map unstatus pre = L1.
Proof.
  intros H -> HL H1 H2.
  destruct (possible_prefix _ _ _ H) as [k Hk].
  rewrite HL, map_app in Hk. simpl in Hk. rewrite <- app_assoc in Hk.
  simpl in Hk. by destruct (split_unique _ _ _ _ _ H1 H2 Hk).
Qed.

(** A block of fatal commands found before an event of the run has passed. *)
Lemma passed_block l o t pre e post A cmds :
  possible l o t -> t = pre ++ e :: post ->
  map unstatus pre = A ++ passed cmds ->
  (forall cmd, cmd ∈ cmds -> SExec cmd ∉ l) ->
  exists pre', pre = pre' ++ passed cmds /\ map unstatus pre' = A.
Proof.
  intros H Ht Hpre Hfatal.
  apply fmap_app_inv in Hpre as (pre' & blk & HA & Hblk & ->).
  exists pre'. split; [| done]. f_equal.
  rewrite Hblk. symmetry. apply unstatus_passed.
  intros cmd st Hin.
  apply (possible_before_passed _ _ _ _ _ _ H Ht cmd st).
  - apply elem_of_app. by right.
  - apply Hfatal.
    assert (Hc : Spawn cmd 0 ∈ passed cmds).
    { rewrite Hblk. apply list_elem_of_fmap. by exists (Spawn cmd st). }
    apply list_elem_of_fmap in Hc as (c & Hc & Hin'). by inversion Hc; subst.
Qed.

(** The first fatal command of a script is always run. *)
Lemma possible_first_fatal l1 cmd l2 o t :
  Forall (fun s => match s with SLog _ | SExec _ => True | _ => False end) l1 ->
  possible (l1 ++ SExecOrDie cmd :: l2) o t ->
  exists st, Spawn cmd st ∈ t.
Proof.
  intros Hl. revert o t.
  induction Hl as [|s l1 Hs Hl IH]; intros o t H; simpl in H.
  - inversion H; subst; eexists; apply list_elem_of_here.
  - destruct s; try done; inversion H as [|? ? ? t1 H1|? ? ? ? t1 H1| | | | | |];
      subst; destruct (IH _ _ H1) as [st' Hin]; exists st';
      by apply list_elem_of_further.
Qed.

(** ** The credential provisioner *)



(** ** Upload *)

Section Upload.
Context {Sys : Type} (env : Env Sys).

Lemma upload_fatal_only fn file dirs cmd :
  cmd ∈ ("zip -r " +:+ file +:+ " " +:+ dirs)
        :: ("gsutil -m cp -r " +:+ file +:+ " gs://amp-travis-builds")
        :: auth_commands env ->
  SExec cmd ∉ upload_steps env fn file dirs.
Proof.
  intros Hin. unfold auth_commands in Hin.
  repeat (apply elem_of_cons in Hin as [->|Hin]);
    [unfold upload_steps, pack_steps, auth_steps, auth_commands; simpl;
     not_in_list .. |].
  by apply elem_of_nil in Hin.
Qed.

(** The steps of [uploadOutput_]: pack, authenticate, copy. *)
Lemma upload_order fn file dirs (p : Proc Sys) :
  let r := Utils.uploadOutput_ env fn file dirs p in
  let zip := "zip -r " +:+ file +:+ " " +:+ dirs in
  let copy := "gsutil -m cp -r " +:+ file +:+ " gs://amp-travis-builds" in
  commands (emitted r) `prefix_of` upload_commands env file dirs /\
  (returns (outcome r) -> commands (emitted r) = upload_commands env file dirs) /\
  (forall pre st post,
     emitted r = pre ++ Spawn copy st :: post ->
     exists pre', pre = pre' ++ passed (auth_commands env) /\
                  Spawn zip 0 ∈ pre') /\
  (forall cmd st, cmd ∈ zip :: copy :: auth_commands env ->
     Spawn cmd st ∈ emitted r -> st ≠ 0 -> outcome r = Exit st).
Proof.
  intros r zip copy. pose proof (upload_runs env fn file dirs p) as H. fold r in H.
  split_and!.
  - apply (possible_commands _ _ _ H).
  - apply (possible_commands_complete _ _ _ H).
  - intros pre st post Ht.
    assert (Hpre : map unstatus pre =
                   map step_event (pack_steps env fn file dirs)
                   ++ passed (auth_commands env)).
    { apply (possible_split _ _ _ _ _ post _
               [Spawn "echo travis_fold:end:upload_results" 0] H Ht).
      - unfold upload_steps, auth_steps.
        by rewrite !map_app, step_event_fatal, <- app_assoc.
      - unfold pack_steps, auth_commands, passed. simpl. not_in_list.
      - simpl. not_in_list. }
    destruct (passed_block _ _ _ _ _ _ _ _ H Ht Hpre) as (pre' & -> & Hpack).
    { intros cmd Hin. apply upload_fatal_only. by do 2 apply list_elem_of_further. }
    exists pre'. split; [done |].
    assert (Hzip : Spawn zip 0 ∈ map unstatus pre').
    { rewrite Hpack. unfold pack_steps. simpl.
      do 2 apply list_elem_of_further. apply list_elem_of_here. }
    apply list_elem_of_fmap in Hzip as (x & Hx & Hin).
    symmetry in Hx. apply unstatus_spawn in Hx as [st' ->].
    replace 0 with st'; [done |].
    apply (possible_before_passed _ _ _ _ _ _ H Ht zip st').
    + apply elem_of_app. by left.
    + apply upload_fatal_only. apply list_elem_of_here.
  - intros cmd st Hin Hspawn Hst.
    apply (possible_failure _ _ _ cmd st H Hspawn Hst).
    by apply upload_fatal_only.
Qed.

End Upload.

(** ** Download *)

Section Download.
Context {Sys : Type} (env : Env Sys).

Lemma download_fatal_only fn file dirs cmd :
  cmd ∈ ("gsutil cp gs://amp-travis-builds/" +:+ file +:+ " " +:+ file)
        :: ("unzip -o " +:+ file)
        :: ("ls -laR " +:+ dirs)
        :: auth_commands env ->
  SExec cmd ∉ download_steps env fn file dirs.
Proof.
  intros Hin. unfold auth_commands in Hin.
  repeat (apply elem_of_cons in Hin as [->|Hin]);
    [unfold download_steps, auth_steps, auth_commands; simpl;
     not_in_list .. |].
  by apply elem_of_nil in Hin.
Qed.

(** The steps of [downloadOutput_]: authenticate, copy, extract, list. *)
Lemma download_order fn file dirs (p : Proc Sys) :
  let r := Utils.downloadOutput_ env fn file dirs p in
  let copy := "gsutil cp gs://amp-travis-builds/" +:+ file +:+ " " +:+ file in
  let extract := "unzip -o " +:+ file in
  let listing := "ls -laR " +:+ dirs in
  commands (emitted r) `prefix_of` download_commands env file dirs /\
  (returns (outcome r) -> commands (emitted r) = download_commands env file dirs) /\
  (forall cmd st, cmd ∈ copy :: extract :: listing :: auth_commands env ->
     Spawn cmd st ∈ emitted r -> st ≠ 0 ->
     outcome r = Exit st /\ last (emitted r) = Some (Spawn cmd st)) /\
  (outcome r = Ret tt \/ exists st, st ≠ 0 /\ outcome r = Exit st).
Proof.
  intros r copy extract listing.
  pose proof (download_runs env fn file dirs p) as H. fold r in H.
  split_and!.
  - apply (possible_commands _ _ _ H).
  - apply (possible_commands_complete _ _ _ H).
  - intros cmd st Hin Hspawn Hst.
    apply (possible_failure _ _ _ cmd st H Hspawn Hst).
    by apply download_fatal_only.
  - assert (Hl : Forall (fun s => s ≠ SSignal /\ forall d, s ≠ SReplaceUrls d)
                        (download_steps env fn file dirs)).
    { unfold download_steps, auth_steps, auth_commands. simpl.
      repeat (apply Forall_cons; split;
              [split; [discriminate | intros d; discriminate] |]).
      constructor. }
    destruct (possible_outcome _ _ _ H Hl) as [Ho|(c & st & Hst & Ho & _)].
    + by left.
    + right. by exists st.
Qed.

End Download.

(** ** Rewrite, upload, signal *)



Section Process.
Context {Sys : Type} (env : Env Sys).


End Process.



(** ** Outside the CI platform *)

Section NoArchiveName.
Context {Sys : Type} (env : Env Sys).

(** An upload always runs its packing command, and ends only by returning
    or on a command that failed. *)
Lemma upload_always_packs fn file dirs (p : Proc Sys) :
  let r := Utils.uploadOutput_ env fn file dirs p in
  (exists st, Spawn ("zip -r " +:+ file +:+ " " +:+ dirs) st ∈ emitted r) /\
  (outcome r = Ret tt \/
   exists cmd st, st ≠ 0 /\ outcome r = Exit st /\
                  last (emitted r) = Some (Spawn cmd st)).
Proof.
  intros r. pose proof (upload_runs env fn file dirs p) as H. fold r in H.
  split.
  - apply (possible_first_fatal (take 2 (upload_steps env fn file dirs)) _
             (drop 3 (upload_steps env fn file dirs)) (outcome r)); [| exact H].
    simpl. by repeat constructor.
  - assert (Hl : Forall (fun s => s ≠ SSignal /\ forall d, s ≠ SReplaceUrls d)
                        (upload_steps env fn file dirs)).
    { unfold upload_steps, pack_steps, auth_steps, auth_commands. simpl.
      repeat (apply Forall_cons; split;
              [split; [discriminate | intros d; discriminate] |]).
      constructor. }
    destruct (possible_outcome _ _ _ H Hl) as [Ho|(c & st & Hst & Ho & _ & Hlast)].
    + by left.
    + right. by exists c, st.
Qed.

(** A download always starts with the decryption of the key, and ends only
    by returning or on a command that failed. *)
Lemma download_always_starts fn file dirs (p : Proc Sys) :
  let r := Utils.downloadOutput_ env fn file dirs p in
  (exists st,
     Spawn ("openssl aes-256-cbc -md sha256 -k " +:+ Js.template (GCP_TOKEN env) +:+
            " -in build-system/sa-travis-key.json.enc -out sa-travis-key.json -d")
           st ∈ emitted r) /\
  (outcome r = Ret tt \/
   exists cmd st, st ≠ 0 /\ outcome r = Exit st /\
                  last (emitted r) = Some (Spawn cmd st)).
Proof.
  intros r. pose proof (download_runs env fn file dirs p) as H. fold r in H.
  split.
  - apply (possible_first_fatal (take 2 (download_steps env fn file dirs)) _
             (drop 3 (download_steps env fn file dirs)) (outcome r)); [| exact H].
    simpl. by repeat constructor.
  - assert (Hl : Forall (fun s => s ≠ SSignal /\ forall d, s ≠ SReplaceUrls d)
                        (download_steps env fn file dirs)).
    { unfold download_steps, auth_steps, auth_commands. simpl.
      repeat (apply Forall_cons; split;
              [split; [discriminate | intros d; discriminate] |]).
      constructor. }
    destruct (possible_outcome _ _ _ H Hl) as [Ho|(c & st & Hst & Ho & _ & Hlast)].
    + by left.
    + right. by exists c, st.
Qed.

End NoArchiveName.

(** C9.  When [isTravisBuild()] is false, [BUILD_OUTPUT_FILE] and
    [DIST_OUTPUT_FILE] are the empty string, and no entry point checks for
    it.  An upload always runs its packing command with the empty name,
    [zip -r  DIRS], and its copy command is [gsutil -m cp -r  gs://amp-travis-builds];
    a download always starts its authentication, its copy command is
    [gsutil cp gs://amp-travis-builds/ ] and it extracts with [unzip -o ].
    The commands of a run are the first ones of these lists up to a failure,
    all of them when the run returns, and a run ends early only on a command
    that failed. *)
Theorem empty_archive_name_outside_travis {Sys} (env : Env Sys) (fn : string)
    (p : Proc Sys) :
  isTravisBuild env = false ->
  Utils.BUILD_OUTPUT_FILE env = "" /\
  Utils.DIST_OUTPUT_FILE env = "" /\
  (forall m dirs,
     (m, dirs) ∈ [(Utils.uploadBuildOutput env fn, Utils.BUILD_OUTPUT_DIRS);
                  (Utils.uploadDistOutput env fn, Utils.DIST_OUTPUT_DIRS)] ->
     let r := m p in
     let cmds :=
       ["echo travis_fold:start:zip_results && echo";
        "zip -r  " +:+ dirs;
        "echo travis_fold:end:zip_results";
        "echo travis_fold:start:upload_results && echo"]
       ++ auth_commands env
       ++ ["gsutil -m cp -r  gs://amp-travis-builds";
           "echo travis_fold:end:upload_results"] in
     commands (emitted r) `prefix_of` cmds /\
     (returns (outcome r) -> commands (emitted r) = cmds) /\
     (exists st, Spawn ("zip -r  " +:+ dirs) st ∈ emitted r) /\
     (outcome r = Ret tt \/
      exists cmd st, st ≠ 0 /\ outcome r = Exit st /\
                     last (emitted r) = Some (Spawn cmd st))) /\
  (forall m dirs,
     (m, dirs) ∈ [(Utils.downloadBuildOutput env fn, Utils.BUILD_OUTPUT_DIRS);
                  (Utils.downloadDistOutput env fn, Utils.DIST_OUTPUT_DIRS)] ->
     let r := m p in
     let cmds :=
       ["echo travis_fold:start:download_results && echo"]
       ++ auth_commands env
       ++ ["gsutil cp gs://amp-travis-builds/ ";
           "echo travis_fold:end:download_results";
           "echo travis_fold:start:unzip_results && echo";
           "unzip -o ";
           "echo travis_fold:end:unzip_results";
           "echo travis_fold:start:verify_unzip_results && echo";
           "ls -laR " +:+ dirs;
           "echo travis_fold:end:verify_unzip_results"] in
     commands (emitted r) `prefix_of` cmds /\
     (returns (outcome r) -> commands (emitted r) = cmds) /\
     commands (emitted r) ≠ [] /\
     (outcome r = Ret tt \/
      exists cmd st, st ≠ 0 /\ outcome r = Exit st /\
                     last (emitted r) = Some (Spawn cmd st))).
Proof.
  intros Htravis.
  assert (Hb : Utils.BUILD_OUTPUT_FILE env = "")
    by (unfold Utils.BUILD_OUTPUT_FILE; by rewrite Htravis).
  assert (Hd : Utils.DIST_OUTPUT_FILE env = "")
    by (unfold Utils.DIST_OUTPUT_FILE; by rewrite Htravis).
  split_and!; [done | done | |].
  - intros m dirs Hin.
    assert (Hm : m = Utils.uploadOutput_ env fn "" dirs).
    { apply elem_of_cons in Hin as [Hin|Hin];
        [| apply elem_of_cons in Hin as [Hin|Hin];
           [| by apply elem_of_nil in Hin]];
        inversion Hin; subst;
        unfold Utils.uploadBuildOutput, Utils.uploadDistOutput;
        by rewrite ?Hb, ?Hd. }
    subst m. intros r cmds.
    destruct (upload_order env fn "" dirs p) as (H1 & H2 & _).
    destruct (upload_always_packs env fn "" dirs p) as (H3 & H4).
    split_and!; done.
  - intros m dirs Hin.
    assert (Hm : m = Utils.downloadOutput_ env fn "" dirs).
    { apply elem_of_cons in Hin as [Hin|Hin];
        [| apply elem_of_cons in Hin as [Hin|Hin];
           [| by apply elem_of_nil in Hin]];
        inversion Hin; subst;
        unfold Utils.downloadBuildOutput, Utils.downloadDistOutput;
        by rewrite ?Hb, ?Hd. }
    subst m. intros r cmds.
    destruct (download_order env fn "" dirs p) as (H1 & H2 & _).
    destruct (download_always_starts env fn "" dirs p) as ([st H3] & H4).
    split_and!; try done.
    intros Hnil. apply list_elem_of_split in H3 as (a & b & H3).
    fold r in H3. rewrite H3, commands_app in Hnil.
    apply app_eq_nil in Hnil as [_ Hnil]. discriminate.
Qed.

(** ** The timer *)

Lemma startTimer_run {Sys} (env : Env Sys) fn file (p : Proc Sys) :
  Utils.startTimer env fn file p =
  mkRun (Ret (clock env (sys p)).1)
        (mkProc (clock env (sys p)).2 (exitCode p))
        [DateNow (clock env (sys p)).1;
         Log [Utils.nl +:+ bold env (yellow env (file +:+ ":"));
              "Running"; cyan env fn +:+ "..."]].
Proof.
  unfold Utils.startTimer, bind, Date_now, console_log, emit, ret.
  by destruct (clock env (sys p)).
Qed.

Lemma stopTimer_run {Sys} (env : Env Sys) fn file start (p : Proc Sys) :
  Utils.stopTimer env fn file start p =
  mkRun (Ret tt)
        (mkProc (clock env (sys p)).2 (exitCode p))
        [DateNow (clock env (sys p)).1;
         Log [bold env (yellow env (file +:+ ":"));
              "Done running"; cyan env fn; "Total time:";
              green env (Utils.elapsed_text ((clock env (sys p)).1 - start))]].
Proof.
  unfold Utils.stopTimer, bind, Date_now, console_log, emit.
  by destruct (clock env (sys p)).
Qed.

(** C7.  [startTimer] returns the reading of the clock at its call.  For
    every start time and every later state of the process, [stopTimer]
    reads the clock and prints one line that ends with the elapsed time as
    [<mins>m <secs>s], where the elapsed time is the difference of the two
    readings in milliseconds, the minutes are [floor(elapsed / 60000)] and
    the seconds are [floor((elapsed % 60000) / 1000)].  The remainder is
    the one of JavaScript; for an elapsed time that is not negative it is
    the modulus.  An elapsed time of 0 ms prints [0m 0s], one of 61 seconds
    [1m 1s]. *)
Theorem timer_prints_minutes_and_seconds {Sys} (env : Env Sys)
    (fn file : string) (p q : Proc Sys) :
  let t0 := (clock env (sys p)).1 in
  let t1 := (clock env (sys q)).1 in
  let elapsedMs := t1 - t0 in
  outcome (Utils.startTimer env fn file p) = Ret t0 /\
  exists printed,
    emitted (Utils.stopTimer env fn file t0 q) =
      [DateNow t1;
       Log [bold env (yellow env (file +:+ ":"));
            "Done running"; cyan env fn; "Total time:"; green env printed]] /\
    printed = pretty (elapsedMs `div` 60000) +:+ "m " +:+
              pretty ((elapsedMs `rem` 60000) `div` 1000) +:+ "s" /\
    (0 <= elapsedMs ->
     printed = pretty (elapsedMs `div` 60000) +:+ "m " +:+
               pretty ((elapsedMs `mod` 60000) `div` 1000) +:+ "s") /\
    (elapsedMs = 0 -> printed = "0m 0s") /\
    (elapsedMs = 61000 -> printed = "1m 1s").
Proof.
  intros t0 t1 elapsedMs. split; [by rewrite startTimer_run |].
  exists (Utils.elapsed_text elapsedMs). split_and!.
  - by rewrite stopTimer_run.
  - reflexivity.
  - intros Hpos.
    unfold Utils.elapsed_text, Js.floor_div, Js.remainder, Js.of_number.
    by rewrite Z.rem_mod_nonneg by lia.
  - by intros ->.
  - by intros ->.
Qed.

(** ** The branch creation point and the checks job *)

Lemma verifyBranchCreationPoint_run {Sys} (env : Env Sys) fileName (p : Proc Sys) :
  Utils.verifyBranchCreationPoint env fileName p =
  if Js.truthy (gitBranchCreationPoint env)
  then mkRun (Ret true) p []
  else mkRun (Ret false) p
         [LogError [bold env (yellow env (fileName +:+ ":"));
                    red env "ERROR:";
                    "Could not find a common ancestor for";
                    cyan env (gitBranchName env);
                    "and";
                    cyan env "master" +:+ ". Was this PR branch properly forked?"];
          LogError [bold env (yellow env (fileName +:+ ":"));
                    yellow env "NOTE:";
                    "To fix this, rebase your branch on";
                    cyan env "master" +:+
                      ", or recreate it by following the instructions at";
                    cyan env Utils.GIT_BRANCH_URL +:+ "."]].
Proof.
  unfold Utils.verifyBranchCreationPoint.
  by destruct (Js.truthy (gitBranchCreationPoint env)).
Qed.

Lemma runYarnChecks_run {Sys} (env : Env Sys) fileName (p : Proc Sys) :
  runYarnChecks env fileName p =
  mkRun (Ret (yarnChecks env fileName (sys p)).1)
        (mkProc (yarnChecks env fileName (sys p)).2 (exitCode p))
        [YarnChecks fileName (yarnChecks env fileName (sys p)).1].
Proof. unfold runYarnChecks. by destruct (yarnChecks env fileName (sys p)). Qed.

Lemma bind_ret_to {Sys A B} (m : M Sys A) (k : A -> M Sys B) p a q t o q' t' :
  m p = mkRun (Ret a) q t -> k a q = mkRun o q' t' ->
  bind m k p = mkRun o q' (t ++ t').
Proof. intros Hm Hk. unfold bind. rewrite Hm. simpl. by rewrite Hk. Qed.

(** [main] when [runYarnChecks] returns false. *)
Lemma main_yarn_failure {Sys} (env : Env Sys) (p : Proc Sys) :
  let t0 := (clock env (sys p)).1 in
  let yarn := yarnChecks env "checks.js" (clock env (sys p)).2 in
  let t1 := (clock env yarn.2).1 in
  let started :=
    [DateNow t0;
     Log [Utils.nl +:+ bold env (yellow env "checks.js:");
          "Running"; cyan env "checks.js" +:+ "..."]] in
  let stopped :=
    [DateNow t1;
     Log [bold env (yellow env "checks.js:");
          "Done running"; cyan env "checks.js"; "Total time:";
          green env (Utils.elapsed_text (t1 - t0))]] in
  yarn.1 = false ->
  Checks.main env p =
  mkRun (Ret tt) (mkProc (clock env yarn.2).2 (Some 1))
        (started ++ [YarnChecks "checks.js" false] ++ stopped).
Proof.
  intros t0 yarn t1 started stopped Hyarn.
  unfold Checks.main, Checks.FILENAME.
  eapply bind_ret_to; [apply startTimer_run |].
  replace (YarnChecks "checks.js" false) with (YarnChecks "checks.js" yarn.1)
    by (by rewrite Hyarn).
  eapply bind_ret_to; [apply runYarnChecks_run |].
  cbv beta. cbn [sys exitCode]. fold yarn. rewrite Hyarn. cbn [negb].
  rewrite <- (app_nil_r stopped).
  eapply bind_ret_to; [apply stopTimer_run | reflexivity].
Qed.

(** [main] on a pull-request build whose branch has no creation point. *)
Lemma main_branch_failure {Sys} (env : Env Sys) (p : Proc Sys) :
  let t0 := (clock env (sys p)).1 in
  let yarn := yarnChecks env "checks.js" (clock env (sys p)).2 in
  let t1 := (clock env yarn.2).1 in
  let started :=
    [DateNow t0;
     Log [Utils.nl +:+ bold env (yellow env "checks.js:");
          "Running"; cyan env "checks.js" +:+ "..."]] in
  let stopped :=
    [DateNow t1;
     Log [bold env (yellow env "checks.js:");
          "Done running"; cyan env "checks.js"; "Total time:";
          green env (Utils.elapsed_text (t1 - t0))]] in
  yarn.1 = true ->
  isTravisPullRequestBuild env = true ->
  Js.truthy (gitBranchCreationPoint env) = false ->
  Checks.main env p =
  mkRun (Ret tt) (mkProc (clock env yarn.2).2 (Some 1))
        (started ++ [YarnChecks "checks.js" true]
         ++ emitted (Utils.verifyBranchCreationPoint env "checks.js" p)
         ++ stopped).
Proof.
  intros t0 yarn t1 started stopped Hyarn Hpr Hfalsy.
  unfold Checks.main, Checks.FILENAME.
  eapply bind_ret_to; [apply startTimer_run |].
  replace (YarnChecks "checks.js" true) with (YarnChecks "checks.js" yarn.1)
    by (by rewrite Hyarn).
  eapply bind_ret_to; [apply runYarnChecks_run |].
  cbv beta. cbn [sys exitCode]. fold yarn. rewrite Hyarn, Hpr. cbn [negb].
  rewrite (verifyBranchCreationPoint_run env "checks.js" p), Hfalsy.
  cbn [emitted].
  eapply bind_ret_to.
  { rewrite verifyBranchCreationPoint_run, Hfalsy. reflexivity. }
  cbn [negb].
  rewrite <- (app_nil_r stopped).
  eapply bind_ret_to; [apply stopTimer_run | reflexivity].
Qed.

(** C8.  When no common ancestor is found ([gitBranchCreationPoint()] is
    falsy), [verifyBranchCreationPoint] prints two lines of remediation
    guidance on the error stream and returns false: the process does not
    exit and its state is unchanged.  When an ancestor is found it returns
    true and prints nothing.  Its caller [main], on a pull-request build
    whose yarn checks passed, turns the false into [process.exitCode = 1]
    and returns. *)
Theorem missing_branch_point_is_reported_not_fatal {Sys} (env : Env Sys)
    (fileName : string) (p : Proc Sys) :
  let r := Utils.verifyBranchCreationPoint env fileName p in
  (Js.truthy (gitBranchCreationPoint env) = false ->
   outcome r = Ret false /\ final r = p /\
   emitted r =
     [LogError [bold env (yellow env (fileName +:+ ":"));
                red env "ERROR:";
                "Could not find a common ancestor for";
                cyan env (gitBranchName env);
                "and";
                cyan env "master" +:+ ". Was this PR branch properly forked?"];
      LogError [bold env (yellow env (fileName +:+ ":"));
                yellow env "NOTE:";
                "To fix this, rebase your branch on";
                cyan env "master" +:+
                  ", or recreate it by following the instructions at";
                cyan env "https://github.com/ampproject/amphtml/blob/master/contributing/getting-started-e2e.md#create-a-git-branch"
                  +:+ "."]]) /\
  (Js.truthy (gitBranchCreationPoint env) = true ->
   outcome r = Ret true /\ final r = p /\ emitted r = []) /\
  (Js.truthy (gitBranchCreationPoint env) = false ->
   isTravisPullRequestBuild env = true ->
   (yarnChecks env "checks.js" (clock env (sys p)).2).1 = true ->
   let c := Checks.main env p in
   outcome c = Ret tt /\ exitCode (final c) = Some 1 /\
   exitCode (final c) ≠ Some 0 /\ exitCode (final c) ≠ None).
Proof.
  intros r. unfold r. rewrite verifyBranchCreationPoint_run. split_and!.
  - by intros ->.
  - by intros ->.
  - intros Hfalsy Hpr Hyarn. cbv zeta.
    by rewrite (main_branch_failure env p Hyarn Hpr Hfalsy).
Qed.

(** C10.  On the two early-failure paths of [main] in [checks.js], when
    [runYarnChecks] returns false, and when it returns true on a
    pull-request build and [verifyBranchCreationPoint] returns false, the
    trace of the run is: the start of the timer, the yarn checks (then the
    guidance of [verifyBranchCreationPoint]), and one stop of the timer,
    whose elapsed time is counted from the clock reading of the start.
    [main] then returns with [process.exitCode] set to 1, and no child
    process, so no gulp command, was run. *)
Theorem checks_early_failure {Sys} (env : Env Sys) (p : Proc Sys) :
  let t0 := (clock env (sys p)).1 in
  let yarn := yarnChecks env "checks.js" (clock env (sys p)).2 in
  let t1 := (clock env yarn.2).1 in
  let started :=
    [DateNow t0;
     Log [Utils.nl +:+ bold env (yellow env "checks.js:");
          "Running"; cyan env "checks.js" +:+ "..."]] in
  let stopped :=
    [DateNow t1;
     Log [bold env (yellow env "checks.js:");
          "Done running"; cyan env "checks.js"; "Total time:";
          green env (Utils.elapsed_text (t1 - t0))]] in
  let r := Checks.main env p in
  (yarn.1 = false ->
   outcome r = Ret tt /\
   exitCode (final r) = Some 1 /\
   emitted r = started ++ [YarnChecks "checks.js" false] ++ stopped /\
   commands (emitted r) = []) /\
  (yarn.1 = true ->
   isTravisPullRequestBuild env = true ->
   Js.truthy (gitBranchCreationPoint env) = false ->
   outcome r = Ret tt /\
   exitCode (final r) = Some 1 /\
   emitted r = started ++ [YarnChecks "checks.js" true]
               ++ emitted (Utils.verifyBranchCreationPoint env "checks.js" p)
               ++ stopped /\
   commands (emitted r) = []).
Proof.
  intros t0 yarn t1 started stopped r. split.
  - intros Hyarn. unfold r. by rewrite (main_yarn_failure env p Hyarn).
  - intros Hyarn Hpr Hfalsy. unfold r.
    rewrite (main_branch_failure env p Hyarn Hpr Hfalsy).
    rewrite verifyBranchCreationPoint_run, Hfalsy. done.
Qed.

(** ** The archive names *)

Lemma prefix_app s t : String.prefix s (s +:+ t) = true.
Proof.
  induction s as [|c s IH]; simpl; [by destruct t |].
  by destruct (ascii_dec c c).
Qed.

Lemma includes_prefix s t : String.prefix t s = true -> Js.includes s t = true.
Proof. intros H. destruct s; simpl in *; by rewrite H. Qed.

Lemma includes_cons c s t :
  Js.includes (String c s) t =
  if String.prefix t (String c s) then true else Js.includes s t.
Proof. reflexivity. Qed.

Lemma includes_app a s b : Js.includes (a +:+ s +:+ b) s = true.
Proof.
  induction a as [|c a IH].
  - apply includes_prefix. change (String.prefix s (s +:+ b) = true).
    apply prefix_app.
  - change (String c a +:+ s +:+ b) with (String c (a +:+ s +:+ b)).
    rewrite includes_cons, IH.
    by destruct (String.prefix s (String c (a +:+ s +:+ b))).
Qed.

Lemma substring_whole s : String.substring 0 (String.length s) s = s.
Proof. induction s as [|c s IH]; [done |]. simpl. by rewrite IH. Qed.

Lemma substring_drop pat rest :
  String.substring (String.length pat)
    (String.length (pat +:+ rest) - String.length pat) (pat +:+ rest) = rest.
Proof.
  induction pat as [|c pat IH].
  - change ("" +:+ rest) with rest. cbn [String.length].
    by rewrite Nat.sub_0_r, substring_whole.
  - change (String c pat +:+ rest) with (String c (pat +:+ rest)).
    cbn [String.length String.substring Nat.sub]. apply IH.
Qed.

Lemma replace_prefix s pat by_ :
  String.prefix pat s = true ->
  Js.replace s pat by_ =
  by_ +:+ String.substring (String.length pat)
            (String.length s - String.length pat) s.
Proof. intros H. destruct s; cbn [Js.replace]; by rewrite H. Qed.

Lemma replace_hit pat rest by_ : Js.replace (pat +:+ rest) pat by_ = by_ +:+ rest.
Proof. rewrite replace_prefix by apply prefix_app. by rewrite substring_drop. Qed.

Lemma replace_skip c d pat s by_ :
  c ≠ d ->
  Js.replace (String d s) (String c pat) by_ =
  String d (Js.replace s (String c pat) by_).
Proof.
  intros Hne. cbn [Js.replace String.prefix].
  by destruct (ascii_dec c d).
Qed.

Lemma replaceAll_go_skip fuel c d pat s by_ :
  c ≠ d ->
  Js.replaceAll_go (S fuel) (String d s) (String c pat) by_ =
  String d (Js.replaceAll_go fuel s (String c pat) by_).
Proof.
  intros Hne. cbn [Js.replaceAll_go String.prefix].
  by destruct (ascii_dec c d).
Qed.

Lemma replaceAll_go_hit fuel pat rest by_ :
  Js.replaceAll_go (S fuel) (pat +:+ rest) pat by_ =
  by_ +:+ Js.replaceAll_go fuel rest pat by_.
Proof.
  cbn [Js.replaceAll_go]. rewrite prefix_app. by rewrite substring_drop.
Qed.

Lemma digit_not_underscore d : Js.isDigit d = true -> "_"%char ≠ d.
Proof. intros H Heq. subst d. discriminate. Qed.

(** A run-id of digits, followed by [.zip], has no [_dist_] to replace. *)
Lemma replaceAll_go_digits fuel R by_ :
  Js.isDigits R = true ->
  Js.replaceAll_go fuel (R +:+ ".zip") "_dist_" by_ = R +:+ ".zip".
Proof.
  revert fuel. induction R as [|d R IH]; intros fuel Hd.
  - do 5 (destruct fuel as [|fuel]; [reflexivity |]). reflexivity.
  - destruct fuel as [|fuel]; [reflexivity |].
    cbn [Js.isDigits] in Hd. apply andb_prop in Hd as [Hd HR].
    change (String d R +:+ ".zip") with (String d (R +:+ ".zip")).
    rewrite replaceAll_go_skip by by apply digit_not_underscore.
    by rewrite IH.
Qed.

(** C6.  On a Travis build with run-id [R], the Build archive is named
    [amp_build_<R>.zip] and the Dist archive [amp_dist_<R>.zip]: the prefix
    is [amp]; the Build name is the Dist name with [_build_] put in the
    place of the first [_dist_], and of every [_dist_] when [R] is a number
    in decimal digits; both names contain [R]; and for [R = "1234"] the
    Build name is [amp_build_1234.zip]. *)
Theorem archive_names {Sys} (env : Env Sys) :
  isTravisBuild env = true ->
  let R := travisBuildNumber env in
  Utils.BUILD_OUTPUT_FILE env = "amp" +:+ "_build_" +:+ R +:+ ".zip" /\
  Utils.DIST_OUTPUT_FILE env = "amp" +:+ "_dist_" +:+ R +:+ ".zip" /\
  Utils.BUILD_OUTPUT_FILE env =
    Js.replace (Utils.DIST_OUTPUT_FILE env) "_dist_" "_build_" /\
  (Js.isDigits R = true ->
   Utils.BUILD_OUTPUT_FILE env =
     Js.replaceAll (Utils.DIST_OUTPUT_FILE env) "_dist_" "_build_") /\
  Js.includes (Utils.BUILD_OUTPUT_FILE env) R = true /\
  Js.includes (Utils.DIST_OUTPUT_FILE env) R = true /\
  (R = "1234" -> Utils.BUILD_OUTPUT_FILE env = "amp_build_1234.zip").
Proof.
  intros Htravis R.
  unfold Utils.BUILD_OUTPUT_FILE, Utils.DIST_OUTPUT_FILE. rewrite Htravis.
  fold R. split_and!.
  - reflexivity.
  - reflexivity.
  - change ("amp_dist_" +:+ R +:+ ".zip")
      with (String "a" (String "m" (String "p" ("_dist_" +:+ R +:+ ".zip")))).
    rewrite !replace_skip by discriminate. by rewrite replace_hit.
  - intros HR. unfold Js.replaceAll.
    change ("amp_dist_" +:+ R +:+ ".zip")
      with (String "a" (String "m" (String "p" ("_dist_" +:+ R +:+ ".zip")))).
    cbn [String.length].
    rewrite !replaceAll_go_skip by discriminate.
    change (String.length ("_dist_" +:+ R +:+ ".zip"))
      with (S (String.length ("dist_" +:+ R +:+ ".zip"))).
    rewrite replaceAll_go_hit. by rewrite replaceAll_go_digits.
  - apply (includes_app "amp_build_" R ".zip").
  - apply (includes_app "amp_dist_" R ".zip").
  - by intros ->.
Qed.

(** ** Authentication twice *)

Lemma words_go_app_space cur s rest :
  String.words_go cur (s +:+ String " " rest) =
  String.words_go cur s ++ String.words_go None rest.
Proof.
  revert cur. induction s as [|a s IH]; intros cur.
  - reflexivity.
  - change (String a s +:+ String " " rest)
      with (String a (s +:+ String " " rest)).
    cbn [String.words_go]. destruct (Ascii.is_space a).
    + by rewrite IH, app_assoc.
    + apply IH.
Qed.

(** The words of the decryption command: the token in the middle counts for
    the words it is made of. *)
Lemma words_decrypt token :
  String.words
    ("openssl aes-256-cbc -md sha256 -k " +:+ token +:+
     " -in build-system/sa-travis-key.json.enc -out sa-travis-key.json -d") =
  ["openssl"; "aes-256-cbc"; "-md"; "sha256"; "-k"]
  ++ String.words token
  ++ ["-in"; "build-system/sa-travis-key.json.enc"; "-out";
      "sa-travis-key.json"; "-d"].
Proof.
  unfold String.words.
  change ("openssl aes-256-cbc -md sha256 -k " +:+ token +:+
          " -in build-system/sa-travis-key.json.enc -out sa-travis-key.json -d")
    with ("openssl aes-256-cbc -md sha256 -k" +:+
          String " " (token +:+
          String " " "-in build-system/sa-travis-key.json.enc -out sa-travis-key.json -d")).
  by rewrite !words_go_app_space.
Qed.

Lemma execOrDie_pass {Sys} (env : Env Sys) cmd (p : Proc Sys) s :
  shell env cmd (sys p) = (0, s) ->
  execOrDie env cmd p = mkRun (Ret tt) (mkProc s (exitCode p)) [Spawn cmd 0].
Proof. intros H. unfold execOrDie, bind, exec. by rewrite H. Qed.

Lemma execOrDie_fail {Sys} (env : Env Sys) cmd (p : Proc Sys) st s :
  shell env cmd (sys p) = (st, s) -> st ≠ 0 ->
  execOrDie env cmd p = mkRun (Exit st) (mkProc s (exitCode p)) [Spawn cmd st].
Proof.
  intros H Hst. unfold execOrDie, bind, exec. rewrite H. simpl.
  by destruct (Z.eqb_spec st 0).
Qed.

Lemma execOrDie_pass_at {Sys} (env : Env Sys) cmd m e s :
  shell env cmd m = (0, s) ->
  execOrDie env cmd (mkProc m e) = mkRun (Ret tt) (mkProc s e) [Spawn cmd 0].
Proof. apply (execOrDie_pass env cmd (mkProc m e)). Qed.

Lemma execOrDie_fail_at {Sys} (env : Env Sys) cmd m e st s :
  shell env cmd m = (st, s) -> st ≠ 0 ->
  execOrDie env cmd (mkProc m e) = mkRun (Exit st) (mkProc s e) [Spawn cmd st].
Proof. apply (execOrDie_fail env cmd (mkProc m e)). Qed.

Lemma bind_exit_to {Sys A B} (m : M Sys A) (k : A -> M Sys B) p st q t :
  m p = mkRun (Exit st) q t -> bind m k p = mkRun (Exit st) q t.
Proof. intros Hm. unfold bind. by rewrite Hm. Qed.

Lemma proc_eta {Sys} (p : Proc Sys) : mkProc (sys p) (exitCode p) = p.
Proof. by destruct p. Qed.

Lemma provisioned_idem account plain m :
  provisioned account plain (provisioned account plain m) =
  provisioned account plain m.
Proof.
  unfold provisioned, set_property, activate, write_file. simpl. f_equal.
  - apply insert_insert_eq.
  - by rewrite (assoc_L (∪)), (idemp_L (∪)).
  - apply map_eq. intros i. rewrite !lookup_insert.
    repeat case_decide; done.
Qed.

Section Idempotence.
Context (T : Tools) (env : Env Machine).
Hypothesis Hshell : forall cmd m, shell env cmd m = tools_shell T cmd m.

Lemma decrypt_step m :
  tools_shell T
    ("openssl aes-256-cbc -md sha256 -k " +:+ Js.template (GCP_TOKEN env) +:+
     " -in build-system/sa-travis-key.json.enc -out sa-travis-key.json -d") m =
  match String.words (Js.template (GCP_TOKEN env)) with
  | [key] =>
      match files m !! "build-system/sa-travis-key.json.enc" with
      | Some enc =>
          match decrypt T key enc with
          | Some plain => (0, write_file "sa-travis-key.json" plain m)
          | None =>
              (1, write_file "sa-travis-key.json" (residue T key enc) m)
          end
      | None => (1, m)
      end
  | _ => (1, m)
  end.
Proof.
  unfold tools_shell. rewrite words_decrypt.
  destruct (String.words (Js.template (GCP_TOKEN env))) as [|key [|k2 l]].
  - reflexivity.
  - reflexivity.
  - destruct l as [|? [|? [|? [|? [|? ?]]]]]; reflexivity.
Qed.

Lemma activate_step m :
  tools_shell T
    "gcloud auth activate-service-account --key-file sa-travis-key.json" m =
  match files m !! "sa-travis-key.json" with
  | Some key =>
      match client_email T key with
      | Some account => (0, activate account m)
      | None => (1, m)
      end
  | None => (1, m)
  end.
Proof. reflexivity. Qed.

Lemma set_account_step m :
  tools_shell T
    "gcloud config set account sa-travis@amp-travis-build-storage.iam.gserviceaccount.com"
    m =
  (0, set_property "account"
        "sa-travis@amp-travis-build-storage.iam.gserviceaccount.com" m).
Proof. reflexivity. Qed.

Lemma set_pass_step m :
  tools_shell T "gcloud config set pass_credentials_to_gsutil true" m =
  (0, set_property "pass_credentials_to_gsutil" "true" m).
Proof. reflexivity. Qed.

Lemma set_project_step m :
  tools_shell T "gcloud config set project amp-travis-build-storage" m =
  (0, set_property "project" "amp-travis-build-storage" m).
Proof. reflexivity. Qed.

Lemma list_step m : tools_shell T "gcloud config list" m = (0, m).
Proof. reflexivity. Qed.

(** What an authentication does on the modelled tools. *)
Lemma auth_tools_run (p : Proc Machine) :
  exists t,
    Utils.authenticateWithStorageLocation_ env p =
    match String.words (Js.template (GCP_TOKEN env)) with
    | [key] =>
        match files (sys p) !! "build-system/sa-travis-key.json.enc" with
        | Some enc =>
            match decrypt T key enc with
            | Some plain =>
                match client_email T plain with
                | Some account =>
                    mkRun (Ret tt)
                          (mkProc (provisioned account plain (sys p)) (exitCode p)) t
                | None =>
                    mkRun (Exit 1)
                          (mkProc (write_file "sa-travis-key.json" plain (sys p))
                                  (exitCode p)) t
                end
            | None =>
                mkRun (Exit 1)
                      (mkProc (write_file "sa-travis-key.json"
                                 (residue T key enc) (sys p))
                              (exitCode p)) t
            end
        | None => mkRun (Exit 1) p t
        end
    | _ => mkRun (Exit 1) p t
    end.
Proof.
  pose proof (decrypt_step (sys p)) as Hd.
  unfold Utils.authenticateWithStorageLocation_, Utils.decryptTravisKey_.
  assert (Hfail : forall s,
    tools_shell T
      ("openssl aes-256-cbc -md sha256 -k " +:+ Js.template (GCP_TOKEN env) +:+
       " -in build-system/sa-travis-key.json.enc -out sa-travis-key.json -d")
      (sys p) = (1, s) ->
    exists t,
      bind (execOrDie env
        ("openssl aes-256-cbc -md sha256 -k " +:+ Js.template (GCP_TOKEN env) +:+
         " -in " +:+ "build-system/sa-travis-key.json.enc -out " +:+
         Utils.OUTPUT_STORAGE_KEY_FILE +:+ " -d"))
        (fun _ =>
           execOrDie env
             ("gcloud auth activate-service-account " +:+ "--key-file " +:+
              Utils.OUTPUT_STORAGE_KEY_FILE);;
           execOrDie env
             ("gcloud config set account " +:+ Utils.OUTPUT_STORAGE_SERVICE_ACCOUNT);;
           execOrDie env "gcloud config set pass_credentials_to_gsutil true";;
           execOrDie env ("gcloud config set project " +:+ Utils.OUTPUT_STORAGE_PROJECT_ID);;
           execOrDie env "gcloud config list") p =
      mkRun (Exit 1) (mkProc s (exitCode p)) t).
  { intros s Hs. eexists. eapply bind_exit_to.
    apply execOrDie_fail; [| done]. rewrite Hshell. exact Hs. }
  destruct (String.words (Js.template (GCP_TOKEN env))) as [|key [|k2 l]].
  - destruct (Hfail _ Hd) as [t Ht]. exists t. by rewrite Ht, proc_eta.
  - destruct (files (sys p) !! "build-system/sa-travis-key.json.enc")
      as [enc|] eqn:Henc;
      [destruct (decrypt T key enc) as [plain|] eqn:Hplain |].
    + assert (Hact :
        tools_shell T
          "gcloud auth activate-service-account --key-file sa-travis-key.json"
          (write_file "sa-travis-key.json" plain (sys p)) =
        match client_email T plain with
        | Some account =>
            (0, activate account (write_file "sa-travis-key.json" plain (sys p)))
        | None => (1, write_file "sa-travis-key.json" plain (sys p))
        end).
      { rewrite activate_step. unfold write_file at 1. cbn [files].
        by rewrite lookup_insert_eq. }
      destruct (client_email T plain) as [account|]; eexists;
        (eapply bind_ret_to;
         [apply execOrDie_pass; rewrite Hshell; exact Hd |]).
      * eapply bind_ret_to.
        { apply execOrDie_pass_at. rewrite Hshell. exact Hact. }
        eapply bind_ret_to.
        { apply execOrDie_pass_at. rewrite Hshell. apply set_account_step. }
        eapply bind_ret_to.
        { apply execOrDie_pass_at. rewrite Hshell. apply set_pass_step. }
        eapply bind_ret_to.
        { apply execOrDie_pass_at. rewrite Hshell. apply set_project_step. }
        apply execOrDie_pass_at. rewrite Hshell. apply list_step.
      * eapply bind_exit_to.
        apply execOrDie_fail_at; [| done]. rewrite Hshell. exact Hact.
    + destruct (Hfail _ Hd) as [t Ht]. exists t. by rewrite Ht.
    + destruct (Hfail _ Hd) as [t Ht]. exists t. by rewrite Ht, proc_eta.
  - destruct (Hfail _ Hd) as [t Ht]. exists t. by rewrite Ht, proc_eta.
Qed.

End Idempotence.

Lemma provisioned_files account plain m :
  files (provisioned account plain m) !! "build-system/sa-travis-key.json.enc" =
  files m !! "build-system/sa-travis-key.json.enc".
Proof. unfold provisioned. simpl. by rewrite lookup_insert_ne. Qed.

Lemma written_files plain m :
  files (write_file "sa-travis-key.json" plain m)
    !! "build-system/sa-travis-key.json.enc" =
  files m !! "build-system/sa-travis-key.json.enc".
Proof. unfold write_file. simpl. by rewrite lookup_insert_ne. Qed.

Lemma write_file_idem path content m :
  write_file path content (write_file path content m) = write_file path content m.
Proof. unfold write_file. simpl. f_equal. apply insert_insert_eq. Qed.

(** C5.  On the modelled tools, authentication is idempotent.  A second
    [authenticateWithStorageLocation_], run from the state that a first one
    has left, ends as the first one did and leaves the machine (the
    decrypted key file, the credential store, and the account, the
    pass-through flag and the project id of the cloud CLI) and the process
    as they were; so do two calls in sequence in one process, where a first
    call that fails has ended the process.  This holds also after a
    decryption that failed and overwrote the key file with its residue: the
    second decryption fails in the same way.  After a call that returns, the
    account is the service account, the pass-through flag is [true], the
    project is the storage project and the decrypted key file exists. *)
Theorem authenticate_idempotent (T : Tools) (env : Env Machine)
    (p : Proc Machine) :
  (forall cmd m, shell env cmd m = tools_shell T cmd m) ->
  let once := Utils.authenticateWithStorageLocation_ env p in
  let again := Utils.authenticateWithStorageLocation_ env (final once) in
  let twice :=
    (Utils.authenticateWithStorageLocation_ env ;;
     Utils.authenticateWithStorageLocation_ env) p in
  (final again = final once /\ outcome again = outcome once) /\
  (final twice = final once /\ outcome twice = outcome once) /\
  (returns (outcome once) ->
   let m := sys (final once) in
   properties m !! "account" =
     Some "sa-travis@amp-travis-build-storage.iam.gserviceaccount.com" /\
   properties m !! "pass_credentials_to_gsutil" = Some "true" /\
   properties m !! "project" = Some "amp-travis-build-storage" /\
   is_Some (files m !! "sa-travis-key.json")).
Proof.
  intros Hshell once again twice.
  pose proof (auth_tools_run T env Hshell) as Hrun.
  destruct (Hrun p) as [t Hp]. fold once in Hp.
  assert (Hsame : forall st q u,
            once = mkRun (Exit st) q u ->
            (exists u', Utils.authenticateWithStorageLocation_ env q =
                        mkRun (Exit st) q u') ->
            (final again = final once /\ outcome again = outcome once) /\
            (final twice = final once /\ outcome twice = outcome once) /\
            (returns (outcome once) ->
             let m := sys (final once) in
             properties m !! "account" =
               Some "sa-travis@amp-travis-build-storage.iam.gserviceaccount.com" /\
             properties m !! "pass_credentials_to_gsutil" = Some "true" /\
             properties m !! "project" = Some "amp-travis-build-storage" /\
             is_Some (files m !! "sa-travis-key.json"))).
  { intros st q u Hq [u' Hq']. unfold again, twice.
    rewrite (bind_exit_to _ _ _ _ _ _ Hq), Hq. cbn [final outcome].
    rewrite Hq'. split_and!; try done.
    intros Hr. destruct (not_returns_exit _ Hr). }
  destruct (String.words (Js.template (GCP_TOKEN env))) as [|key [|k2 l]];
    [apply (Hsame _ _ _ Hp); by exists t | |
     apply (Hsame _ _ _ Hp); by exists t].
  destruct (files (sys p) !! "build-system/sa-travis-key.json.enc")
    as [enc|] eqn:Henc;
    [| apply (Hsame _ _ _ Hp); by exists t].
  destruct (decrypt T key enc) as [plain|] eqn:Hplain.
  2:{ apply (Hsame _ _ _ Hp).
      destruct (Hrun (mkProc (write_file "sa-travis-key.json"
                                (residue T key enc) (sys p))
                             (exitCode p))) as [t' Hp'].
      cbn [sys exitCode] in Hp'.
      rewrite written_files, Henc, Hplain, write_file_idem in Hp'.
      by exists t'. }
  destruct (client_email T plain) as [account|] eqn:Hacct.
  - clear Hsame.
    destruct (Hrun (mkProc (provisioned account plain (sys p)) (exitCode p)))
      as [t' Hp'].
    cbn [sys exitCode] in Hp'.
    rewrite provisioned_files, Henc, Hplain, Hacct, provisioned_idem in Hp'.
    unfold again, twice. rewrite (bind_ret_to _ _ _ _ _ _ _ _ _ Hp Hp'), Hp.
    cbn [outcome final sys]. rewrite Hp'. cbn [outcome final].
    split_and!; try done.
    intros _. unfold provisioned, set_property, activate, write_file.
    cbn [properties files]. split_and!.
    + rewrite lookup_insert_ne by done. rewrite lookup_insert_ne by done.
      by rewrite lookup_insert_eq.
    + rewrite lookup_insert_ne by done. by rewrite lookup_insert_eq.
    + by rewrite lookup_insert_eq.
    + rewrite lookup_insert_eq. by eexists.
  - apply (Hsame _ _ _ Hp).
    destruct (Hrun (mkProc (write_file "sa-travis-key.json" plain (sys p))
                           (exitCode p))) as [t' Hp'].
    cbn [sys exitCode] in Hp'.
    rewrite written_files, Henc, Hplain, Hacct, write_file_idem in Hp'.
    by exists t'.
Qed.

(** * The properties at sample inputs *)

(** C1, as stated, fails on the destination of the copy: with run-id
    ["1234"] the upload of the Build archive returns after a single copy
    command, [gsutil -m cp -r amp_build_1234.zip gs://amp-travis-builds],
    whose destination argument is the bucket and not
    [gs://amp-travis-builds/amp_build_1234.zip]. *)
Lemma upload_copy_destination_is_the_bucket :
  let r := Utils.uploadBuildOutput travis_1234 "build.js" new_process in
  outcome r = Ret tt /\
  copies (emitted r) =
    ["gsutil -m cp -r amp_build_1234.zip gs://amp-travis-builds"] /\
  map destination (copies (emitted r)) = [Some "gs://amp-travis-builds"] /\
  ~ (exists cmd, cmd ∈ copies (emitted r) /\
       destination cmd = Some "gs://amp-travis-builds/amp_build_1234.zip").
Proof.
  assert (Hc : copies (emitted (Utils.uploadBuildOutput travis_1234 "build.js" new_process)) =
               ["gsutil -m cp -r amp_build_1234.zip gs://amp-travis-builds"])
    by (vm_compute; reflexivity).
  cbv zeta. rewrite Hc. split_and!.
  - vm_compute. reflexivity.
  - reflexivity.
  - vm_compute. reflexivity.
  - intros (cmd & Hin & Hdest).
    apply list_elem_of_singleton in Hin. subst cmd.
    vm_compute in Hdest. discriminate.
Qed.




Lemma authenticate_idempotent_witness :
  let env := cloud_env sample_tools (Some "secret") in
  let p := mkProc sample_machine None in
  let once := Utils.authenticateWithStorageLocation_ env p in
  let again := Utils.authenticateWithStorageLocation_ env (final once) in
  let twice :=
    (Utils.authenticateWithStorageLocation_ env ;;
     Utils.authenticateWithStorageLocation_ env) p in
  let wrong := cloud_env sample_tools (Some "wrong") in
  let failed :=
    Utils.authenticateWithStorageLocation_ wrong (mkProc keyed_machine None) in
  let failed_again := Utils.authenticateWithStorageLocation_ wrong (final failed) in
  (forall cmd m, shell env cmd m = tools_shell sample_tools cmd m) /\
  returns (outcome once) /\
  final again = final once /\
  final twice = final once /\
  properties (sys (final once)) !! "account" =
    Some "sa-travis@amp-travis-build-storage.iam.gserviceaccount.com" /\
  (forall cmd m, shell wrong cmd m = tools_shell sample_tools cmd m) /\
  outcome failed = Exit 1 /\
  files (sys (final failed)) !! "sa-travis-key.json" = Some "" /\
  final failed_again = final failed /\
  outcome failed_again = outcome failed.
Proof.
  intros env p once again twice wrong failed failed_again.
  assert (Hr : returns (outcome once)) by (exists tt; vm_compute; reflexivity).
  split; [reflexivity |]. split; [exact Hr |].
  destruct (authenticate_idempotent sample_tools env p (fun _ _ => eq_refl))
    as ((Hagain & _) & (Htwice & _) & Hafter).
  split; [exact Hagain |]. split; [exact Htwice |].
  split; [exact (proj1 (Hafter Hr)) |].
  destruct (authenticate_idempotent sample_tools wrong
              (mkProc keyed_machine None) (fun _ _ => eq_refl))
    as ((Hfinal & Hout) & _).
  split; [reflexivity |]. split; [reflexivity |]. split; [reflexivity |].
  split; [exact Hfinal | exact Hout].
Defined.

Lemma archive_names_witness :
  isTravisBuild travis_1234 = true /\
  Utils.BUILD_OUTPUT_FILE travis_1234 = "amp_build_1234.zip" /\
  Utils.DIST_OUTPUT_FILE travis_1234 = "amp_dist_1234.zip".
Proof.
  split; [reflexivity |].
  destruct (archive_names travis_1234 eq_refl) as (Hb & Hd & _).
  split; [exact Hb | exact Hd].
Defined.

Lemma timer_prints_minutes_and_seconds_witness :
  let started := Utils.startTimer orphan_pull_request "gulp lint" "checks.js" new_process in
  outcome started = Ret 0 /\
  sys (final started) = 61000 /\
  exists printed,
    emitted (Utils.stopTimer orphan_pull_request "gulp lint" "checks.js" 0
               (final started)) =
      [DateNow 61000;
       Log ["checks.js:"; "Done running"; "gulp lint"; "Total time:"; printed]] /\
    printed = "1m 1s".
Proof.
  intros started.
  destruct (timer_prints_minutes_and_seconds orphan_pull_request
              "gulp lint" "checks.js" new_process (final started))
    as (Hstart & printed & Hemit & _ & _ & _ & H61).
  split; [exact Hstart |]. split; [reflexivity |].
  exists printed. split; [exact Hemit | apply H61; reflexivity].
Defined.

Lemma missing_branch_point_is_reported_not_fatal_witness :
  Js.truthy (gitBranchCreationPoint orphan_pull_request) = false /\
  outcome (Utils.verifyBranchCreationPoint orphan_pull_request "checks.js" new_process) =
    Ret false /\
  outcome (Checks.main orphan_pull_request new_process) = Ret tt /\
  exitCode (final (Checks.main orphan_pull_request new_process)) = Some 1.
Proof.
  pose proof (missing_branch_point_is_reported_not_fatal orphan_pull_request
                "checks.js" new_process) as (Hfalse & _ & Hmain).
  split; [reflexivity |]. split.
  - exact (proj1 (Hfalse eq_refl)).
  - destruct (Hmain eq_refl eq_refl eq_refl) as (Ho & He & _).
    split; [exact Ho | exact He].
Defined.

Lemma empty_archive_name_outside_travis_witness :
  isTravisBuild local_build = false /\
  Utils.BUILD_OUTPUT_FILE local_build = "" /\
  Utils.DIST_OUTPUT_FILE local_build = "" /\
  exists st,
    Spawn "zip -r  build/ dist/ dist.3p/ EXTENSIONS_CSS_MAP" st
    ∈ emitted (Utils.uploadBuildOutput local_build "build.js" new_process).
Proof.
  split; [reflexivity |].
  destruct (empty_archive_name_outside_travis local_build "build.js" new_process eq_refl)
    as (Hb & Hd & Hup & _).
  split; [exact Hb |]. split; [exact Hd |].
  refine (proj1 (proj2 (proj2
    (Hup (Utils.uploadBuildOutput local_build "build.js")
         Utils.BUILD_OUTPUT_DIRS _)))).
  apply list_elem_of_here.
Defined.

Lemma checks_early_failure_witness :
  (yarnChecks yarn_broken "checks.js" (clock yarn_broken (sys new_process)).2).1 = false /\
  outcome (Checks.main yarn_broken new_process) = Ret tt /\
  exitCode (final (Checks.main yarn_broken new_process)) = Some 1 /\
  commands (emitted (Checks.main yarn_broken new_process)) = [] /\
  (yarnChecks orphan_pull_request "checks.js"
     (clock orphan_pull_request (sys new_process)).2).1 = true /\
  isTravisPullRequestBuild orphan_pull_request = true /\
  Js.truthy (gitBranchCreationPoint orphan_pull_request) = false /\
  outcome (Checks.main orphan_pull_request new_process) = Ret tt /\
  exitCode (final (Checks.main orphan_pull_request new_process)) = Some 1 /\
  commands (emitted (Checks.main orphan_pull_request new_process)) = [].
Proof.
  destruct (checks_early_failure yarn_broken new_process) as [Hyarn _].
  destruct (checks_early_failure orphan_pull_request new_process) as [_ Hbranch].
  destruct (Hyarn eq_refl) as (H1 & H2 & _ & H3).
  destruct (Hbranch eq_refl eq_refl eq_refl) as (H4 & H5 & _ & H6).
  split_and!; first [reflexivity | assumption].
Defined.

(** * Further properties of the scripts *)

(** ** Timed commands *)

Lemma run_eta {Sys A} (r : Run Sys A) :
  r = mkRun (outcome r) (final r) (emitted r).
Proof. by destruct r. Qed.

Lemma exec_run {Sys} (env : Env Sys) cmd (p : Proc Sys) :
  exec env cmd p =
  mkRun (Ret (shell env cmd (sys p)).1)
        (mkProc (shell env cmd (sys p)).2 (exitCode p))
        [Spawn cmd (shell env cmd (sys p)).1].
Proof. unfold exec. by destruct (shell env cmd (sys p)). Qed.

(** [timedExecOrDie], step by step. *)
Lemma timedExecOrDie_run {Sys} (env : Env Sys) cmd file (p : Proc Sys) :
  let t0 := (clock env (sys p)).1 in
  let ran := shell env cmd (clock env (sys p)).2 in
  let running :=
    [DateNow t0;
     Log [Utils.nl +:+ bold env (yellow env (file +:+ ":"));
          "Running"; cyan env cmd +:+ "..."];
     Spawn cmd ran.1] in
  Utils.timedExecOrDie env cmd file p =
  if ran.1 =? 0
  then mkRun (Ret tt) (mkProc (clock env ran.2).2 (exitCode p))
         (running ++
          [DateNow (clock env ran.2).1;
           Log [bold env (yellow env (file +:+ ":"));
                "Done running"; cyan env cmd; "Total time:";
                green env (Utils.elapsed_text ((clock env ran.2).1 - t0))]])
  else mkRun (Exit ran.1) (mkProc ran.2 (exitCode p)) running.
Proof.
  intros t0 ran running. unfold Utils.timedExecOrDie.
  destruct (Z.eqb_spec ran.1 0) as [Hst|Hst].
  - transitivity
      (mkRun (Ret tt) (mkProc (clock env ran.2).2 (exitCode p))
         ([DateNow t0;
           Log [Utils.nl +:+ bold env (yellow env (file +:+ ":"));
                "Running"; cyan env cmd +:+ "..."]] ++
          [Spawn cmd 0] ++
          [DateNow (clock env ran.2).1;
           Log [bold env (yellow env (file +:+ ":"));
                "Done running"; cyan env cmd; "Total time:";
                green env (Utils.elapsed_text ((clock env ran.2).1 - t0))]]));
      [|unfold running; by rewrite Hst].
    eapply bind_ret_to; [apply startTimer_run|].
    eapply bind_ret_to.
    + apply execOrDie_pass_at with (s := ran.2).
      rewrite <- Hst. apply surjective_pairing.
    + by rewrite stopTimer_run.
  - unfold bind at 1. rewrite startTimer_run. cbn [outcome final emitted].
    erewrite bind_exit_to.
    2:{ apply execOrDie_fail_at with (s := ran.2); [apply surjective_pairing|done]. }
    done.
Qed.

(** X1.  [timedExecOrDie] stops its timer only when the command passes.
    When the command fails, the process exits with the status of the
    command right after it: the trace ends with the child process, no
    "Done running" line is printed and the clock is not read again.  When
    the command passes, the line is printed with the time elapsed between
    the reading before the command and the reading after it. *)
Theorem timedExecOrDie_stops_timer_only_on_success {Sys} (env : Env Sys)
    (cmd file : string) (p : Proc Sys) :
  let t0 := (clock env (sys p)).1 in
  let ran := shell env cmd (clock env (sys p)).2 in
  let t1 := (clock env ran.2).1 in
  let r := Utils.timedExecOrDie env cmd file p in
  let running :=
    [DateNow t0;
     Log [Utils.nl +:+ bold env (yellow env (file +:+ ":"));
          "Running"; cyan env cmd +:+ "..."]] in
  exitCode (final r) = exitCode p /\
  (ran.1 ≠ 0 ->
   outcome r = Exit ran.1 /\
   emitted r = running ++ [Spawn cmd ran.1] /\
   sys (final r) = ran.2) /\
  (ran.1 = 0 ->
   outcome r = Ret tt /\
   emitted r =
     running ++
     [Spawn cmd 0; DateNow t1;
      Log [bold env (yellow env (file +:+ ":"));
           "Done running"; cyan env cmd; "Total time:";
           green env (Utils.elapsed_text (t1 - t0))]] /\
   sys (final r) = (clock env ran.2).2).
Proof.
  intros t0 ran t1 r running. unfold r. rewrite timedExecOrDie_run.
  fold ran. split_and!.
  - by destruct (ran.1 =? 0).
  - intros Hst. apply Z.eqb_neq in Hst. by rewrite Hst.
  - intros Hst. rewrite Hst. done.
Qed.

(** X2.  [timedExec] never ends the process: whatever the status of the
    command, it reads the clock again, prints the "Done running" line with
    the time elapsed around the command, and returns the status. *)
Theorem timedExec_always_stops_timer {Sys} (env : Env Sys)
    (cmd file : string) (p : Proc Sys) :
  let t0 := (clock env (sys p)).1 in
  let ran := shell env cmd (clock env (sys p)).2 in
  let t1 := (clock env ran.2).1 in
  let r := Utils.timedExec env cmd file p in
  outcome r = Ret ran.1 /\
  exitCode (final r) = exitCode p /\
  sys (final r) = (clock env ran.2).2 /\
  emitted r =
    [DateNow t0;
     Log [Utils.nl +:+ bold env (yellow env (file +:+ ":"));
          "Running"; cyan env cmd +:+ "..."];
     Spawn cmd ran.1;
     DateNow t1;
     Log [bold env (yellow env (file +:+ ":"));
          "Done running"; cyan env cmd; "Total time:";
          green env (Utils.elapsed_text (t1 - t0))]].
Proof.
  intros t0 ran t1 r.
  assert (r = mkRun (Ret ran.1) (mkProc (clock env ran.2).2 (exitCode p))
                ([DateNow t0;
                  Log [Utils.nl +:+ bold env (yellow env (file +:+ ":"));
                       "Running"; cyan env cmd +:+ "..."]] ++
                 [Spawn cmd ran.1] ++
                 [DateNow t1;
                  Log [bold env (yellow env (file +:+ ":"));
                       "Done running"; cyan env cmd; "Total time:";
                       green env (Utils.elapsed_text (t1 - t0))]] ++ []))
    as ->; [|done].
  unfold r, Utils.timedExec.
  eapply bind_ret_to; [apply startTimer_run|].
  eapply bind_ret_to; [apply exec_run|].
  eapply bind_ret_to; [apply stopTimer_run|].
  reflexivity.
Qed.

(** ** Invariants of the traces *)

Lemma emitted_bind_Forall {Sys A B} (P : Event -> Prop) (m : M Sys A)
    (k : A -> M Sys B) p :
  Forall P (emitted (m p)) ->
  (forall a q, Forall P (emitted (k a q))) ->
  Forall P (emitted (bind m k p)).
Proof.
  intros Hm Hk. unfold bind. destruct (outcome (m p)); try done.
  cbn [emitted]. apply Forall_app. split; [done|apply Hk].
Qed.

Lemma keeps_exitCode_bind {Sys A B} (m : M Sys A) (k : A -> M Sys B) :
  keeps_exitCode m -> (forall a, keeps_exitCode (k a)) ->
  keeps_exitCode (bind m k).
Proof.
  intros Hm Hk p. unfold bind. specialize (Hm p).
  destruct (outcome (m p)); cbn [final]; try done.
  by rewrite Hk.
Qed.

Section Invariants.
Context {Sys : Type} (env : Env Sys).

Lemma exec_from_shell cmd (p : Proc Sys) :
  Forall (from_shell env) (emitted (exec env cmd p)).
Proof. rewrite exec_run. repeat constructor. by eexists. Qed.

Lemma execOrDie_from_shell cmd (p : Proc Sys) :
  Forall (from_shell env) (emitted (execOrDie env cmd p)).
Proof.
  unfold execOrDie. apply emitted_bind_Forall; [apply exec_from_shell|].
  intros st q. destruct (st =? 0); constructor.
Qed.

Lemma console_log_from_shell args (p : Proc Sys) :
  Forall (from_shell env) (emitted (console_log args p)).
Proof. by repeat constructor. Qed.

Lemma ret_from_shell {A} (a : A) (p : Proc Sys) :
  Forall (from_shell env) (emitted (ret a p)).
Proof. constructor. Qed.

Lemma startTimer_from_shell fn file (p : Proc Sys) :
  Forall (from_shell env) (emitted (Utils.startTimer env fn file p)).
Proof. rewrite startTimer_run. by repeat constructor. Qed.

Lemma stopTimer_from_shell fn file start (p : Proc Sys) :
  Forall (from_shell env) (emitted (Utils.stopTimer env fn file start p)).
Proof. rewrite stopTimer_run. by repeat constructor. Qed.

Lemma exec_keeps cmd : keeps_exitCode (exec env cmd).
Proof. intros p. by rewrite exec_run. Qed.

Lemma execOrDie_keeps cmd : keeps_exitCode (execOrDie env cmd).
Proof.
  unfold execOrDie. apply keeps_exitCode_bind; [apply exec_keeps|].
  intros st p. by destruct (st =? 0).
Qed.

Lemma console_log_keeps args : keeps_exitCode (Sys:=Sys) (console_log args).
Proof. done. Qed.

Lemma ret_keeps {A} (a : A) : keeps_exitCode (Sys:=Sys) (ret a).
Proof. done. Qed.

End Invariants.

Ltac from_shell_steps :=
  repeat first
    [ apply exec_from_shell
    | apply execOrDie_from_shell
    | apply console_log_from_shell
    | apply ret_from_shell
    | apply startTimer_from_shell
    | apply stopTimer_from_shell
    | apply emitted_bind_Forall; [|intros ? ?] ].

Ltac keeps_steps :=
  repeat first
    [ apply exec_keeps
    | apply execOrDie_keeps
    | apply console_log_keeps
    | apply ret_keeps
    | apply keeps_exitCode_bind; [|intros ?] ].

Lemma authenticate_from_shell {Sys} (env : Env Sys) (p : Proc Sys) :
  Forall (from_shell env)
         (emitted (Utils.authenticateWithStorageLocation_ env p)).
Proof.
  unfold Utils.authenticateWithStorageLocation_, Utils.decryptTravisKey_.
  from_shell_steps.
Qed.

Lemma authenticate_keeps {Sys} (env : Env Sys) :
  keeps_exitCode (Utils.authenticateWithStorageLocation_ env).
Proof.
  unfold Utils.authenticateWithStorageLocation_, Utils.decryptTravisKey_.
  keeps_steps.
Qed.

Lemma uploadOutput_from_shell {Sys} (env : Env Sys) fn file dirs (p : Proc Sys) :
  Forall (from_shell env) (emitted (Utils.uploadOutput_ env fn file dirs p)).
Proof.
  unfold Utils.uploadOutput_.
  repeat first [ apply authenticate_from_shell | progress from_shell_steps ].
Qed.

Lemma uploadOutput_keeps {Sys} (env : Env Sys) fn file dirs :
  keeps_exitCode (Utils.uploadOutput_ env fn file dirs).
Proof.
  unfold Utils.uploadOutput_.
  repeat first [ apply authenticate_keeps | progress keeps_steps ].
Qed.

Lemma downloadOutput_from_shell {Sys} (env : Env Sys) fn file dirs (p : Proc Sys) :
  Forall (from_shell env) (emitted (Utils.downloadOutput_ env fn file dirs p)).
Proof.
  unfold Utils.downloadOutput_.
  repeat first [ apply authenticate_from_shell | progress from_shell_steps ].
Qed.

Lemma downloadOutput_keeps {Sys} (env : Env Sys) fn file dirs :
  keeps_exitCode (Utils.downloadOutput_ env fn file dirs).
Proof.
  unfold Utils.downloadOutput_.
  repeat first [ apply authenticate_keeps | progress keeps_steps ].
Qed.

(** ** Sequences of fatal commands *)

Lemma all_passed_nil : all_passed [].
Proof. intros cmd st Hin. by apply elem_of_nil in Hin. Qed.

Lemma all_passed_app t1 t2 :
  all_passed t1 -> all_passed t2 -> all_passed (t1 ++ t2).
Proof.
  intros H1 H2 cmd st Hin. apply elem_of_app in Hin as [Hin|Hin]; eauto.
Qed.

Lemma runs_fatally_ret {Sys} : runs_fatally (Sys:=Sys) (ret tt) [].
Proof.
  intros p. split; [done|]. left. split_and!; [done|done|apply all_passed_nil].
Qed.

Lemma runs_fatally_stopTimer {Sys} (env : Env Sys) fn file start :
  runs_fatally (Utils.stopTimer env fn file start) [].
Proof.
  intros p. cbv zeta. rewrite stopTimer_run. split; [done|]. left.
  split_and!; [done|done|].
  intros cmd st Hin. repeat (apply elem_of_cons in Hin as [Hin|Hin]; [done|]).
  by apply elem_of_nil in Hin.
Qed.

Lemma runs_fatally_timed {Sys} (env : Env Sys) cmd file :
  runs_fatally (Utils.timedExecOrDie env cmd file) [cmd].
Proof.
  intros p. cbv zeta. rewrite timedExecOrDie_run.
  destruct (Z.eqb_spec (shell env cmd (clock env (sys p)).2).1 0) as [Hst|Hst].
  - split; [done|]. left. split_and!; [done|done|].
    intros c st Hin. cbn [app] in Hin.
    repeat (apply elem_of_cons in Hin as [Hin|Hin]; [congruence|]).
    by apply elem_of_nil in Hin.
  - split; [done|]. right.
    eexists _, [], cmd, [], [_; _]. split_and!; [exact Hst|done..|].
    intros c st Hin.
    repeat (apply elem_of_cons in Hin as [Hin|Hin]; [done|]).
    by apply elem_of_nil in Hin.
Qed.

Lemma runs_fatally_seq {Sys} (m k : M Sys unit) c1 c2 :
  runs_fatally m c1 -> runs_fatally k c2 -> runs_fatally (m ;; k) (c1 ++ c2).
Proof.
  intros Hm Hk p. cbv zeta. unfold bind.
  destruct (Hm p) as [He [(Ho & Hc & Hp)|(st & pre & cmd & post & t & Hst & Ho & Hc & Ht & Hpre & Hp)]].
  - rewrite Ho. cbn [outcome final emitted].
    destruct (Hk (final (m p)))
      as [He' [(Ho' & Hc' & Hp')|(st & pre & cmd & post & t & Hst & Ho' & Hc' & Ht & Hpre & Hp')]].
    + split; [congruence|]. left. split_and!; [done| |by apply all_passed_app].
      by rewrite commands_app, Hc, Hc'.
    + split; [congruence|]. right.
      exists st, (c1 ++ pre), cmd, post, (emitted (m p) ++ t).
      split_and!; [done|done| | | |by apply all_passed_app].
      * by rewrite Hc', app_assoc.
      * by rewrite Ht, app_assoc.
      * by rewrite commands_app, Hc, Hpre.
  - rewrite Ho. cbn [outcome final emitted]. split; [done|]. right.
    exists st, pre, cmd, (post ++ c2), t. split_and!; try done.
    by rewrite Hc, <- app_assoc.
Qed.

Lemma runs_fatally_cons {Sys} (env : Env Sys) cmd (k : M Sys unit) cs :
  runs_fatally k cs ->
  runs_fatally (Checks.timedExecOrDie env cmd ;; k) (cmd :: cs).
Proof. apply (runs_fatally_seq _ _ [cmd]), runs_fatally_timed. Qed.

Lemma runs_fatally_if {Sys} (b : bool) (m : M Sys unit) c :
  runs_fatally m c ->
  runs_fatally (if b then m else ret tt) (if b then c else []).
Proof. destruct b; [done|intros _; apply runs_fatally_ret]. Qed.

Lemma push_block_runs {Sys} (env : Env Sys) start :
  runs_fatally (push_block env start) push_commands.
Proof.
  unfold push_block, push_commands.
  repeat apply runs_fatally_cons. apply runs_fatally_stopTimer.
Qed.

Lemma pr_block_runs {Sys} (env : Env Sys) targets start :
  runs_fatally (pr_block env targets start) (pr_commands targets).
Proof.
  unfold pr_block, pr_commands. cbn [app].
  do 4 apply runs_fatally_cons.
  do 2 (apply runs_fatally_seq;
        [apply runs_fatally_if, (runs_fatally_timed env)|]).
  apply runs_fatally_seq.
  { apply runs_fatally_if, runs_fatally_cons.
    rewrite <- (app_nil_r [_]).
    apply (runs_fatally_timed env). }
  do 2 (apply runs_fatally_seq;
        [apply runs_fatally_if, (runs_fatally_timed env)|]).
  rewrite <- (app_nil_r (if has targets "RUNTIME" then _ else _)).
  apply runs_fatally_seq; [|apply runs_fatally_stopTimer].
  apply runs_fatally_if.
  apply (runs_fatally_seq _ _ [_] [_]); apply (runs_fatally_timed env).
Qed.

(** ** Computations that stop the timer last *)

Lemma ends_stopped_stop {Sys} (env : Env Sys) start :
  ends_stopped env start (Utils.stopTimer env "checks.js" "checks.js" start).
Proof. intros p _. rewrite stopTimer_run. by exists [], (clock env (sys p)).1. Qed.

Lemma ends_stopped_seq {Sys A} (env : Env Sys) start (m : M Sys A)
    (k : A -> M Sys unit) :
  (forall a, ends_stopped env start (k a)) ->
  ends_stopped env start (bind m k).
Proof.
  intros Hk p. unfold bind. destruct (outcome (m p)) as [a| |]; try done.
  cbn [outcome emitted]. intros Ho.
  destruct (Hk a (final (m p)) Ho) as (pre & endTime & Ht).
  exists (emitted (m p) ++ pre), endTime. by rewrite Ht, app_assoc.
Qed.

Lemma push_block_stops {Sys} (env : Env Sys) start :
  ends_stopped env start (push_block env start).
Proof.
  unfold push_block. repeat (apply ends_stopped_seq; intros _).
  apply ends_stopped_stop.
Qed.

Lemma pr_block_stops {Sys} (env : Env Sys) targets start :
  ends_stopped env start (pr_block env targets start).
Proof.
  unfold pr_block. repeat (apply ends_stopped_seq; intros _).
  apply ends_stopped_stop.
Qed.

(** ** The checks job, path by path *)

Lemma printChangeSummary_run {Sys} (env : Env Sys) fileName (p : Proc Sys) :
  let prefix := bold env (yellow env (fileName +:+ ":")) in
  let sha := if isTravisBuild env then travisPullRequestSha env
             else gitCommitHash env in
  Utils.printChangeSummary env fileName p =
  mkRun (Ret tt) p
    ((if isTravisBuild env
      then [Log [prefix +:+ " " +:+ cyan env "origin/master" +:+
                   " is currently at " +:+ "commit " +:+
                   cyan env (shortSha env (gitTravisMasterBaseline env))]]
      else []) ++
     [Log [prefix +:+ " Testing the following changes at commit " +:+
             cyan env (shortSha env sha)];
      Log [gitDiffStatMaster env];
      Log [prefix +:+ " Commit log since branch";
           cyan env (gitBranchName env) +:+ " was forked from";
           cyan env "master" +:+ " at";
           cyan env (shortSha env (gitBranchCreationPoint env)) +:+ ":"];
      Log [gitDiffCommitLog env +:+ Utils.nl]]).
Proof.
  intros prefix sha. unfold Utils.printChangeSummary, sha, prefix.
  by destruct (isTravisBuild env).
Qed.

Lemma printChangeSummary_commands {Sys} (env : Env Sys) fileName (p : Proc Sys) :
  commands (emitted (Utils.printChangeSummary env fileName p)) = [].
Proof. rewrite printChangeSummary_run. by destruct (isTravisBuild env). Qed.

Lemma determineBuildTargets_run {Sys} (env : Env Sys) fileName (p : Proc Sys) :
  determineBuildTargets env fileName p =
  mkRun (Ret (buildTargetsOf env fileName (sys p)).1)
        (mkProc (buildTargetsOf env fileName (sys p)).2 (exitCode p))
        [DetermineBuildTargets fileName (buildTargetsOf env fileName (sys p)).1].
Proof.
  unfold determineBuildTargets. by destruct (buildTargetsOf env fileName (sys p)).
Qed.

(** [main] on a build that is not a pull-request build, after the yarn
    checks passed. *)
Lemma main_push {Sys} (env : Env Sys) (p : Proc Sys) :
  let t0 := (clock env (sys p)).1 in
  let yarn := yarnChecks env "checks.js" (clock env (sys p)).2 in
  let started :=
    [DateNow t0;
     Log [Utils.nl +:+ bold env (yellow env "checks.js:");
          "Running"; cyan env "checks.js" +:+ "..."]] in
  let b := push_block env t0 (mkProc yarn.2 (exitCode p)) in
  yarn.1 = true ->
  isTravisPullRequestBuild env = false ->
  Checks.main env p =
  mkRun (outcome b) (final b)
        (started ++ [YarnChecks "checks.js" true] ++ emitted b).
Proof.
  intros t0 yarn started b Hyarn Hpr.
  unfold Checks.main, Checks.FILENAME.
  eapply bind_ret_to; [apply startTimer_run |].
  replace (YarnChecks "checks.js" true) with (YarnChecks "checks.js" yarn.1)
    by (by rewrite Hyarn).
  eapply bind_ret_to; [apply runYarnChecks_run |].
  cbv beta. cbn [sys exitCode]. fold yarn. rewrite Hyarn, Hpr. cbn [negb].
  apply (run_eta b).
Qed.

(** [main] on a pull-request build whose branch has a creation point, after
    the yarn checks passed. *)
Lemma main_pr {Sys} (env : Env Sys) (p : Proc Sys) :
  let t0 := (clock env (sys p)).1 in
  let yarn := yarnChecks env "checks.js" (clock env (sys p)).2 in
  let started :=
    [DateNow t0;
     Log [Utils.nl +:+ bold env (yellow env "checks.js:");
          "Running"; cyan env "checks.js" +:+ "..."]] in
  let targets := buildTargetsOf env "checks.js" yarn.2 in
  let b := pr_block env targets.1 t0
             (mkProc (expectedTestsReport env targets.1 targets.2) (exitCode p)) in
  yarn.1 = true ->
  isTravisPullRequestBuild env = true ->
  Js.truthy (gitBranchCreationPoint env) = true ->
  Checks.main env p =
  mkRun (outcome b) (final b)
        (started ++ [YarnChecks "checks.js" true] ++ [] ++
         emitted (Utils.printChangeSummary env "checks.js" p) ++
         [DetermineBuildTargets "checks.js" targets.1] ++
         [ReportAllExpectedTests targets.1] ++ emitted b).
Proof.
  intros t0 yarn started targets b Hyarn Hpr Htruthy.
  unfold Checks.main, Checks.FILENAME.
  eapply bind_ret_to; [apply startTimer_run |].
  replace (YarnChecks "checks.js" true) with (YarnChecks "checks.js" yarn.1)
    by (by rewrite Hyarn).
  eapply bind_ret_to; [apply runYarnChecks_run |].
  cbv beta. cbn [sys exitCode]. fold yarn. rewrite Hyarn, Hpr. cbn [negb].
  eapply bind_ret_to.
  { rewrite verifyBranchCreationPoint_run, Htruthy. reflexivity. }
  cbn [negb].
  eapply bind_ret_to.
  { rewrite !printChangeSummary_run. reflexivity. }
  eapply bind_ret_to; [apply determineBuildTargets_run |].
  cbn [sys exitCode]. fold targets.
  eapply bind_ret_to; [reflexivity |].
  apply (run_eta b).
Qed.

(** ** Which events a timed sequence emits *)


Lemma timedExecOrDie_timing {Sys} (env : Env Sys) cmd file (p : Proc Sys) :
  Forall (fun e => timing_event e = true)
         (emitted (Utils.timedExecOrDie env cmd file p)).
Proof.
  rewrite timedExecOrDie_run.
  destruct (_ =? 0); cbn [emitted app]; by repeat constructor.
Qed.

Lemma stopTimer_timing {Sys} (env : Env Sys) fn file start (p : Proc Sys) :
  Forall (fun e => timing_event e = true)
         (emitted (Utils.stopTimer env fn file start p)).
Proof. rewrite stopTimer_run. by repeat constructor. Qed.

Lemma push_block_timing {Sys} (env : Env Sys) start (p : Proc Sys) :
  Forall (fun e => timing_event e = true) (emitted (push_block env start p)).
Proof.
  unfold push_block.
  repeat (apply emitted_bind_Forall;
          [apply timedExecOrDie_timing | intros _; clear p; intros p]).
  apply stopTimer_timing.
Qed.

Lemma spawn_commands cmd st t : Spawn cmd st ∈ t -> cmd ∈ commands t.
Proof.
  intros Hin. unfold commands. apply list_elem_of_omap.
  by exists (Spawn cmd st).
Qed.

Lemma commands_snoc t cmd st : commands (t ++ [Spawn cmd st]) = commands t ++ [cmd].
Proof. by rewrite commands_app. Qed.

(** The commands of a fatal sequence are among its commands, in order. *)
Lemma runs_fatally_sublist {Sys} (m : M Sys unit) cmds p :
  runs_fatally m cmds -> commands (emitted (m p)) `sublist_of` cmds.
Proof.
  intros Hm.
  destruct (Hm p) as [_ [(_ & Hc & _)|(st & pre & cmd & post & t & _ & _ & Hc & Ht & Hpre & _)]].
  - by rewrite Hc.
  - rewrite Ht, commands_snoc, Hpre, Hc.
    apply sublist_app; [done|]. apply sublist_skip, sublist_nil_l.
Qed.

Lemma push_commands_sublist : push_commands `sublist_of` all_commands.
Proof.
  unfold push_commands, all_commands.
  repeat first [apply sublist_skip | apply sublist_cons]. apply sublist_nil.
Qed.

Lemma pr_commands_sublist targets : pr_commands targets `sublist_of` all_commands.
Proof.
  unfold pr_commands.
  change all_commands with
    (["gulp update-packages"; "gulp check-exact-versions"; "gulp lint";
      "gulp presubmit"] ++ ["gulp ava"] ++ ["gulp babel-plugin-tests"] ++
     ["gulp caches-json"; "gulp json-syntax"] ++ ["gulp check-links"] ++
     ["gulp dev-dashboard-tests"] ++ ["gulp dep-check"; "gulp check-types"]).
  repeat (apply sublist_app;
          [first [done | destruct (has targets _); [done | apply sublist_nil_l]]|]).
  destruct (has targets _); [done | apply sublist_nil_l].
Qed.

Lemma all_commands_NoDup : NoDup all_commands.
Proof.
  unfold all_commands.
  repeat (apply NoDup_cons; split; [not_in_list|]). apply NoDup_nil_2.
Qed.

(** X3.  On a build that is not a pull-request build, after the yarn checks
    passed, [main] runs the eleven gulp commands in the order of the source,
    each one fatal: the run either returns, having run all of them with
    status 0 and stopped the timer of the job last (a reading of the clock,
    then the line with the time elapsed since the reading at the start of
    the job), or it ends the process
    on the first command that failed, with the status of that command,
    which is the last event; no later command is started.
    [process.exitCode] is left as it was, and the build targets are never
    determined nor reported: the events of the run are the yarn checks,
    clock readings, console lines and child processes. *)
Theorem checks_push_build {Sys} (env : Env Sys) (p : Proc Sys) :
  let t0 := (clock env (sys p)).1 in
  let yarn := yarnChecks env "checks.js" (clock env (sys p)).2 in
  let r := Checks.main env p in
  yarn.1 = true ->
  isTravisPullRequestBuild env = false ->
  exitCode (final r) = exitCode p /\
  (forall e, e ∈ emitted r ->
     e = YarnChecks "checks.js" true \/ timing_event e = true) /\
  ((outcome r = Ret tt /\
    commands (emitted r) = push_commands /\
    all_passed (emitted r) /\
    stopped_last env t0 (emitted r)) \/
   (exists st pre cmd post t,
      st ≠ 0 /\ outcome r = Exit st /\
      push_commands = pre ++ cmd :: post /\
      emitted r = t ++ [Spawn cmd st] /\
      commands t = pre /\ all_passed t)).
Proof.
  intros t0 yarn r Hyarn Hpr. unfold r.
  rewrite (main_push env p Hyarn Hpr). fold t0 yarn.
  set (q := mkProc yarn.2 (exitCode p)).
  cbn [outcome final emitted].
  destruct (push_block_runs env t0 q)
    as [He [(Ho & Hc & Hp)|(st & pre & cmd & post & t & Hst & Ho & Hc & Ht & Hpre & Hp)]].
  - split_and!; [done| |left; split_and!].
    + intros e Hin. apply elem_of_cons in Hin as [->|Hin]; [by right|].
      apply elem_of_cons in Hin as [->|Hin]; [by right|].
      apply elem_of_cons in Hin as [->|Hin]; [by left|].
      right. revert e Hin. apply Forall_forall, push_block_timing.
    + done.
    + by rewrite !commands_app, Hc.
    + intros c s Hin.
      repeat (apply elem_of_cons in Hin as [Hin|Hin]; [done|]).
      by apply (Hp c).
    + destruct (push_block_stops env t0 q Ho) as (pre & endTime & Ht).
      eexists (_ :: _ :: _ :: pre), endTime. by rewrite Ht.
  - split_and!; [done| |right].
    + intros e Hin. apply elem_of_cons in Hin as [->|Hin]; [by right|].
      apply elem_of_cons in Hin as [->|Hin]; [by right|].
      apply elem_of_cons in Hin as [->|Hin]; [by left|].
      right. revert e Hin. apply Forall_forall, push_block_timing.
    + eexists st, pre, cmd, post, (_ :: _ :: _ :: t).
      split_and!; [done|done|done|by rewrite Ht|done|].
      intros c s Hin.
      repeat (apply elem_of_cons in Hin as [Hin|Hin]; [done|]).
      by apply (Hp c).
Qed.

(** X4.  On a pull-request build whose branch has a creation point, after
    the yarn checks passed, [main] prints the change summary, determines
    the build targets and reports the expected tests for them, in this
    order and before any child process.  It then runs the gulp commands
    selected by the targets, [pr_commands targets], each one fatal: the run
    either returns, having run all of them with status 0 and stopped the
    timer of the job last (a reading of the clock, then the line with the
    time elapsed since the reading at the start of the job), or it ends the
    process on the first command that failed, with the status of that
    command, which is the last event.
    [process.exitCode] is left as it was. *)
Theorem checks_pull_request_build {Sys} (env : Env Sys) (p : Proc Sys) :
  let t0 := (clock env (sys p)).1 in
  let yarn := yarnChecks env "checks.js" (clock env (sys p)).2 in
  let started :=
    [DateNow t0;
     Log [Utils.nl +:+ bold env (yellow env "checks.js:");
          "Running"; cyan env "checks.js" +:+ "..."]] in
  let r := Checks.main env p in
  yarn.1 = true ->
  isTravisPullRequestBuild env = true ->
  Js.truthy (gitBranchCreationPoint env) = true ->
  exists targets rest,
    targets = (buildTargetsOf env "checks.js" yarn.2).1 /\
    emitted r =
      started ++ [YarnChecks "checks.js" true] ++
      emitted (Utils.printChangeSummary env "checks.js" p) ++
      [DetermineBuildTargets "checks.js" targets;
       ReportAllExpectedTests targets] ++ rest /\
    commands (emitted r) = commands rest /\
    exitCode (final r) = exitCode p /\
    ((outcome r = Ret tt /\
      commands rest = pr_commands targets /\
      all_passed rest /\
      stopped_last env t0 rest) \/
     (exists st pre cmd post t,
        st ≠ 0 /\ outcome r = Exit st /\
        pr_commands targets = pre ++ cmd :: post /\
        rest = t ++ [Spawn cmd st] /\
        commands t = pre /\ all_passed t)).
Proof.
  intros t0 yarn started r Hyarn Hpr Htruthy. unfold r.
  rewrite (main_pr env p Hyarn Hpr Htruthy). fold t0 yarn.
  set (targets := buildTargetsOf env "checks.js" yarn.2).
  set (q := mkProc (expectedTestsReport env targets.1 targets.2) (exitCode p)).
  cbn [outcome final emitted].
  exists targets.1, (emitted (pr_block env targets.1 t0 q)).
  split_and!; [done|done| | |].
  - rewrite !commands_app, printChangeSummary_commands. done.
  - by destruct (pr_block_runs env targets.1 t0 q) as [He _].
  - destruct (pr_block_runs env targets.1 t0 q)
      as [_ [(Ho & Hc & Hp)|(st & pre & cmd & post & t & Hst & Ho & Hc & Ht & Hpre & Hp)]].
    + left. split_and!; [done..|].
      by apply pr_block_stops.
    + right. by exists st, pre, cmd, post, t.
Qed.

(** Where a child process of [main] comes from. *)
Lemma main_spawn {Sys} (env : Env Sys) (p : Proc Sys) cmd st :
  Spawn cmd st ∈ emitted (Checks.main env p) ->
  (isTravisPullRequestBuild env = false /\ cmd ∈ push_commands) \/
  (isTravisPullRequestBuild env = true /\
   exists targets,
     DetermineBuildTargets "checks.js" targets ∈ emitted (Checks.main env p) /\
     cmd ∈ pr_commands targets).
Proof.
  set (yarn := yarnChecks env "checks.js" (clock env (sys p)).2).
  destruct (yarn.1) eqn:Hyarn.
  2:{ rewrite (main_yarn_failure env p Hyarn). cbn [emitted app].
      intros Hin. repeat (apply elem_of_cons in Hin as [Hin|Hin]; [done|]).
      by apply elem_of_nil in Hin. }
  destruct (isTravisPullRequestBuild env) eqn:Hpr.
  - destruct (Js.truthy (gitBranchCreationPoint env)) eqn:Htruthy.
    + rewrite (main_pr env p Hyarn Hpr Htruthy). fold yarn.
      set (targets := buildTargetsOf env "checks.js" yarn.2).
      set (b := pr_block env targets.1 _ _).
      cbn [emitted]. intros Hin. right. split; [done|].
      exists targets.1. split.
      { rewrite !elem_of_app. do 4 right. left. apply list_elem_of_here. }
      apply spawn_commands in Hin.
      rewrite !commands_app, printChangeSummary_commands in Hin.
      cbn in Hin.
      eapply elem_of_sublist; [exact Hin|].
      apply runs_fatally_sublist, pr_block_runs.
    + rewrite (main_branch_failure env p Hyarn Hpr Htruthy).
      rewrite verifyBranchCreationPoint_run, Htruthy. cbn [emitted app].
      intros Hin. repeat (apply elem_of_cons in Hin as [Hin|Hin]; [done|]).
      by apply elem_of_nil in Hin.
  - rewrite (main_push env p Hyarn Hpr). fold yarn.
    set (b := push_block env _ _).
    cbn [emitted]. intros Hin. left. split; [done|].
    apply spawn_commands in Hin. rewrite !commands_app in Hin. cbn in Hin.
    eapply elem_of_sublist; [exact Hin|].
    apply runs_fatally_sublist, push_block_runs.
Qed.

Lemma pr_commands_target targets cmd target :
  cmd ∈ pr_commands targets -> command_target cmd = Some target ->
  target ∈ targets.
Proof.
  unfold pr_commands. rewrite !elem_of_app.
  intros Hin Htarget.
  repeat (destruct Hin as [Hin|Hin];
          [first
             [ repeat (apply elem_of_cons in Hin as [->|Hin]; [discriminate|]);
               by apply elem_of_nil in Hin
             | destruct (has targets _) eqn:Hhas;
               [|by apply elem_of_nil in Hin];
               apply bool_decide_eq_true in Hhas;
               repeat (apply elem_of_cons in Hin as [->|Hin];
                       [by injection Htarget as <-|]);
               by apply elem_of_nil in Hin ]|]).
  destruct (has targets _) eqn:Hhas; [|by apply elem_of_nil in Hin].
  apply bool_decide_eq_true in Hhas.
  repeat (apply elem_of_cons in Hin as [->|Hin];
          [by injection Htarget as <-|]).
  by apply elem_of_nil in Hin.
Qed.

(** X5.  The gulp commands of [main] that depend on the build targets: a
    pull-request build starts a command guarded by a target only when the
    target is among the build targets it determined.  The links of the
    documents are checked only on pull-request builds, as the comment in
    the source says: no other build starts [gulp check-links]. *)
Theorem guarded_commands_need_their_target {Sys} (env : Env Sys)
    (p : Proc Sys) (cmd : string) (st : Z) (target : string) :
  let r := Checks.main env p in
  Spawn cmd st ∈ emitted r ->
  command_target cmd = Some target ->
  (cmd = "gulp check-links" -> isTravisPullRequestBuild env = true) /\
  (isTravisPullRequestBuild env = true ->
   exists targets,
     DetermineBuildTargets "checks.js" targets ∈ emitted r /\
     target ∈ targets).
Proof.
  intros r Hin Htarget.
  destruct (main_spawn env p cmd st Hin)
    as [(Hpr & Hcmd)|(Hpr & targets & Hdet & Hcmd)].
  - split; [|by rewrite Hpr].
    intros ->. exfalso. revert Hcmd. unfold push_commands. not_in_list.
  - split; [done|]. intros _. exists targets. split; [done|].
    by apply (pr_commands_target targets cmd).
Qed.

(** ** Timers left running *)

Lemma open_timers_app t1 t2 :
  open_timers (t1 ++ t2) = open_timers t1 + open_timers t2.
Proof.
  unfold open_timers. rewrite !List.filter_app, !length_app. lia.
Qed.

Lemma timed_bind {Sys A B} (m : M Sys A) (k : A -> M Sys B) a0 a b b' :
  timed m a0 b -> (forall x, timed (k x) a b') -> b = a0 + b' ->
  timed (bind m k) (a0 + a) b.
Proof.
  intros Hm Hk Hb p. unfold bind. destruct (Hm p) as [Hret Hexit].
  destruct (outcome (m p)) as [x|st|err] eqn:Ho; cbn [outcome emitted].
  - destruct (Hk x (final (m p))) as [Hret' Hexit'].
    rewrite open_timers_app, Hret by by eexists. split.
    + intros Hr. by rewrite Hret'.
    + intros st Hst. rewrite (Hexit' st Hst). lia.
  - split; [intros [? ?]; discriminate|]. intros st' _. by apply (Hexit st).
  - split; [intros [? ?]; discriminate|]. intros st' ?. discriminate.
Qed.

Lemma timed_timedExecOrDie {Sys} (env : Env Sys) cmd file :
  timed (Utils.timedExecOrDie env cmd file) 0 1.
Proof.
  intros p. rewrite timedExecOrDie_run.
  destruct (_ =? 0); cbn [outcome emitted]; split; try done.
  intros [? ?]. discriminate.
Qed.

Lemma timed_stopTimer {Sys} (env : Env Sys) fn file start b :
  timed (Utils.stopTimer env fn file start) (-1) b.
Proof. intros p. rewrite stopTimer_run. split; [done|]. intros st ?. discriminate. Qed.

Lemma timed_ret {Sys} b : timed (Sys:=Sys) (ret tt) 0 b.
Proof. intros p. split; [done|]. intros st ?. discriminate. Qed.

Lemma timed_seq {Sys} (m k : M Sys unit) a :
  timed m 0 1 -> timed k a 1 -> timed (m ;; k) a 1.
Proof. intros Hm Hk. by apply (timed_bind m (fun _ => k) 0 a 1 1). Qed.

Lemma timed_if {Sys} (b : bool) (m : M Sys unit) :
  timed m 0 1 -> timed (if b then m else ret tt) 0 1.
Proof. destruct b; [done|intros _; apply timed_ret]. Qed.

Ltac timed_steps env :=
  repeat first
    [ apply (timed_timedExecOrDie env)
    | apply timed_stopTimer
    | apply timed_if
    | apply timed_seq ].

Lemma push_block_timed {Sys} (env : Env Sys) start :
  timed (push_block env start) (-1) 1.
Proof. unfold push_block, Checks.timedExecOrDie. timed_steps env. Qed.

Lemma pr_block_timed {Sys} (env : Env Sys) targets start :
  timed (pr_block env targets start) (-1) 1.
Proof. unfold pr_block, Checks.timedExecOrDie. timed_steps env. Qed.

Lemma printChangeSummary_timers {Sys} (env : Env Sys) fileName (p : Proc Sys) :
  open_timers (emitted (Utils.printChangeSummary env fileName p)) = 0.
Proof. rewrite printChangeSummary_run. by destruct (isTravisBuild env). Qed.

(** X19.  The timers of the checks job.  Every timer that [main] starts,
    the one of the job and the one of each gulp command, is stopped when
    [main] returns, on the early failures too.  When a command fails, the
    process ends with two timers running, the one of the command and the
    one of the job: their "Done running" lines are never printed. *)
Theorem checks_timers_are_stopped_unless_a_command_fails {Sys}
    (env : Env Sys) (p : Proc Sys) :
  let r := Checks.main env p in
  (outcome r = Ret tt -> open_timers (emitted r) = 0) /\
  (forall st, outcome r = Exit st -> open_timers (emitted r) = 2).
Proof.
  intros r. unfold r. clear r.
  set (yarn := yarnChecks env "checks.js" (clock env (sys p)).2).
  destruct (yarn.1) eqn:Hyarn.
  2:{ rewrite (main_yarn_failure env p Hyarn). split; [done|].
      intros st ?. discriminate. }
  destruct (isTravisPullRequestBuild env) eqn:Hpr.
  - destruct (Js.truthy (gitBranchCreationPoint env)) eqn:Htruthy.
    + rewrite (main_pr env p Hyarn Hpr Htruthy). fold yarn.
      set (targets := buildTargetsOf env "checks.js" yarn.2).
      set (q := mkProc _ _).
      cbn [outcome emitted].
      rewrite !open_timers_app, printChangeSummary_timers.
      destruct (pr_block_timed env targets.1 (clock env (sys p)).1 q)
        as [Hret Hexit].
      split.
      * intros Ho. rewrite Hret by by eexists. reflexivity.
      * intros st Ho. rewrite (Hexit st Ho). reflexivity.
    + rewrite (main_branch_failure env p Hyarn Hpr Htruthy).
      rewrite verifyBranchCreationPoint_run, Htruthy.
      split; [done|]. intros st ?. discriminate.
  - rewrite (main_push env p Hyarn Hpr). fold yarn.
    set (q := mkProc _ _).
    cbn [outcome emitted]. rewrite !open_timers_app.
    destruct (push_block_timed env (clock env (sys p)).1 q) as [Hret Hexit].
    split.
    + intros Ho. rewrite Hret by by eexists. reflexivity.
    + intros st Ho. rewrite (Hexit st Ho). reflexivity.
Qed.

Lemma last_app_snoc {A} (l k : list A) x :
  last k = Some x -> last (l ++ k) = Some x.
Proof.
  destruct k as [|y k _] using rev_ind; [done|].
  rewrite app_assoc, !last_snoc. done.
Qed.

(** The two shapes of a run of [main]: an early failure, or the start of
    the timer and some lines followed by a sequence of fatal commands that
    stops the timer last. *)
Lemma main_shape {Sys} (env : Env Sys) (p : Proc Sys) :
  let t0 := (clock env (sys p)).1 in
  let started :=
    [DateNow t0;
     Log [Utils.nl +:+ bold env (yellow env "checks.js:");
          "Running"; cyan env "checks.js" +:+ "..."]] in
  let r := Checks.main env p in
  (outcome r = Ret tt /\ exitCode (final r) = Some 1 /\
   commands (emitted r) = [] /\ open_timers (emitted r) = 0 /\
   (exists rest, emitted r = started ++ rest) /\
   stopped_last env t0 (emitted r)) \/
  (exists (m : M Sys unit) q pre cmds,
     r = mkRun (outcome (m q)) (final (m q)) (pre ++ emitted (m q)) /\
     (exists rest, pre = started ++ rest) /\
     commands pre = [] /\ open_timers pre = 1 /\ exitCode q = exitCode p /\
     runs_fatally m cmds /\ ends_stopped env t0 m /\ timed m (-1) 1 /\
     cmds `sublist_of` all_commands).
Proof.
  intros t0 started r. unfold r.
  set (yarn := yarnChecks env "checks.js" (clock env (sys p)).2).
  destruct (yarn.1) eqn:Hyarn.
  2:{ left. rewrite (main_yarn_failure env p Hyarn).
      split_and!; [done..| |].
      - by eexists.
      - by eexists (_ :: _ :: _ :: []), _. }
  destruct (isTravisPullRequestBuild env) eqn:Hpr.
  - destruct (Js.truthy (gitBranchCreationPoint env)) eqn:Htruthy.
    + right. rewrite (main_pr env p Hyarn Hpr Htruthy). fold yarn t0.
      set (targets := buildTargetsOf env "checks.js" yarn.2).
      eexists (pr_block env targets.1 t0), _,
        (started ++ [YarnChecks "checks.js" true] ++ [] ++
         emitted (Utils.printChangeSummary env "checks.js" p) ++
         [DetermineBuildTargets "checks.js" targets.1] ++
         [ReportAllExpectedTests targets.1]),
        (pr_commands targets.1).
      split_and!.
      * rewrite <- !app_assoc. reflexivity.
      * by eexists.
      * rewrite !commands_app, printChangeSummary_commands. done.
      * rewrite !open_timers_app, printChangeSummary_timers. done.
      * done.
      * apply pr_block_runs.
      * apply pr_block_stops.
      * apply pr_block_timed.
      * apply pr_commands_sublist.
    + left. rewrite (main_branch_failure env p Hyarn Hpr Htruthy).
      rewrite verifyBranchCreationPoint_run, Htruthy.
      split_and!; [done..| |].
      * by eexists.
      * by eexists (_ :: _ :: _ :: _ :: _ :: []), _.
  - right. rewrite (main_push env p Hyarn Hpr). fold yarn t0.
    eexists (push_block env t0), _, (started ++ [YarnChecks "checks.js" true]),
      push_commands.
    split_and!.
    + rewrite <- !app_assoc. reflexivity.
    + by eexists.
    + done.
    + done.
    + done.
    + apply push_block_runs.
    + apply push_block_stops.
    + apply push_block_timed.
    + apply push_commands_sublist.
Qed.

(** X6.  How [main] ends, on every path.  A run starts with the reading
    of the clock for the timer of the job.  When it returns, every command
    it ran passed, no timer is left running, and the run ends with the stop
    of the timer of the job: a second reading of the clock, then the line
    with the time elapsed since the first reading; [process.exitCode] is
    then as it was, or it is 1 and no child process was run.  Otherwise the
    process ends with the status, not 0, of a command that failed: this
    child process is the last event, every command before it passed, two
    timers are left running, the one of the command and the one of the job,
    and [process.exitCode] is as it was. *)
Theorem checks_endings {Sys} (env : Env Sys) (p : Proc Sys) :
  let t0 := (clock env (sys p)).1 in
  let r := Checks.main env p in
  (exists rest,
     emitted r =
       DateNow t0
       :: Log [Utils.nl +:+ bold env (yellow env "checks.js:");
               "Running"; cyan env "checks.js" +:+ "..."]
       :: rest) /\
  ((outcome r = Ret tt /\
    all_passed (emitted r) /\
    stopped_last env t0 (emitted r) /\
    open_timers (emitted r) = 0 /\
    (exitCode (final r) = exitCode p \/
     exitCode (final r) = Some 1 /\ commands (emitted r) = [])) \/
   (exists st cmd t,
      st ≠ 0 /\ outcome r = Exit st /\
      emitted r = t ++ [Spawn cmd st] /\ all_passed t /\
      open_timers (emitted r) = 2 /\
      exitCode (final r) = exitCode p)).
Proof.
  intros t0 r. unfold r, t0. clear r t0.
  assert (Hnone : forall (t : list Event), commands t = [] -> all_passed t).
  { intros t Ht cmd st Hin. apply spawn_commands in Hin.
    rewrite Ht in Hin. by apply elem_of_nil in Hin. }
  destruct (main_shape env p)
    as [(Ho & He & Hc & Hopen & Hstart & Hlast)
       |(m & q & pre & cmds & Hr & [rest Hstart] & Hpre & Hopen & Hq & Hm
         & Hstop & Htimed & _)].
  - split; [exact Hstart|]. left.
    split_and!; [done|by apply Hnone|done|done|]. by right.
  - rewrite Hr. cbn [outcome final emitted].
    split; [rewrite Hstart; by exists (rest ++ emitted (m q))|].
    destruct (Htimed q) as [Hret Hexit].
    destruct (Hm q)
      as [He [(Ho & Hc & Hp)|(st & pre' & cmd & post & t & Hst & Ho & Hc & Ht & Hpre' & Hp)]].
    + left. split_and!.
      * done.
      * apply all_passed_app; [by apply Hnone|done].
      * destruct (Hstop q Ho) as (pre0 & endTime & Hend).
        exists (pre ++ pre0), endTime. rewrite Hend. apply app_assoc.
      * rewrite open_timers_app, Hopen, Hret by (by exists tt). done.
      * left. congruence.
    + right. exists st, cmd, (pre ++ t).
      split_and!; [done|done| | | |congruence].
      * rewrite Ht. apply app_assoc.
      * apply all_passed_app; [by apply Hnone|done].
      * rewrite open_timers_app, Hopen, (Hexit st Ho). done.
Qed.

(** X7.  Whatever the build and whatever the commands do, the child
    processes of [main] are gulp commands of [all_commands], started in
    the order of the source and each at most once. *)
Theorem checks_commands_in_source_order {Sys} (env : Env Sys) (p : Proc Sys) :
  let r := Checks.main env p in
  commands (emitted r) `sublist_of` all_commands /\
  NoDup (commands (emitted r)).
Proof.
  intros r. unfold r. clear r.
  assert (Hsub : commands (emitted (Checks.main env p)) `sublist_of` all_commands).
  { destruct (main_shape env p)
      as [(_ & _ & Hc & _)
         |(m & q & pre & cmds & Hr & _ & Hpre & _ & _ & Hm & _ & _ & Hsub)].
    - rewrite Hc. apply sublist_nil_l.
    - rewrite Hr. cbn [emitted]. rewrite commands_app, Hpre. cbn [app].
      etransitivity; [by apply runs_fatally_sublist|done]. }
  split; [done|].
  eapply sublist_NoDup; [apply all_commands_NoDup|done].
Qed.

(** ** Runs whose commands pass *)

Lemma timedExecOrDie_from_shell {Sys} (env : Env Sys) cmd file (p : Proc Sys) :
  Forall (from_shell env) (emitted (Utils.timedExecOrDie env cmd file p)).
Proof.
  rewrite timedExecOrDie_run.
  destruct (_ =? 0); cbn [emitted app]; repeat constructor; by eexists.
Qed.

Lemma push_block_from_shell {Sys} (env : Env Sys) start (p : Proc Sys) :
  Forall (from_shell env) (emitted (push_block env start p)).
Proof.
  unfold push_block, Checks.timedExecOrDie.
  repeat first [ apply timedExecOrDie_from_shell | progress from_shell_steps ].
Qed.

Lemma pr_block_from_shell {Sys} (env : Env Sys) targets start (p : Proc Sys) :
  Forall (from_shell env) (emitted (pr_block env targets start p)).
Proof.
  unfold pr_block, Checks.timedExecOrDie.
  repeat first
    [ apply timedExecOrDie_from_shell
    | progress from_shell_steps
    | match goal with |- context [has ?t ?x] => destruct (has t x) end ].
Qed.

(** A fatal sequence whose commands all pass returns. *)
Lemma runs_fatally_returns {Sys} (env : Env Sys) (m : M Sys unit) cmds p :
  runs_fatally m cmds ->
  Forall (from_shell env) (emitted (m p)) ->
  (forall cmd s, cmd ∈ cmds -> (shell env cmd s).1 = 0) ->
  outcome (m p) = Ret tt /\ commands (emitted (m p)) = cmds.
Proof.
  intros Hm Hshell Hpass.
  destruct (Hm p) as [_ [(Ho & Hc & _)|(st & pre & cmd & post & t & Hst & _ & Hc & Ht & _)]];
    [done|].
  exfalso. apply Hst. rewrite Ht in Hshell.
  apply Forall_app in Hshell as [_ Hshell].
  apply Forall_cons in Hshell as [[s Hs] _].
  rewrite <- Hs. apply Hpass. rewrite Hc.
  apply elem_of_app. right. apply list_elem_of_here.
Qed.

(** A script of logs and commands whose fatal commands all pass returns. *)
Lemma possible_returns {Sys} (env : Env Sys) l o t :
  possible l o t ->
  Forall (fun s => s ≠ SSignal /\ forall d, s ≠ SReplaceUrls d) l ->
  Forall (from_shell env) t ->
  (forall cmd s, SExecOrDie cmd ∈ l -> (shell env cmd s).1 = 0) ->
  o = Ret tt.
Proof.
  intros Hposs Hl Hshell Hpass.
  destruct (possible_outcome _ _ _ Hposs Hl)
    as [->|(cmd & st & Hst & _ & Hin & Hlast)]; [done|].
  exfalso. apply Hst.
  apply last_Some in Hlast as [t' ->].
  apply Forall_app in Hshell as [_ Hshell].
  apply Forall_cons in Hshell as [[s Hs] _].
  rewrite <- Hs. by apply Hpass.
Qed.

Lemma upload_steps_plain {Sys} (env : Env Sys) fn file dirs :
  Forall (fun s => s ≠ SSignal /\ forall d, s ≠ SReplaceUrls d)
         (upload_steps env fn file dirs).
Proof.
  unfold upload_steps, pack_steps, auth_steps, auth_commands. simpl.
  repeat constructor; done.
Qed.

Lemma download_steps_plain {Sys} (env : Env Sys) fn file dirs :
  Forall (fun s => s ≠ SSignal /\ forall d, s ≠ SReplaceUrls d)
         (download_steps env fn file dirs).
Proof.
  unfold download_steps, auth_steps, auth_commands. simpl.
  repeat constructor; done.
Qed.

Lemma upload_fatal_not_echo {Sys} (env : Env Sys) fn file dirs cmd :
  SExecOrDie cmd ∈ upload_steps env fn file dirs ->
  Js.startsWith cmd "echo " = false.
Proof.
  unfold upload_steps, pack_steps, auth_steps, auth_commands. simpl.
  intros Hin.
  repeat (apply elem_of_cons in Hin as [Hin|Hin];
          [first [discriminate | by injection Hin as ->]|]).
  by apply elem_of_nil in Hin.
Qed.

Lemma download_fatal_not_echo {Sys} (env : Env Sys) fn file dirs cmd :
  SExecOrDie cmd ∈ download_steps env fn file dirs ->
  Js.startsWith cmd "echo " = false.
Proof.
  unfold download_steps, auth_steps, auth_commands. simpl.
  intros Hin.
  repeat (apply elem_of_cons in Hin as [Hin|Hin];
          [first [discriminate | by injection Hin as ->]|]).
  by apply elem_of_nil in Hin.
Qed.

Lemma uploadOutput_returns {Sys} (env : Env Sys) fn file dirs (p : Proc Sys) :
  (forall cmd s, Js.startsWith cmd "echo " = false -> (shell env cmd s).1 = 0) ->
  let r := Utils.uploadOutput_ env fn file dirs p in
  outcome r = Ret tt /\
  commands (emitted r) = upload_commands env file dirs /\
  exitCode (final r) = exitCode p.
Proof.
  intros Hpass r.
  assert (Ho : outcome r = Ret tt).
  { apply (possible_returns env _ _ _ (upload_runs env fn file dirs p)).
    - apply upload_steps_plain.
    - apply uploadOutput_from_shell.
    - intros cmd s Hin. apply Hpass. by eapply upload_fatal_not_echo. }
  split_and!; [done| |apply uploadOutput_keeps].
  apply (possible_commands_complete _ _ _ (upload_runs env fn file dirs p)).
  by exists tt.
Qed.

Lemma downloadOutput_returns {Sys} (env : Env Sys) fn file dirs (p : Proc Sys) :
  (forall cmd s, Js.startsWith cmd "echo " = false -> (shell env cmd s).1 = 0) ->
  let r := Utils.downloadOutput_ env fn file dirs p in
  outcome r = Ret tt /\
  commands (emitted r) = download_commands env file dirs /\
  exitCode (final r) = exitCode p.
Proof.
  intros Hpass r.
  assert (Ho : outcome r = Ret tt).
  { apply (possible_returns env _ _ _ (download_runs env fn file dirs p)).
    - apply download_steps_plain.
    - apply downloadOutput_from_shell.
    - intros cmd s Hin. apply Hpass. by eapply download_fatal_not_echo. }
  split_and!; [done| |apply downloadOutput_keeps].
  apply (possible_commands_complete _ _ _ (download_runs env fn file dirs p)).
  by exists tt.
Qed.

(** X8.  The transfers return when their tools pass.  The fold markers of
    the log, the [echo] commands, are run with [exec] and their status is
    ignored; every other command is fatal.  So when every command other
    than an [echo] passes, each of the four entry points returns after
    having run all of its commands, whatever the status of the markers, and
    [process.exitCode] is left as it was. *)
Theorem transfers_return_when_their_tools_pass {Sys} (env : Env Sys)
    (fn : string) (p : Proc Sys) :
  (forall cmd s, Js.startsWith cmd "echo " = false -> (shell env cmd s).1 = 0) ->
  forall m cmds,
    (m, cmds) ∈
      [(Utils.uploadBuildOutput env fn,
        upload_commands env (Utils.BUILD_OUTPUT_FILE env) Utils.BUILD_OUTPUT_DIRS);
       (Utils.uploadDistOutput env fn,
        upload_commands env (Utils.DIST_OUTPUT_FILE env) Utils.DIST_OUTPUT_DIRS);
       (Utils.downloadBuildOutput env fn,
        download_commands env (Utils.BUILD_OUTPUT_FILE env) Utils.BUILD_OUTPUT_DIRS);
       (Utils.downloadDistOutput env fn,
        download_commands env (Utils.DIST_OUTPUT_FILE env) Utils.DIST_OUTPUT_DIRS)] ->
    let r := m p in
    outcome r = Ret tt /\
    commands (emitted r) = cmds /\
    exitCode (final r) = exitCode p.
Proof.
  intros Hpass m cmds Hin.
  repeat (apply elem_of_cons in Hin as [Hin|Hin];
          [injection Hin as -> ->;
           first [ by apply uploadOutput_returns
                 | by apply downloadOutput_returns ]|]).
  by apply elem_of_nil in Hin.
Qed.

(** X9.  The checks job passes when its commands pass.  After yarn checks
    that passed, and on a pull-request build for a branch with a creation
    point, if every gulp command of the job exits with status 0 then [main]
    returns, [process.exitCode] is left as it was, and the commands run are
    all the commands of the build: the eleven of [push_commands], or on a
    pull-request build the ones selected by the build targets. *)
Theorem checks_pass_when_commands_pass {Sys} (env : Env Sys) (p : Proc Sys) :
  let yarn := yarnChecks env "checks.js" (clock env (sys p)).2 in
  let targets := (buildTargetsOf env "checks.js" yarn.2).1 in
  let r := Checks.main env p in
  yarn.1 = true ->
  (isTravisPullRequestBuild env = true ->
   Js.truthy (gitBranchCreationPoint env) = true) ->
  (forall cmd s, cmd ∈ all_commands -> (shell env cmd s).1 = 0) ->
  outcome r = Ret tt /\
  exitCode (final r) = exitCode p /\
  commands (emitted r) =
    if isTravisPullRequestBuild env then pr_commands targets
    else push_commands.
Proof.
  intros yarn targets r Hyarn Hpoint Hpass. unfold r.
  destruct (isTravisPullRequestBuild env) eqn:Hpr.
  - rewrite (main_pr env p Hyarn Hpr (Hpoint eq_refl)). fold yarn.
    cbn [outcome final emitted]. fold targets.
    set (q := mkProc (expectedTestsReport env targets _) (exitCode p)).
    destruct (runs_fatally_returns env _ _ q (pr_block_runs env targets (clock env (sys p)).1))
      as [Ho Hc].
    { apply pr_block_from_shell. }
    { intros cmd s Hin. apply Hpass.
      eapply elem_of_sublist; [exact Hin|apply pr_commands_sublist]. }
    split_and!; [done| |].
    + by destruct (pr_block_runs env targets (clock env (sys p)).1 q) as [He _].
    + rewrite !commands_app, printChangeSummary_commands. by rewrite Hc.
  - rewrite (main_push env p Hyarn Hpr). fold yarn.
    cbn [outcome final emitted].
    set (q := mkProc yarn.2 (exitCode p)).
    destruct (runs_fatally_returns env _ _ q (push_block_runs env (clock env (sys p)).1))
      as [Ho Hc].
    { apply push_block_from_shell. }
    { intros cmd s Hin. apply Hpass.
      eapply elem_of_sublist; [exact Hin|apply push_commands_sublist]. }
    split_and!; [done| |].
    + by destruct (push_block_runs env (clock env (sys p)).1 q) as [He _].
    + by rewrite !commands_app, Hc.
Qed.

(** ** The transfers, from the first command to the last *)

Section Transfers.
Context {Sys : Type} (env : Env Sys).

Lemma upload_fatal_commands fn file dirs cmd :
  SExecOrDie cmd ∈ upload_steps env fn file dirs ->
  cmd ∈ ("zip -r " +:+ file +:+ " " +:+ dirs)
        :: ("gsutil -m cp -r " +:+ file +:+ " gs://amp-travis-builds")
        :: auth_commands env.
Proof.
  unfold upload_steps, pack_steps, auth_steps, auth_commands. simpl.
  intros Hin.
  repeat (apply elem_of_cons in Hin as [Hin|Hin];
          [first [discriminate
                 | injection Hin as ->;
                   repeat first [apply list_elem_of_here
                                | apply list_elem_of_further]]|]).
  by apply elem_of_nil in Hin.
Qed.

Lemma download_fatal_commands fn file dirs cmd :
  SExecOrDie cmd ∈ download_steps env fn file dirs ->
  cmd ∈ ("gsutil cp gs://amp-travis-builds/" +:+ file +:+ " " +:+ file)
        :: ("unzip -o " +:+ file)
        :: ("ls -laR " +:+ dirs)
        :: auth_commands env.
Proof.
  unfold download_steps, auth_steps, auth_commands. simpl.
  intros Hin.
  repeat (apply elem_of_cons in Hin as [Hin|Hin];
          [first [discriminate
                 | injection Hin as ->;
                   repeat first [apply list_elem_of_here
                                | apply list_elem_of_further]]|]).
  by apply elem_of_nil in Hin.
Qed.

(** An upload packs in every run; it ends by returning or on one of its
    fatal commands that failed; and it runs to its end when they pass. *)
Lemma upload_complete fn file dirs (p : Proc Sys) :
  let r := Utils.uploadOutput_ env fn file dirs p in
  let zip := "zip -r " +:+ file +:+ " " +:+ dirs in
  let copy := "gsutil -m cp -r " +:+ file +:+ " gs://amp-travis-builds" in
  (exists st, Spawn zip st ∈ emitted r) /\
  (outcome r = Ret tt \/
   exists cmd st, st ≠ 0 /\ outcome r = Exit st /\
                  cmd ∈ zip :: copy :: auth_commands env /\
                  last (emitted r) = Some (Spawn cmd st)) /\
  ((forall cmd s, cmd ∈ zip :: copy :: auth_commands env ->
                  (shell env cmd s).1 = 0) ->
   outcome r = Ret tt /\
   commands (emitted r) = upload_commands env file dirs).
Proof.
  intros r zip copy.
  pose proof (upload_runs env fn file dirs p) as H. fold r in H.
  split_and!.
  - apply (upload_always_packs env fn file dirs p).
  - destruct (possible_outcome _ _ _ H (upload_steps_plain env fn file dirs))
      as [Ho|(c & st & Hst & Ho & Hin & Hlast)]; [by left|].
    right. exists c, st. split_and!; try done.
    by eapply upload_fatal_commands.
  - intros Hpass.
    assert (Ho : outcome r = Ret tt).
    { apply (possible_returns env _ _ _ H).
      - apply upload_steps_plain.
      - apply uploadOutput_from_shell.
      - intros cmd s Hin. apply Hpass. by eapply upload_fatal_commands. }
    split; [done|].
    apply (possible_commands_complete _ _ _ H). by exists tt.
Qed.

(** A download starts its authentication in every run; it ends by returning
    or on one of its fatal commands that failed; and it runs to its end when
    they pass. *)
Lemma download_complete fn file dirs (p : Proc Sys) :
  let r := Utils.downloadOutput_ env fn file dirs p in
  let copy := "gsutil cp gs://amp-travis-builds/" +:+ file +:+ " " +:+ file in
  let extract := "unzip -o " +:+ file in
  let listing := "ls -laR " +:+ dirs in
  (exists st,
     Spawn ("openssl aes-256-cbc -md sha256 -k " +:+ Js.template (GCP_TOKEN env) +:+
            " -in build-system/sa-travis-key.json.enc -out sa-travis-key.json -d")
           st ∈ emitted r) /\
  (outcome r = Ret tt \/
   exists cmd st, st ≠ 0 /\ outcome r = Exit st /\
                  cmd ∈ copy :: extract :: listing :: auth_commands env /\
                  last (emitted r) = Some (Spawn cmd st)) /\
  ((forall cmd s, cmd ∈ copy :: extract :: listing :: auth_commands env ->
                  (shell env cmd s).1 = 0) ->
   outcome r = Ret tt /\
   commands (emitted r) = download_commands env file dirs).
Proof.
  intros r copy extract listing.
  pose proof (download_runs env fn file dirs p) as H. fold r in H.
  split_and!.
  - apply (download_always_starts env fn file dirs p).
  - destruct (possible_outcome _ _ _ H (download_steps_plain env fn file dirs))
      as [Ho|(c & st & Hst & Ho & Hin & Hlast)]; [by left|].
    right. exists c, st. split_and!; try done.
    by eapply download_fatal_commands.
  - intros Hpass.
    assert (Ho : outcome r = Ret tt).
    { apply (possible_returns env _ _ _ H).
      - apply download_steps_plain.
      - apply downloadOutput_from_shell.
      - intros cmd s Hin. apply Hpass. by eapply download_fatal_commands. }
    split; [done|].
    apply (possible_commands_complete _ _ _ H). by exists tt.
Qed.

End Transfers.

(** C1 (as corrected).  Each upload entry point, [uploadBuildOutput] and
    [uploadDistOutput], packs its directory set into its archive, then
    authenticates, then copies the archive to the bucket.  The packing
    command is run in every run.  The commands of a run are the first ones
    of the list up to a failure, and all of them when the run returns;
    whenever the copy is run, a complete authentication whose commands all
    passed comes immediately before it, after a packing that passed.  A run
    ends by returning, or on the packing, an authentication command or the
    copy that failed, this child process being the last event and its
    status the exit status; and when these commands pass, whatever the fold
    markers do, the run returns after all the commands of the list.  The
    copy command names the archive as its source and the bucket
    [gs://amp-travis-builds] itself as its destination.  With run-id
    ["1234"] on a Travis build, an upload of the Build archive whose
    commands pass, and any that returns, ran exactly the commands below:
    one authentication, then one copy of [amp_build_1234.zip] to
    [gs://amp-travis-builds]. *)
Theorem upload_pack_authenticate_copy {Sys} (env : Env Sys) (fn : string)
    (p : Proc Sys) :
  (forall m file dirs,
     (m, file, dirs) ∈
       [(Utils.uploadBuildOutput env fn,
         Utils.BUILD_OUTPUT_FILE env, Utils.BUILD_OUTPUT_DIRS);
        (Utils.uploadDistOutput env fn,
         Utils.DIST_OUTPUT_FILE env, Utils.DIST_OUTPUT_DIRS)] ->
     let r := m p in
     let zip := "zip -r " +:+ file +:+ " " +:+ dirs in
     let copy := "gsutil -m cp -r " +:+ file +:+ " gs://amp-travis-builds" in
     let cmds :=
       ["echo travis_fold:start:zip_results && echo";
        zip;
        "echo travis_fold:end:zip_results";
        "echo travis_fold:start:upload_results && echo"]
       ++ auth_commands env
       ++ [copy; "echo travis_fold:end:upload_results"] in
     commands (emitted r) `prefix_of` cmds /\
     (returns (outcome r) -> commands (emitted r) = cmds) /\
     (forall pre st post,
        emitted r = pre ++ Spawn copy st :: post ->
        exists pre', pre = pre' ++ passed (auth_commands env) /\
                     Spawn zip 0 ∈ pre') /\
     (forall cmd st, cmd ∈ zip :: copy :: auth_commands env ->
        Spawn cmd st ∈ emitted r -> st ≠ 0 -> outcome r = Exit st) /\
     (exists st, Spawn zip st ∈ emitted r) /\
     (outcome r = Ret tt \/
      exists cmd st, st ≠ 0 /\ outcome r = Exit st /\
                     cmd ∈ zip :: copy :: auth_commands env /\
                     last (emitted r) = Some (Spawn cmd st)) /\
     ((forall cmd s, cmd ∈ zip :: copy :: auth_commands env ->
                     (shell env cmd s).1 = 0) ->
      outcome r = Ret tt /\ commands (emitted r) = cmds)) /\
  (isTravisBuild env = true -> travisBuildNumber env = "1234" ->
   let r := Utils.uploadBuildOutput env fn p in
   let ran :=
     ["echo travis_fold:start:zip_results && echo";
      "zip -r amp_build_1234.zip build/ dist/ dist.3p/ EXTENSIONS_CSS_MAP";
      "echo travis_fold:end:zip_results";
      "echo travis_fold:start:upload_results && echo";
      "openssl aes-256-cbc -md sha256 -k " +:+ Js.template (GCP_TOKEN env) +:+
        " -in build-system/sa-travis-key.json.enc -out sa-travis-key.json -d";
      "gcloud auth activate-service-account --key-file sa-travis-key.json";
      "gcloud config set account sa-travis@amp-travis-build-storage.iam.gserviceaccount.com";
      "gcloud config set pass_credentials_to_gsutil true";
      "gcloud config set project amp-travis-build-storage";
      "gcloud config list";
      "gsutil -m cp -r amp_build_1234.zip gs://amp-travis-builds";
      "echo travis_fold:end:upload_results"] in
   Utils.BUILD_OUTPUT_FILE env = "amp_build_1234.zip" /\
   (returns (outcome r) -> commands (emitted r) = ran) /\
   ((forall cmd s, Js.startsWith cmd "echo " = false ->
                   (shell env cmd s).1 = 0) ->
    outcome r = Ret tt /\ commands (emitted r) = ran)).
Proof.
  split.
  - intros m file dirs Hin.
    assert (Hm : m = Utils.uploadOutput_ env fn file dirs).
    { apply elem_of_cons in Hin as [Hin|Hin];
        [| apply elem_of_cons in Hin as [Hin|Hin];
           [| by apply elem_of_nil in Hin]];
        by inversion Hin. }
    subst m. intros r zip copy cmds.
    destruct (upload_order env fn file dirs p) as (H1 & H2 & H3 & H4).
    destruct (upload_complete env fn file dirs p) as (H5 & H6 & H7).
    split_and!; done.
  - intros Htravis Hrun r ran.
    assert (Hfile : Utils.BUILD_OUTPUT_FILE env = "amp_build_1234.zip").
    { unfold Utils.BUILD_OUTPUT_FILE. by rewrite Htravis, Hrun. }
    destruct (upload_order env fn (Utils.BUILD_OUTPUT_FILE env)
                Utils.BUILD_OUTPUT_DIRS p) as (_ & Hall & _).
    split_and!; [done| |].
    + intros Hr. unfold r, Utils.uploadBuildOutput.
      rewrite (Hall Hr), Hfile. reflexivity.
    + intros Hpass.
      destruct (uploadOutput_returns env fn (Utils.BUILD_OUTPUT_FILE env)
                  Utils.BUILD_OUTPUT_DIRS p Hpass) as (Ho & Hc & _).
      split; [exact Ho|].
      unfold r, Utils.uploadBuildOutput. rewrite Hc, Hfile. reflexivity.
Qed.

(** C2.  Each download entry point, [downloadBuildOutput] and
    [downloadDistOutput], authenticates, copies the archive object from the
    bucket to the local disk, extracts it in place over the existing files
    ([unzip -o]), then lists the expected output directories recursively.
    The authentication is started in every run.  The commands of a run are
    the first ones of the list up to a failure, and all of them when the
    run returns.  Each of these steps is fatal: a run ends by returning, or
    on an authentication command, the copy, the extraction or the listing
    that failed, this child process being the last event and its status the
    exit status; in particular a listing that fails ends the process.  When
    these commands pass, whatever the fold markers do, the run returns
    after all the commands of the list. *)
Theorem download_authenticate_copy_extract_list {Sys} (env : Env Sys)
    (fn : string) (p : Proc Sys) :
  forall m file dirs,
    (m, file, dirs) ∈
      [(Utils.downloadBuildOutput env fn,
        Utils.BUILD_OUTPUT_FILE env, Utils.BUILD_OUTPUT_DIRS);
       (Utils.downloadDistOutput env fn,
        Utils.DIST_OUTPUT_FILE env, Utils.DIST_OUTPUT_DIRS)] ->
    let r := m p in
    let copy := "gsutil cp gs://amp-travis-builds/" +:+ file +:+ " " +:+ file in
    let extract := "unzip -o " +:+ file in
    let listing := "ls -laR " +:+ dirs in
    let cmds :=
      ["echo travis_fold:start:download_results && echo"]
      ++ auth_commands env
      ++ [copy;
          "echo travis_fold:end:download_results";
          "echo travis_fold:start:unzip_results && echo";
          extract;
          "echo travis_fold:end:unzip_results";
          "echo travis_fold:start:verify_unzip_results && echo";
          listing;
          "echo travis_fold:end:verify_unzip_results"] in
    commands (emitted r) `prefix_of` cmds /\
    (returns (outcome r) -> commands (emitted r) = cmds) /\
    (forall cmd st, cmd ∈ copy :: extract :: listing :: auth_commands env ->
       Spawn cmd st ∈ emitted r -> st ≠ 0 ->
       outcome r = Exit st /\ last (emitted r) = Some (Spawn cmd st)) /\
    (forall st, Spawn listing st ∈ emitted r -> st ≠ 0 ->
       outcome r = Exit st /\ last (emitted r) = Some (Spawn listing st)) /\
    (outcome r = Ret tt \/ exists st, st ≠ 0 /\ outcome r = Exit st) /\
    (exists st,
       Spawn ("openssl aes-256-cbc -md sha256 -k " +:+
              Js.template (GCP_TOKEN env) +:+
              " -in build-system/sa-travis-key.json.enc -out sa-travis-key.json -d")
             st ∈ emitted r) /\
    (outcome r = Ret tt \/
     exists cmd st, st ≠ 0 /\ outcome r = Exit st /\
                    cmd ∈ copy :: extract :: listing :: auth_commands env /\
                    last (emitted r) = Some (Spawn cmd st)) /\
    ((forall cmd s, cmd ∈ copy :: extract :: listing :: auth_commands env ->
                    (shell env cmd s).1 = 0) ->
     outcome r = Ret tt /\ commands (emitted r) = cmds).
Proof.
  intros m file dirs Hin.
  assert (Hm : m = Utils.downloadOutput_ env fn file dirs).
  { apply elem_of_cons in Hin as [Hin|Hin];
      [| apply elem_of_cons in Hin as [Hin|Hin];
         [| by apply elem_of_nil in Hin]];
      by inversion Hin. }
  subst m. intros r copy extract listing cmds.
  destruct (download_order env fn file dirs p) as (H1 & H2 & H3 & H4).
  destruct (download_complete env fn file dirs p) as (H5 & H6 & H7).
  split_and!; try done.
  intros st. apply H3. do 2 apply list_elem_of_further. apply list_elem_of_here.
Qed.

(** The two uploads of the run 1234 when every command passes, and an
    upload whose copy fails. *)
Lemma upload_pack_authenticate_copy_witness :
  isTravisBuild travis_1234 = true /\
  travisBuildNumber travis_1234 = "1234" /\
  (forall cmd s, (shell travis_1234 cmd s).1 = 0) /\
  outcome (Utils.uploadBuildOutput travis_1234 "build.js" new_process) = Ret tt /\
  commands (emitted (Utils.uploadBuildOutput travis_1234 "build.js" new_process)) =
    ["echo travis_fold:start:zip_results && echo";
     "zip -r amp_build_1234.zip build/ dist/ dist.3p/ EXTENSIONS_CSS_MAP";
     "echo travis_fold:end:zip_results";
     "echo travis_fold:start:upload_results && echo";
     "openssl aes-256-cbc -md sha256 -k secret -in build-system/sa-travis-key.json.enc -out sa-travis-key.json -d";
     "gcloud auth activate-service-account --key-file sa-travis-key.json";
     "gcloud config set account sa-travis@amp-travis-build-storage.iam.gserviceaccount.com";
     "gcloud config set pass_credentials_to_gsutil true";
     "gcloud config set project amp-travis-build-storage";
     "gcloud config list";
     "gsutil -m cp -r amp_build_1234.zip gs://amp-travis-builds";
     "echo travis_fold:end:upload_results"] /\
  outcome (Utils.uploadDistOutput travis_1234 "dist.js" new_process) = Ret tt /\
  commands (emitted (Utils.uploadDistOutput travis_1234 "dist.js" new_process)) =
    ["echo travis_fold:start:zip_results && echo";
     "zip -r amp_dist_1234.zip build/ dist/ dist.3p/ dist.tools/ EXTENSIONS_CSS_MAP examples/ test/manual/";
     "echo travis_fold:end:zip_results";
     "echo travis_fold:start:upload_results && echo";
     "openssl aes-256-cbc -md sha256 -k secret -in build-system/sa-travis-key.json.enc -out sa-travis-key.json -d";
     "gcloud auth activate-service-account --key-file sa-travis-key.json";
     "gcloud config set account sa-travis@amp-travis-build-storage.iam.gserviceaccount.com";
     "gcloud config set pass_credentials_to_gsutil true";
     "gcloud config set project amp-travis-build-storage";
     "gcloud config list";
     "gsutil -m cp -r amp_dist_1234.zip gs://amp-travis-builds";
     "echo travis_fold:end:upload_results"] /\
  outcome (Utils.uploadDistOutput copy_refused "dist.js" new_process) = Exit 1 /\
  last (emitted (Utils.uploadDistOutput copy_refused "dist.js" new_process)) =
    Some (Spawn "gsutil -m cp -r amp_dist_1234.zip gs://amp-travis-builds" 1).
Proof.
  assert (Hpass : forall cmd (s : Z), (shell travis_1234 cmd s).1 = 0)
    by (intros cmd s; reflexivity).
  split; [reflexivity |]. split; [reflexivity |]. split; [exact Hpass |].
  destruct (upload_pack_authenticate_copy travis_1234 "build.js" new_process)
    as (Hentry & Hbuild).
  destruct (Hbuild eq_refl eq_refl) as (_ & _ & Hrun).
  destruct (Hrun ltac:(intros cmd s Hcmd; exact (Hpass cmd s))) as (Ho & Hc).
  split; [exact Ho |]. split; [exact Hc |].
  destruct (upload_pack_authenticate_copy travis_1234 "dist.js" new_process)
    as (Hdist & _).
  destruct (Hdist (Utils.uploadDistOutput travis_1234 "dist.js")
              (Utils.DIST_OUTPUT_FILE travis_1234) Utils.DIST_OUTPUT_DIRS
              (list_elem_of_further _ _ _ (list_elem_of_here _ _)))
    as (_ & _ & _ & _ & _ & _ & Hlive).
  destruct (Hlive ltac:(intros cmd s Hcmd; exact (Hpass cmd s))) as (Ho' & Hc').
  split; [exact Ho' |]. split; [exact Hc' |].
  destruct (upload_pack_authenticate_copy copy_refused "dist.js" new_process)
    as (Hrefused & _).
  destruct (Hrefused (Utils.uploadDistOutput copy_refused "dist.js")
              (Utils.DIST_OUTPUT_FILE copy_refused) Utils.DIST_OUTPUT_DIRS
              (list_elem_of_further _ _ _ (list_elem_of_here _ _)))
    as (_ & _ & _ & Hfatal & _ & Hend & _).
  assert (Hin : Spawn "gsutil -m cp -r amp_dist_1234.zip gs://amp-travis-builds" 1
                ∈ emitted (Utils.uploadDistOutput copy_refused "dist.js" new_process)).
  { vm_compute. do 12 apply list_elem_of_further. apply list_elem_of_here. }
  assert (Hexit : outcome (Utils.uploadDistOutput copy_refused "dist.js" new_process)
                  = Exit 1).
  { apply (Hfatal "gsutil -m cp -r amp_dist_1234.zip gs://amp-travis-builds" 1);
      [apply list_elem_of_further, list_elem_of_here | exact Hin | discriminate]. }
  split; [exact Hexit |].
  destruct Hend as [Hret | (cmd & st & _ & _ & _ & Hlast)].
  - rewrite Hexit in Hret. discriminate Hret.
  - pose proof Hlast as Hsame. vm_compute in Hsame.
    injection Hsame as <- <-. exact Hlast.
Defined.

(** The two downloads of the run 1234 when every command passes, and a
    download whose listing fails. *)
Lemma download_authenticate_copy_extract_list_witness :
  (forall cmd s, (shell travis_1234 cmd s).1 = 0) /\
  outcome (Utils.downloadBuildOutput travis_1234 "build.js" new_process) = Ret tt /\
  commands (emitted (Utils.downloadBuildOutput travis_1234 "build.js" new_process)) =
    ["echo travis_fold:start:download_results && echo";
     "openssl aes-256-cbc -md sha256 -k secret -in build-system/sa-travis-key.json.enc -out sa-travis-key.json -d";
     "gcloud auth activate-service-account --key-file sa-travis-key.json";
     "gcloud config set account sa-travis@amp-travis-build-storage.iam.gserviceaccount.com";
     "gcloud config set pass_credentials_to_gsutil true";
     "gcloud config set project amp-travis-build-storage";
     "gcloud config list";
     "gsutil cp gs://amp-travis-builds/amp_build_1234.zip amp_build_1234.zip";
     "echo travis_fold:end:download_results";
     "echo travis_fold:start:unzip_results && echo";
     "unzip -o amp_build_1234.zip";
     "echo travis_fold:end:unzip_results";
     "echo travis_fold:start:verify_unzip_results && echo";
     "ls -laR build/ dist/ dist.3p/ EXTENSIONS_CSS_MAP";
     "echo travis_fold:end:verify_unzip_results"] /\
  outcome (Utils.downloadDistOutput travis_1234 "dist.js" new_process) = Ret tt /\
  commands (emitted (Utils.downloadDistOutput travis_1234 "dist.js" new_process)) =
    ["echo travis_fold:start:download_results && echo";
     "openssl aes-256-cbc -md sha256 -k secret -in build-system/sa-travis-key.json.enc -out sa-travis-key.json -d";
     "gcloud auth activate-service-account --key-file sa-travis-key.json";
     "gcloud config set account sa-travis@amp-travis-build-storage.iam.gserviceaccount.com";
     "gcloud config set pass_credentials_to_gsutil true";
     "gcloud config set project amp-travis-build-storage";
     "gcloud config list";
     "gsutil cp gs://amp-travis-builds/amp_dist_1234.zip amp_dist_1234.zip";
     "echo travis_fold:end:download_results";
     "echo travis_fold:start:unzip_results && echo";
     "unzip -o amp_dist_1234.zip";
     "echo travis_fold:end:unzip_results";
     "echo travis_fold:start:verify_unzip_results && echo";
     "ls -laR build/ dist/ dist.3p/ dist.tools/ EXTENSIONS_CSS_MAP examples/ test/manual/";
     "echo travis_fold:end:verify_unzip_results"] /\
  Spawn "ls -laR build/ dist/ dist.3p/ dist.tools/ EXTENSIONS_CSS_MAP examples/ test/manual/" 2
    ∈ emitted (Utils.downloadDistOutput travis_unlisted "dist.js" new_process) /\
  outcome (Utils.downloadDistOutput travis_unlisted "dist.js" new_process) = Exit 2 /\
  last (emitted (Utils.downloadDistOutput travis_unlisted "dist.js" new_process)) =
    Some (Spawn "ls -laR build/ dist/ dist.3p/ dist.tools/ EXTENSIONS_CSS_MAP examples/ test/manual/" 2).
Proof.
  assert (Hpass : forall cmd (s : Z), (shell travis_1234 cmd s).1 = 0)
    by (intros cmd s; reflexivity).
  split; [exact Hpass |].
  destruct (download_authenticate_copy_extract_list travis_1234 "build.js"
              new_process (Utils.downloadBuildOutput travis_1234 "build.js")
              (Utils.BUILD_OUTPUT_FILE travis_1234) Utils.BUILD_OUTPUT_DIRS
              (list_elem_of_here _ _))
    as (_ & _ & _ & _ & _ & _ & _ & Hlive).
  destruct (Hlive ltac:(intros cmd s Hcmd; exact (Hpass cmd s))) as (Ho & Hc).
  split; [exact Ho |]. split; [exact Hc |].
  destruct (download_authenticate_copy_extract_list travis_1234 "dist.js"
              new_process (Utils.downloadDistOutput travis_1234 "dist.js")
              (Utils.DIST_OUTPUT_FILE travis_1234) Utils.DIST_OUTPUT_DIRS
              (list_elem_of_further _ _ _ (list_elem_of_here _ _)))
    as (_ & _ & _ & _ & _ & _ & _ & Hlive').
  destruct (Hlive' ltac:(intros cmd s Hcmd; exact (Hpass cmd s))) as (Ho' & Hc').
  split; [exact Ho' |]. split; [exact Hc' |].
  assert (Hin : Spawn "ls -laR build/ dist/ dist.3p/ dist.tools/ EXTENSIONS_CSS_MAP examples/ test/manual/" 2
                ∈ emitted (Utils.downloadDistOutput travis_unlisted "dist.js" new_process)).
  { vm_compute. do 16 apply list_elem_of_further. apply list_elem_of_here. }
  split; [exact Hin |].
  refine (proj1 (proj2 (proj2 (proj2
    (download_authenticate_copy_extract_list travis_unlisted "dist.js" new_process
       (Utils.downloadDistOutput travis_unlisted "dist.js")
       (Utils.DIST_OUTPUT_FILE travis_unlisted) Utils.DIST_OUTPUT_DIRS
       _)))) 2 Hin _).
  - apply list_elem_of_further, list_elem_of_here.
  - discriminate.
Defined.

(** ** The elapsed time *)

(** X10.  The time that [stopTimer] prints is the elapsed time truncated to
    the second, as long as the clock did not go back: the seconds are
    between 0 and 59 and the printed duration is at most the elapsed one,
    by less than a second.  When the clock went back by other than whole
    minutes, the minutes are rounded down and the seconds of the remainder
    are negative and rounded down too, so that the printed duration is the
    elapsed one minus one minute, truncated to the second: an elapsed time
    of -1 ms prints [-1m -1s]. *)
Theorem elapsed_time_is_truncated (t : Z) :
  let mins := Js.floor_div t 60000 in
  let secs := Js.floor_div (Js.remainder t 60000) 1000 in
  Utils.elapsed_text t =
    Js.of_number mins +:+ "m " +:+ Js.of_number secs +:+ "s" /\
  (0 <= t ->
   0 <= mins /\ 0 <= secs < 60 /\
   60000 * mins + 1000 * secs <= t < 60000 * mins + 1000 * secs + 1000) /\
  (t < 0 -> Js.remainder t 60000 ≠ 0 ->
   mins < 0 /\ -60 <= secs < 0 /\
   60000 * mins + 1000 * secs <= t - 60000
     < 60000 * mins + 1000 * secs + 1000).
Proof.
  intros mins secs. unfold mins, secs, Js.floor_div, Js.remainder.
  split; [reflexivity|]. split.
  - intros Ht. rewrite Z.rem_mod_nonneg by lia.
    pose proof (Z.div_mod t 60000).
    pose proof (Z.mod_pos_bound t 60000).
    pose proof (Z.div_mod (t `mod` 60000) 1000).
    pose proof (Z.mod_pos_bound (t `mod` 60000) 1000).
    lia.
  - intros Ht Hrem.
    pose proof (Z.rem_opp_l' t 60000).
    pose proof (Z.rem_bound_pos (- t) 60000).
    pose proof (Z.quot_rem' t 60000).
    pose proof (Z.div_mod t 60000).
    pose proof (Z.mod_pos_bound t 60000).
    pose proof (Z.div_mod (t `rem` 60000) 1000).
    pose proof (Z.mod_pos_bound (t `rem` 60000) 1000).
    lia.
Qed.

(** ** The names of the archives *)

Lemma string_length_app (s t : string) :
  String.length (s +:+ t) = (String.length s + String.length t)%nat.
Proof. induction s as [|c s IH]; [done|]. simpl. by rewrite IH. Qed.

Lemma string_app_inv_tail (s1 s2 t : string) :
  s1 +:+ t = s2 +:+ t -> s1 = s2.
Proof.
  revert s2. induction s1 as [|c s1 IH]; intros [|d s2] Heq.
  - done.
  - apply (f_equal String.length) in Heq.
    rewrite !string_length_app in Heq. simpl in Heq. lia.
  - apply (f_equal String.length) in Heq.
    rewrite !string_length_app in Heq. simpl in Heq. lia.
  - simpl in Heq. injection Heq as -> Heq. f_equal. by apply IH.
Qed.

(** X11.  On Travis the names of the archives tell the runs and the kinds
    apart: the Build archive of a run is never the Dist archive of a run,
    and two runs have the same Build archive, or the same Dist archive,
    only when they have the same run-id.  Outside Travis all the names
    are the same, the empty string. *)
Theorem archive_names_tell_runs_apart {Sys Sys'} (env : Env Sys)
    (env' : Env Sys') :
  (isTravisBuild env = true -> isTravisBuild env' = true ->
   Utils.BUILD_OUTPUT_FILE env ≠ Utils.DIST_OUTPUT_FILE env' /\
   (Utils.BUILD_OUTPUT_FILE env = Utils.BUILD_OUTPUT_FILE env' ->
    travisBuildNumber env = travisBuildNumber env') /\
   (Utils.DIST_OUTPUT_FILE env = Utils.DIST_OUTPUT_FILE env' ->
    travisBuildNumber env = travisBuildNumber env')) /\
  (isTravisBuild env = false -> isTravisBuild env' = false ->
   Utils.BUILD_OUTPUT_FILE env = Utils.DIST_OUTPUT_FILE env' /\
   Utils.BUILD_OUTPUT_FILE env = Utils.BUILD_OUTPUT_FILE env').
Proof.
  unfold Utils.BUILD_OUTPUT_FILE, Utils.DIST_OUTPUT_FILE. split.
  - intros -> ->. split_and!.
    + discriminate.
    + intros Heq. apply (String.app_inj "amp_build_") in Heq.
      by apply string_app_inv_tail in Heq.
    + intros Heq. apply (String.app_inj "amp_dist_") in Heq.
      by apply string_app_inv_tail in Heq.
  - by intros -> ->.
Qed.

(** ** The secret of the storage key *)

Lemma execOrDie_run {Sys} (env : Env Sys) cmd (p : Proc Sys) :
  let ran := shell env cmd (sys p) in
  execOrDie env cmd p =
  mkRun (if ran.1 =? 0 then Ret tt else Exit ran.1)
        (mkProc ran.2 (exitCode p)) [Spawn cmd ran.1].
Proof.
  intros ran. unfold execOrDie, bind. rewrite exec_run. fold ran.
  cbn [outcome final emitted]. by destruct (ran.1 =? 0).
Qed.

(** X13.  The key of the cipher is not checked.  When [GCP_TOKEN] is not
    set, an authentication still starts with the decryption, run with the
    word [undefined] as the key; when that command fails it is the only
    one, and the process ends with its status. *)
Theorem missing_token_is_the_word_undefined {Sys} (env : Env Sys)
    (p : Proc Sys) :
  let r := Utils.authenticateWithStorageLocation_ env p in
  let decryption :=
    "openssl aes-256-cbc -md sha256 -k undefined -in build-system/sa-travis-key.json.enc -out sa-travis-key.json -d" in
  GCP_TOKEN env = None ->
  exists rest,
    emitted r = Spawn decryption (shell env decryption (sys p)).1 :: rest /\
    ((shell env decryption (sys p)).1 ≠ 0 ->
     rest = [] /\ outcome r = Exit (shell env decryption (sys p)).1).
Proof.
  intros r decryption Htoken.
  unfold r, Utils.authenticateWithStorageLocation_, Utils.decryptTravisKey_.
  rewrite Htoken. cbn [Js.template].
  change ("openssl aes-256-cbc -md sha256 -k " +:+ "undefined" +:+ " -in " +:+
          "build-system/sa-travis-key.json.enc -out " +:+
          Utils.OUTPUT_STORAGE_KEY_FILE +:+ " -d") with decryption.
  destruct (Z.eqb_spec (shell env decryption (sys p)).1 0) as [Hst|Hst].
  - unfold bind at 1. rewrite execOrDie_run.
    cbn [outcome final emitted]. rewrite Hst.
    cbn [outcome final emitted app Z.eqb].
    eexists. split; [reflexivity|]. done.
  - exists [].
    erewrite bind_exit_to
      by (apply execOrDie_fail; [apply surjective_pairing|done]).
    done.
Qed.

(** ** The Sauce Labs proxy *)

Section SauceRuns.
Context {W : Type} (env : Env (gmap string string * W)).
Context (tokenRequest : string -> W -> Outcome string * W).

Lemma startSauceConnect_run fn (p : Proc (gmap string string * W)) :
  let named := <["SAUCE_USERNAME":="amphtml"]> (sys p).1 in
  let req :=
    tokenRequest "https://amphtml-sauce-token-dealer.appspot.com/getJwtToken"
                 (sys p).2 in
  Utils.startSauceConnect env tokenRequest fn p =
  match req.1 with
  | Ret response =>
      let ran :=
        shell env "build-system/sauce_connect/start_sauce_connect.sh"
              (<["SAUCE_ACCESS_KEY":=Js.trim response]> named, req.2) in
      mkRun (if ran.1 =? 0 then Ret tt else Exit ran.1)
            (mkProc ran.2 (exitCode p))
            [Log [Utils.nl +:+ bold env (yellow env (fn +:+ ":"));
                  "Starting Sauce Connect Proxy:";
                  cyan env "build-system/sauce_connect/start_sauce_connect.sh"];
             Spawn "build-system/sauce_connect/start_sauce_connect.sh" ran.1]
  | Exit st => mkRun (Exit st) (mkProc (named, req.2) (exitCode p)) []
  | Throw err => mkRun (Throw err) (mkProc (named, req.2) (exitCode p)) []
  end.
Proof.
  intros named req. unfold req, named.
  unfold Utils.startSauceConnect, bind, Utils.process_env_set,
    Utils.requestPromise, console_log, emit.
  cbn [outcome final emitted sys exitCode fst snd].
  destruct (tokenRequest _ _) as [[response|st|err] w];
    cbn [outcome final emitted sys exitCode fst snd app]; [|done..].
  by rewrite execOrDie_run.
Qed.

Lemma stopSauceConnect_run fn (p : Proc (gmap string string * W)) :
  let ran :=
    shell env "build-system/sauce_connect/stop_sauce_connect.sh" (sys p) in
  Utils.stopSauceConnect env fn p =
  mkRun (if ran.1 =? 0 then Ret tt else Exit ran.1)
        (mkProc ran.2 (exitCode p))
        [Log [Utils.nl +:+ bold env (yellow env (fn +:+ ":"));
              "Stopping Sauce Connect Proxy:";
              cyan env "build-system/sauce_connect/stop_sauce_connect.sh"];
         Spawn "build-system/sauce_connect/stop_sauce_connect.sh" ran.1].
Proof.
  intros ran. unfold Utils.stopSauceConnect, bind, console_log, emit.
  cbn [outcome final emitted sys exitCode app].
  by rewrite execOrDie_run.
Qed.

End SauceRuns.

Lemma trimEnd_idem s : Js.trimEnd (Js.trimEnd s) = Js.trimEnd s.
Proof.
  induction s as [|c s IH]; [done|]. cbn [Js.trimEnd].
  destruct (Js.trimEnd s) as [|d t] eqn:Hs.
  - destruct (Js.isWhiteSpace c) eqn:Hc; [done|].
    cbn [Js.trimEnd]. by rewrite Hc.
  - cbn [Js.trimEnd] in *. by rewrite IH.
Qed.

Lemma trimStart_head s :
  match Js.trimStart s with
  | EmptyString => True
  | String c _ => Js.isWhiteSpace c = false
  end.
Proof.
  induction s as [|c s IH]; [done|]. cbn [Js.trimStart].
  by destruct (Js.isWhiteSpace c) eqn:Hc.
Qed.

Lemma trimEnd_head c s :
  Js.isWhiteSpace c = false ->
  exists t, Js.trimEnd (String c s) = String c t.
Proof.
  intros Hc. cbn [Js.trimEnd]. rewrite Hc.
  destruct (Js.trimEnd s); by eexists.
Qed.

Lemma trim_idem s : Js.trim (Js.trim s) = Js.trim s.
Proof.
  unfold Js.trim. pose proof (trimStart_head s) as Hhead.
  destruct (Js.trimStart s) as [|c t]; [done|].
  destruct (trimEnd_head c t Hhead) as [u Hu].
  rewrite Hu. cbn [Js.trimStart]. rewrite Hhead, <- Hu.
  apply trimEnd_idem.
Qed.

(** X14.  When the request for the access token is rejected,
    [startSauceConnect] ends with that rejection: nothing is printed, the
    proxy is not started, [SAUCE_ACCESS_KEY] is left as it was, and
    [SAUCE_USERNAME] has already been set. *)
Theorem rejected_token_request_leaves_the_username {W : Type}
    (env : Env (gmap string string * W))
    (tokenRequest : string -> W -> Outcome string * W)
    (fn : string) (p : Proc (gmap string string * W)) (err : string) :
  let r := Utils.startSauceConnect env tokenRequest fn p in
  (tokenRequest "https://amphtml-sauce-token-dealer.appspot.com/getJwtToken"
                (sys p).2).1 = Throw err ->
  outcome r = Throw err /\
  emitted r = [] /\
  exitCode (final r) = exitCode p /\
  (sys (final r)).1 !! "SAUCE_USERNAME" = Some "amphtml" /\
  (sys (final r)).1 !! "SAUCE_ACCESS_KEY" = (sys p).1 !! "SAUCE_ACCESS_KEY".
Proof.
  intros r Hreq. unfold r. rewrite startSauceConnect_run, Hreq.
  cbn [outcome final emitted sys exitCode fst].
  split_and!; [done..| |].
  - apply lookup_insert_eq.
  - by apply lookup_insert_ne.
Qed.

(** X15.  When the request for the access token resolves,
    [startSauceConnect] prints one line and runs the start script of the
    proxy, once, in an environment where [SAUCE_USERNAME] is [amphtml] and
    [SAUCE_ACCESS_KEY] is the body of the response without the white space
    around it (trimming it again changes nothing).  The script is fatal:
    the function returns when it passes and the process ends with its
    status otherwise. *)
Theorem sauce_connect_starts_with_the_trimmed_token {W : Type}
    (env : Env (gmap string string * W))
    (tokenRequest : string -> W -> Outcome string * W)
    (fn : string) (p : Proc (gmap string string * W)) (response : string) :
  let r := Utils.startSauceConnect env tokenRequest fn p in
  let req :=
    tokenRequest "https://amphtml-sauce-token-dealer.appspot.com/getJwtToken"
                 (sys p).2 in
  let script := "build-system/sauce_connect/start_sauce_connect.sh" in
  req.1 = Ret response ->
  exists vars,
    vars !! "SAUCE_USERNAME" = Some "amphtml" /\
    vars !! "SAUCE_ACCESS_KEY" = Some (Js.trim response) /\
    Js.trim (Js.trim response) = Js.trim response /\
    (forall name, name ≠ "SAUCE_USERNAME" -> name ≠ "SAUCE_ACCESS_KEY" ->
                  vars !! name = (sys p).1 !! name) /\
    let ran := shell env script (vars, req.2) in
    commands (emitted r) = [script] /\
    Spawn script ran.1 ∈ emitted r /\
    sys (final r) = ran.2 /\
    exitCode (final r) = exitCode p /\
    outcome r = if ran.1 =? 0 then Ret tt else Exit ran.1.
Proof.
  intros r req script Hreq. unfold r. rewrite startSauceConnect_run.
  fold req. rewrite Hreq.
  exists (<["SAUCE_ACCESS_KEY":=Js.trim response]>
            (<["SAUCE_USERNAME":="amphtml"]> (sys p).1)).
  split_and!; try reflexivity.
  - rewrite lookup_insert_ne by done. apply lookup_insert_eq.
  - apply lookup_insert_eq.
  - apply trim_idem.
  - intros name H1 H2. by rewrite !lookup_insert_ne.
  - cbn [emitted]. apply list_elem_of_further, list_elem_of_here.
Qed.

(** X16.  The credentials of the proxy outlive it.  Child processes cannot
    change the environment of their parent; then after a start of the
    proxy followed by a stop that both return, [SAUCE_USERNAME] and
    [SAUCE_ACCESS_KEY] are still set in [process.env]: [stopSauceConnect]
    runs the stop script and clears nothing. *)
Theorem sauce_credentials_outlive_the_proxy {W : Type}
    (env : Env (gmap string string * W))
    (tokenRequest : string -> W -> Outcome string * W)
    (fn : string) (p : Proc (gmap string string * W)) :
  let r := (Utils.startSauceConnect env tokenRequest fn ;;
            Utils.stopSauceConnect env fn) p in
  (forall cmd s, (shell env cmd s).2.1 = s.1) ->
  outcome r = Ret tt ->
  exists response,
    (tokenRequest "https://amphtml-sauce-token-dealer.appspot.com/getJwtToken"
                  (sys p).2).1 = Ret response /\
    (sys (final r)).1 !! "SAUCE_USERNAME" = Some "amphtml" /\
    (sys (final r)).1 !! "SAUCE_ACCESS_KEY" = Some (Js.trim response) /\
    commands (emitted r) =
      ["build-system/sauce_connect/start_sauce_connect.sh";
       "build-system/sauce_connect/stop_sauce_connect.sh"].
Proof.
  intros r Hchild. unfold r, bind. rewrite startSauceConnect_run.
  destruct (tokenRequest _ _).1 as [response|st|err] eqn:Hreq;
    cbn [outcome final emitted]; [|done..].
  set (ran := shell env "build-system/sauce_connect/start_sauce_connect.sh" _).
  destruct (ran.1 =? 0) eqn:Hst; [|done].
  rewrite stopSauceConnect_run. cbn [outcome final emitted sys].
  set (ran' := shell env "build-system/sauce_connect/stop_sauce_connect.sh" _).
  intros Ho. exists response. split; [done|].
  unfold ran'. rewrite (Hchild _ ran.2). unfold ran. rewrite Hchild.
  cbn [fst].
  split_and!.
  - rewrite lookup_insert_ne by done. apply lookup_insert_eq.
  - apply lookup_insert_eq.
  - done.
Qed.

(** ** How the processing of the dist output fails *)

(** A run that does not return ends on the step that stopped it. *)
Lemma possible_ends l o t :
  possible l o t ->
  o = Ret tt \/
  exists e, last t = Some e /\
    ((exists cmd st, st ≠ 0 /\ o = Exit st /\ e = Spawn cmd st /\
                     SExecOrDie cmd ∈ l) \/
     (¬ returns o /\
      ((e = SignalDistUploadComplete /\ SSignal ∈ l) \/
       exists d, e = ReplaceUrls d /\ SReplaceUrls d ∈ l))).
Proof.
  assert (Hlast : forall (e x : Event) u, last u = Some x -> last (e :: u) = Some x).
  { intros e x [|y u]; [done | by simpl]. }
  assert (Hnext : forall (s : Step) (x : Event) l o t,
    (o = Ret tt \/
     exists e, last t = Some e /\
       ((exists cmd st, st ≠ 0 /\ o = Exit st /\ e = Spawn cmd st /\
                        SExecOrDie cmd ∈ l) \/
        (¬ returns o /\
         ((e = SignalDistUploadComplete /\ SSignal ∈ l) \/
          exists d, e = ReplaceUrls d /\ SReplaceUrls d ∈ l)))) ->
    o = Ret tt \/
     exists e, last (x :: t) = Some e /\
       ((exists cmd st, st ≠ 0 /\ o = Exit st /\ e = Spawn cmd st /\
                        SExecOrDie cmd ∈ s :: l) \/
        (¬ returns o /\
         ((e = SignalDistUploadComplete /\ SSignal ∈ s :: l) \/
          exists d, e = ReplaceUrls d /\ SReplaceUrls d ∈ s :: l)))).
  { intros s x l' o' t' [->|(e & He & Hcase)]; [by left|]. right.
    exists e. split; [by apply Hlast|].
    destruct Hcase as [(cmd & st & ? & ? & ? & ?)|(Hr & [[? ?]|(d & ? & ?)])].
    - left. exists cmd, st. split_and!; try done. by apply list_elem_of_further.
    - right. split; [done|]. left. split; [done|]. by apply list_elem_of_further.
    - right. split; [done|]. right. exists d. split; [done|].
      by apply list_elem_of_further. }
  induction 1 as [|a l o t Hp IH|c s l o t Hp IH|c l o t Hp IH|c s l Hs
                  |d l o t Hp IH|d l o Hr|l o t Hp IH|l o Hr];
    try (by apply Hnext).
  - by left.
  - right. eexists. split; [reflexivity|]. left. exists c, s.
    split_and!; try done. apply list_elem_of_here.
  - right. eexists. split; [reflexivity|]. right. split; [done|]. right.
    exists d. split; [done|]. apply list_elem_of_here.
  - right. eexists. split; [reflexivity|]. right. split; [done|]. left.
    split; [done|]. apply list_elem_of_here.
Qed.

(** X18.  How [processAndUploadDistOutput] fails.  Its own code never
    throws: a run that ends with an exception ends on a call of one of the
    awaited collaborators, the rewriting of the URLs or the signal, which
    is the last event.  A run that ends the process on a status ends on a
    collaborator too, or on a fatal command of the upload that failed with
    this status.  Nothing is undone: when the signal is reached, also when
    it is then rejected, the whole upload has been run and nothing
    follows the signal. *)
Theorem dist_processing_fails_on_a_collaborator_or_a_command {Sys}
    (env : Env Sys) (fn : string) (p : Proc Sys) :
  let r := Utils.processAndUploadDistOutput env fn p in
  let collaborators :=
    [ReplaceUrls "test/manual"; ReplaceUrls "examples";
     SignalDistUploadComplete] in
  (forall err, outcome r = Throw err ->
     exists e, last (emitted r) = Some e /\ e ∈ collaborators) /\
  (forall st, outcome r = Exit st ->
     exists e, last (emitted r) = Some e /\
       (e ∈ collaborators \/
        exists cmd, st ≠ 0 /\ e = Spawn cmd st /\
          cmd ∈ upload_commands env (Utils.DIST_OUTPUT_FILE env)
                  Utils.DIST_OUTPUT_DIRS)) /\
  (forall pre post,
     emitted r = pre ++ SignalDistUploadComplete :: post ->
     post = [] /\
     commands pre = upload_commands env (Utils.DIST_OUTPUT_FILE env)
                      Utils.DIST_OUTPUT_DIRS).
Proof.
  intros r collaborators.
  pose proof (process_runs env fn p) as H. fold r in H.
  assert (Hcollab : forall e,
    (e = SignalDistUploadComplete /\ SSignal ∈ process_steps env fn) \/
    (exists d, e = ReplaceUrls d /\ SReplaceUrls d ∈ process_steps env fn) ->
    e ∈ collaborators).
  { intros e [[-> _]|(d & -> & Hin)].
    - do 2 apply list_elem_of_further. apply list_elem_of_here.
    - unfold process_steps, upload_steps, pack_steps, auth_steps,
        auth_commands in Hin. simpl in Hin.
      apply elem_of_cons in Hin as [Hin|Hin];
        [injection Hin as ->; apply list_elem_of_here|].
      apply elem_of_cons in Hin as [Hin|Hin];
        [injection Hin as ->; apply list_elem_of_further, list_elem_of_here|].
      repeat (apply elem_of_cons in Hin as [Hin|Hin]; [discriminate|]).
      by apply elem_of_nil in Hin. }
  split_and!.
  - intros err Ho.
    destruct (possible_ends _ _ _ H) as [Hret|(e & He & Hcase)];
      [congruence|].
    exists e. split; [done|].
    destruct Hcase as [(cmd & st & _ & Hexit & _)|(_ & Hc)]; [congruence|].
    by apply Hcollab.
  - intros st Ho.
    destruct (possible_ends _ _ _ H) as [Hret|(e & He & Hcase)];
      [congruence|].
    exists e. split; [done|].
    destruct Hcase as [(cmd & st' & Hst & Hexit & -> & Hin)|(_ & Hc)].
    + right. exists cmd. rewrite Ho in Hexit. injection Hexit as <-.
      split_and!; [done..|].
      unfold process_steps, upload_steps, pack_steps, auth_steps,
        auth_commands in Hin. simpl in Hin.
      unfold upload_commands, auth_commands. simpl.
      repeat (apply elem_of_cons in Hin as [Hin|Hin];
              [first [discriminate
                     | injection Hin as ->;
                       repeat first [apply list_elem_of_here
                                    | apply list_elem_of_further]]|]).
      by apply elem_of_nil in Hin.
    + left. by apply Hcollab.
  - intros pre post Ht.
    assert (Hshape : map step_event (process_steps env fn) =
              (ReplaceUrls "test/manual" :: ReplaceUrls "examples" ::
               map step_event (upload_steps env fn (Utils.DIST_OUTPUT_FILE env)
                                 Utils.DIST_OUTPUT_DIRS))
              ++ unstatus SignalDistUploadComplete :: []).
    { unfold process_steps, upload_steps, pack_steps, auth_steps,
        auth_commands. reflexivity. }
    assert (Hnot : unstatus SignalDistUploadComplete ∉
              ReplaceUrls "test/manual" :: ReplaceUrls "examples" ::
              map step_event (upload_steps env fn (Utils.DIST_OUTPUT_FILE env)
                                Utils.DIST_OUTPUT_DIRS)).
    { unfold upload_steps, pack_steps, auth_steps, auth_commands. simpl.
      not_in_list. }
    pose proof (possible_split _ _ _ _ _ _ _ _ H Ht Hshape Hnot
                  (not_elem_of_nil _)) as Hpre.
    split.
    + destruct (possible_prefix _ _ _ H) as [k Hk].
      rewrite Ht, map_app, Hshape, Hpre in Hk.
      rewrite <- app_assoc in Hk. apply app_inv_head in Hk.
      simpl in Hk. injection Hk as Hk.
      apply (f_equal length) in Hk. rewrite length_app, length_map in Hk.
      simpl in Hk. destruct post; [done|simpl in Hk; lia].
    + rewrite <- commands_unstatus, Hpre.
      unfold upload_steps, pack_steps, auth_steps, auth_commands,
        upload_commands. reflexivity.
Qed.

(** ** The properties of the checks job at sample builds *)

Lemma checks_push_build_witness :
  (yarnChecks travis_1234 "checks.js" (clock travis_1234 (sys new_process)).2).1 = true /\
  isTravisPullRequestBuild travis_1234 = false /\
  exitCode (final (Checks.main travis_1234 new_process)) = None /\
  commands (emitted (Checks.main travis_1234 new_process)) `prefix_of` push_commands.
Proof.
  split; [reflexivity|]. split; [reflexivity|].
  destruct (checks_push_build travis_1234 new_process eq_refl eq_refl)
    as (He & _ & [(_ & Hc & _)|(st & pre & cmd & post & t & _ & _ & Hc & Ht & Hpre & _)]).
  - split; [exact He|]. rewrite Hc. reflexivity.
  - split; [exact He|]. rewrite Ht, Hc, commands_snoc, Hpre.
    exists post. rewrite <- app_assoc. reflexivity.
Defined.

Lemma checks_pull_request_build_witness :
  (yarnChecks docs_pull_request "checks.js"
     (clock docs_pull_request (sys new_process)).2).1 = true /\
  isTravisPullRequestBuild docs_pull_request = true /\
  Js.truthy (gitBranchCreationPoint docs_pull_request) = true /\
  exists rest,
    commands (emitted (Checks.main docs_pull_request new_process)) = commands rest /\
    (outcome (Checks.main docs_pull_request new_process) = Ret tt ->
     commands rest = pr_commands {[ "DOCS" ]}).
Proof.
  split; [reflexivity|]. split; [reflexivity|]. split; [reflexivity|].
  destruct (checks_pull_request_build docs_pull_request new_process
              eq_refl eq_refl eq_refl)
    as (targets & rest & Htargets & _ & Hc & _ & Hend).
  exists rest. split; [exact Hc|]. intros Hret.
  destruct Hend as [(_ & Hcmds & _)|(st & pre & cmd & post & t & _ & Hexit & _)].
  - rewrite Hcmds, Htargets. reflexivity.
  - rewrite Hret in Hexit. discriminate.
Defined.

Lemma guarded_commands_need_their_target_witness :
  Spawn "gulp check-links" 0 ∈ emitted (Checks.main docs_pull_request new_process) /\
  command_target "gulp check-links" = Some "DOCS" /\
  isTravisPullRequestBuild docs_pull_request = true /\
  exists targets,
    DetermineBuildTargets "checks.js" targets
      ∈ emitted (Checks.main docs_pull_request new_process) /\
    "DOCS" ∈ targets.
Proof.
  assert (Hin : Spawn "gulp check-links" 0
                  ∈ emitted (Checks.main docs_pull_request new_process)).
  { vm_compute.
    repeat first [apply list_elem_of_here | apply list_elem_of_further]. }
  split; [exact Hin|]. split; [reflexivity|]. split; [reflexivity|].
  exact (proj2 (guarded_commands_need_their_target docs_pull_request
                  new_process "gulp check-links" 0 "DOCS" Hin eq_refl) eq_refl).
Defined.

Lemma timedExecOrDie_stops_timer_only_on_success_witness :
  let failed :=
    Utils.timedExecOrDie (pull_request_of ∅ lint_fails) "gulp lint" "checks.js"
                         new_process in
  let passed :=
    Utils.timedExecOrDie (pull_request_of ∅ all_pass) "gulp lint" "checks.js"
                         new_process in
  (shell (pull_request_of ∅ lint_fails) "gulp lint" 1000).1 ≠ 0 /\
  outcome failed = Exit 3 /\
  emitted failed =
    [DateNow 0; Log [Utils.nl +:+ "checks.js:"; "Running"; "gulp lint..."];
     Spawn "gulp lint" 3] /\
  (shell (pull_request_of ∅ all_pass) "gulp lint" 1000).1 = 0 /\
  outcome passed = Ret tt /\
  emitted passed =
    [DateNow 0; Log [Utils.nl +:+ "checks.js:"; "Running"; "gulp lint..."];
     Spawn "gulp lint" 0; DateNow 1000;
     Log ["checks.js:"; "Done running"; "gulp lint"; "Total time:"; "0m 1s"]].
Proof.
  intros failed passed.
  assert (Hst : (shell (pull_request_of ∅ lint_fails) "gulp lint" 1000).1 ≠ 0)
    by discriminate.
  destruct (timedExecOrDie_stops_timer_only_on_success
              (pull_request_of ∅ lint_fails) "gulp lint" "checks.js" new_process)
    as (_ & Hfail & _).
  destruct (timedExecOrDie_stops_timer_only_on_success
              (pull_request_of ∅ all_pass) "gulp lint" "checks.js" new_process)
    as (_ & _ & Hpass).
  destruct (Hfail Hst) as (H1 & H2 & _).
  destruct (Hpass eq_refl) as (H3 & H4 & _).
  split; [exact Hst|]. split; [exact H1|]. split; [exact H2|].
  split; [reflexivity|]. split; [exact H3|exact H4].
Defined.

Lemma checks_endings_witness :
  (exists st cmd t,
     st ≠ 0 /\
     outcome (Checks.main (pull_request_of ∅ lint_fails) new_process) = Exit st /\
     emitted (Checks.main (pull_request_of ∅ lint_fails) new_process) =
       t ++ [Spawn cmd st] /\
     open_timers (emitted (Checks.main (pull_request_of ∅ lint_fails) new_process)) = 2) /\
  outcome (Checks.main docs_pull_request new_process) = Ret tt /\
  stopped_last docs_pull_request 0 (emitted (Checks.main docs_pull_request new_process)).
Proof.
  split.
  - destruct (checks_endings (pull_request_of ∅ lint_fails) new_process)
      as (_ & [(Ho & _)|(st & cmd & t & Hst & Ho & Ht & _ & Hopen & _)]).
    + vm_compute in Ho. discriminate Ho.
    + exists st, cmd, t.
      split; [exact Hst|]. split; [exact Ho|]. split; [exact Ht|exact Hopen].
  - destruct (checks_endings docs_pull_request new_process)
      as (_ & [(Ho & _ & Hstop & _)|(st & cmd & t & _ & Ho & _)]).
    + split; [exact Ho|exact Hstop].
    + vm_compute in Ho. discriminate Ho.
Defined.

Lemma transfers_return_when_their_tools_pass_witness :
  (forall cmd s, Js.startsWith cmd "echo " = false ->
                 (shell travis_mute cmd s).1 = 0) /\
  (shell travis_mute "echo travis_fold:start:zip_results && echo" 0).1 = 1 /\
  outcome (Utils.uploadBuildOutput travis_mute "build.js" new_process) = Ret tt /\
  commands (emitted (Utils.uploadBuildOutput travis_mute "build.js" new_process)) =
    upload_commands travis_mute "amp_build_1234.zip"
      "build/ dist/ dist.3p/ EXTENSIONS_CSS_MAP".
Proof.
  assert (Hpass : forall cmd (s : Z), Js.startsWith cmd "echo " = false ->
                    (shell travis_mute cmd s).1 = 0).
  { intros cmd s Hcmd. cbn [travis_mute sample_env shell fst]. unfold echo_fails.
    rewrite Hcmd. reflexivity. }
  split; [exact Hpass|]. split; [reflexivity|].
  destruct (transfers_return_when_their_tools_pass travis_mute "build.js"
              new_process Hpass
              (Utils.uploadBuildOutput travis_mute "build.js")
              (upload_commands travis_mute (Utils.BUILD_OUTPUT_FILE travis_mute)
                 Utils.BUILD_OUTPUT_DIRS)
              (list_elem_of_here _ _))
    as (Ho & Hc & _).
  split; [exact Ho|exact Hc].
Defined.

Lemma checks_pass_when_commands_pass_witness :
  (yarnChecks docs_pull_request "checks.js"
     (clock docs_pull_request (sys new_process)).2).1 = true /\
  (isTravisPullRequestBuild docs_pull_request = true ->
   Js.truthy (gitBranchCreationPoint docs_pull_request) = true) /\
  (forall cmd s, cmd ∈ all_commands -> (shell docs_pull_request cmd s).1 = 0) /\
  outcome (Checks.main docs_pull_request new_process) = Ret tt /\
  commands (emitted (Checks.main docs_pull_request new_process)) =
    ["gulp update-packages"; "gulp check-exact-versions"; "gulp lint";
     "gulp presubmit"; "gulp check-links"].
Proof.
  split; [reflexivity|]. split; [reflexivity|].
  split; [reflexivity|].
  destruct (checks_pass_when_commands_pass docs_pull_request new_process
              eq_refl (fun _ => eq_refl) (fun _ _ _ => eq_refl))
    as (Ho & _ & Hc).
  split; [exact Ho|exact Hc].
Defined.

Lemma elapsed_time_is_truncated_witness :
  Utils.elapsed_text 61999 = "1m 1s" /\
  Utils.elapsed_text (-1) = "-1m -1s" /\
  60000 * Js.floor_div (-1) 60000 + 1000 * Js.floor_div (Js.remainder (-1) 60000) 1000
    <= -1 - 60000.
Proof.
  destruct (elapsed_time_is_truncated 61999) as (Hpos & _).
  destruct (elapsed_time_is_truncated (-1)) as (Hneg & _ & Hback).
  split; [exact Hpos|]. split; [exact Hneg|].
  assert (Hlt : -1 < 0) by reflexivity.
  assert (Hrem : Js.remainder (-1) 60000 ≠ 0) by discriminate.
  exact (proj1 (proj2 (proj2 (Hback Hlt Hrem)))).
Defined.

Lemma archive_names_tell_runs_apart_witness :
  isTravisBuild travis_1234 = true /\
  isTravisBuild docs_pull_request = true /\
  Utils.BUILD_OUTPUT_FILE travis_1234 ≠ Utils.DIST_OUTPUT_FILE docs_pull_request /\
  isTravisBuild local_build = false /\
  Utils.BUILD_OUTPUT_FILE local_build = Utils.DIST_OUTPUT_FILE local_build.
Proof.
  split; [reflexivity|]. split; [reflexivity|].
  destruct (archive_names_tell_runs_apart travis_1234 docs_pull_request)
    as (Hon & _).
  destruct (archive_names_tell_runs_apart local_build local_build)
    as (_ & Hoff).
  split; [exact (proj1 (Hon eq_refl eq_refl))|].
  split; [reflexivity|]. exact (proj1 (Hoff eq_refl eq_refl)).
Defined.

Lemma missing_token_is_the_word_undefined_witness :
  let env := cloud_env sample_tools None in
  let r := Utils.authenticateWithStorageLocation_ env (mkProc sample_machine None) in
  GCP_TOKEN env = None /\
  outcome r = Exit 1 /\
  emitted r =
    [Spawn "openssl aes-256-cbc -md sha256 -k undefined -in build-system/sa-travis-key.json.enc -out sa-travis-key.json -d" 1].
Proof.
  intros env r.
  destruct (missing_token_is_the_word_undefined env (mkProc sample_machine None)
              eq_refl) as (rest & Ht & Hfail).
  assert (Hst : (shell env "openssl aes-256-cbc -md sha256 -k undefined -in build-system/sa-travis-key.json.enc -out sa-travis-key.json -d"
                   (sys (mkProc sample_machine None))).1 ≠ 0).
  { vm_compute. discriminate. }
  destruct (Hfail Hst) as (Hrest & Ho).
  split; [reflexivity|]. split; [exact Ho|].
  fold r in Ht. rewrite Ht, Hrest. reflexivity.
Defined.

Lemma rejected_token_request_leaves_the_username_witness :
  let r := Utils.startSauceConnect (sauce_env all_pass) token_dealer_down
             "e2e-tests.js" stale_process in
  outcome r = Throw "ECONNREFUSED" /\
  emitted r = [] /\
  (sys (final r)).1 !! "SAUCE_USERNAME" = Some "amphtml" /\
  (sys (final r)).1 !! "SAUCE_ACCESS_KEY" = Some "old".
Proof.
  intros r.
  destruct (rejected_token_request_leaves_the_username (sauce_env all_pass)
              token_dealer_down "e2e-tests.js" stale_process "ECONNREFUSED"
              eq_refl) as (Ho & Ht & _ & Hname & Hkey).
  split; [exact Ho|]. split; [exact Ht|]. split; [exact Hname|].
  fold r in Hkey. rewrite Hkey. reflexivity.
Defined.

Lemma sauce_connect_starts_with_the_trimmed_token_witness :
  let r := Utils.startSauceConnect (sauce_env all_pass)
             (token_dealer (" token" +:+ Utils.nl)) "e2e-tests.js"
             stale_process in
  Js.trim (" token" +:+ Utils.nl) = "token" /\
  outcome r = Ret tt /\
  commands (emitted r) = ["build-system/sauce_connect/start_sauce_connect.sh"].
Proof.
  intros r.
  destruct (sauce_connect_starts_with_the_trimmed_token (sauce_env all_pass)
              (token_dealer (" token" +:+ Utils.nl)) "e2e-tests.js"
              stale_process (" token" +:+ Utils.nl) eq_refl)
    as (vars & _ & _ & _ & _ & Hc & _ & _ & _ & Ho).
  split; [reflexivity|]. split; [exact Ho|exact Hc].
Defined.

Lemma sauce_credentials_outlive_the_proxy_witness :
  let r := (Utils.startSauceConnect (sauce_env all_pass)
              (token_dealer (" token" +:+ Utils.nl)) "e2e-tests.js" ;;
            Utils.stopSauceConnect (sauce_env all_pass) "e2e-tests.js")
             stale_process in
  (forall cmd s, (shell (sauce_env all_pass) cmd s).2.1 = s.1) /\
  outcome r = Ret tt /\
  (sys (final r)).1 !! "SAUCE_USERNAME" = Some "amphtml" /\
  exists response,
    (sys (final r)).1 !! "SAUCE_ACCESS_KEY" = Some (Js.trim response).
Proof.
  intros r.
  assert (Ho : outcome r = Ret tt) by reflexivity.
  destruct (sauce_credentials_outlive_the_proxy (sauce_env all_pass)
              (token_dealer (" token" +:+ Utils.nl)) "e2e-tests.js"
              stale_process (fun _ _ => eq_refl) Ho)
    as (response & _ & Hname & Hkey & _).
  split; [reflexivity|]. split; [exact Ho|]. split; [exact Hname|].
  exists response. exact Hkey.
Defined.

Lemma dist_processing_fails_on_a_collaborator_or_a_command_witness :
  let r := Utils.processAndUploadDistOutput signal_rejected "dist.js" new_process in
  outcome r = Throw "rejected" /\
  exists e, last (emitted r) = Some e /\
    e ∈ [ReplaceUrls "test/manual"; ReplaceUrls "examples";
         SignalDistUploadComplete].
Proof.
  intros r.
  assert (Ho : outcome r = Throw "rejected") by (vm_compute; reflexivity).
  destruct (dist_processing_fails_on_a_collaborator_or_a_command
              signal_rejected "dist.js" new_process) as (Hthrow & _).
  split; [exact Ho|]. exact (Hthrow "rejected" Ho).
Defined.

Lemma checks_timers_are_stopped_unless_a_command_fails_witness :
  outcome (Checks.main (pull_request_of ∅ lint_fails) new_process) = Exit 3 /\
  open_timers (emitted (Checks.main (pull_request_of ∅ lint_fails) new_process)) = 2 /\
  outcome (Checks.main docs_pull_request new_process) = Ret tt /\
  open_timers (emitted (Checks.main docs_pull_request new_process)) = 0.
Proof.
  assert (Hexit : outcome (Checks.main (pull_request_of ∅ lint_fails) new_process)
                  = Exit 3) by reflexivity.
  assert (Hret : outcome (Checks.main docs_pull_request new_process) = Ret tt)
    by reflexivity.
  destruct (checks_timers_are_stopped_unless_a_command_fails
              (pull_request_of ∅ lint_fails) new_process) as (_ & Hopen).
  destruct (checks_timers_are_stopped_unless_a_command_fails
              docs_pull_request new_process) as (Hclosed & _).
  split; [exact Hexit|]. split; [exact (Hopen 3 Hexit)|].
  split; [exact Hret|exact (Hclosed Hret)].
Defined.
